(** * freaky-fit backend: subscription gate, plan generation, admin routes

    A shallow embedding of
    - [backend/dist/middlewares/subscription.middleware.js]
      ([canGenerateWorkoutPlan], [canGenerateMealPlan]),
    - [backend/src/libs/workoutPlanGenerator.ts]
      ([isWorkoutPlan], [workoutPlanGenerator]),
    - [backend/src/routes/admin.ts] (the seven admin handlers),
    - [backend/dist/middlewares/auth.middleware.js] ([protect], [admin]),
    with the properties of the written specification stated over it.

    Handlers are asynchronous functions that talk to a document store and to
    external clients and that catch what those throw.  They are embedded in a
    state-and-exception monad: the state is the world the handler acts on (the
    collections, a journal of the store operations performed, counters that
    index the answers of the environment), and a thrown exception keeps the
    state reached so far, as a rejected promise does. *)

From Stdlib Require Import ZArith QArith Ascii String List Lia.
From Stdlib Require Import DecimalString DecimalNat.
From stdpp Require Import base list strings numbers.

Set Warnings "-register-all".

Open Scope string_scope.
Open Scope list_scope.
Open Scope Z_scope.

(** ** Effects: state that survives exceptions *)

Module Eff.

Definition M (S E A : Type) : Type := S -> (E + A) * S.

Definition ret {S E A} (a : A) : M S E A := fun s => (inr a, s).

Definition throw {S E A} (e : E) : M S E A := fun s => (inl e, s).

Definition bind {S E A B} (m : M S E A) (k : A -> M S E B) : M S E B :=
  fun s => match m s with
           | (inr a, s') => k a s'
           | (inl e, s') => (inl e, s')
           end.

(** [try { m } catch (e) { h e }] *)
Definition try_catch {S E A} (m : M S E A) (h : E -> M S E A) : M S E A :=
  fun s => match m s with
           | (inr a, s') => (inr a, s')
           | (inl e, s') => h e s'
           end.

Definition gets {S E A} (f : S -> A) : M S E A := fun s => (inr (f s), s).

(** A pure step that may raise. *)
Definition lift {S E A} (r : E + A) : M S E A := fun s => (r, s).

(** stdpp's monadic notations ([x ← m; k], [m ;; k]) are used for handlers. *)
#[global] Instance M_ret {S E} : MRet (M S E) := fun A => @ret S E A.
#[global] Instance M_bind {S E} : MBind (M S E) := fun A B k m => @bind S E A B m k.

End Eff.

(** ** JavaScript values

    Request bodies, AI payloads, stored documents and response bodies are
    JSON-like values.  An object is the list of its own properties in the
    engine's enumeration order; an array carries its elements and the named
    properties that have been set on it.  Numbers are rationals: what the
    code does with a number here (truthiness, comparison with 0) does not depend on
    the binary representation. *)

Module Js.

Inductive value : Type :=
| VUndef
| VNull
| VBool (b : bool)
| VNum (q : Q)
| VStr (s : string)
| VArr (elems : list value) (props : list (string * value))
| VObj (props : list (string * value)).

(** ToBoolean *)
Definition truthy (v : value) : bool :=
  match v with
  | VUndef | VNull => false
  | VBool b => b
  | VNum q => negb (Z.eqb (Qnum q) 0)
  | VStr s => negb (String.eqb s "")
  | VArr _ _ | VObj _ => true
  end.

(** [a || b] *)
Definition or_else (a b : value) : value := if truthy a then a else b.

Fixpoint assoc (k : string) (ps : list (string * value)) : option value :=
  match ps with
  | [] => None
  | (k', v) :: ps' => if String.eqb k k' then Some v else assoc k ps'
  end.

(** Writing a property keeps the position of an existing key and appends a
    new one. *)
Fixpoint assoc_set (k : string) (v : value) (ps : list (string * value))
  : list (string * value) :=
  match ps with
  | [] => [(k, v)]
  | (k', v') :: ps' =>
      if String.eqb k k' then (k, v) :: ps' else (k', v') :: assoc_set k v ps'
  end.

Fixpoint assoc_del (k : string) (ps : list (string * value))
  : list (string * value) :=
  match ps with
  | [] => []
  | (k', v') :: ps' =>
      if String.eqb k k' then assoc_del k ps' else (k', v') :: assoc_del k ps'
  end.

Definition keys (ps : list (string * value)) : list string := map fst ps.

Definition has_key (k : string) (ps : list (string * value)) : bool :=
  match assoc k ps with Some _ => true | None => false end.

Definition assoc_or_undef (k : string) (ps : list (string * value)) : value :=
  match assoc k ps with Some v => v | None => VUndef end.

(** *** Array indices as property keys *)

Definition index_key (i : nat) : string :=
  NilZero.string_of_uint (Nat.to_uint i).

(** A key is an array index when it is the canonical decimal of a number. *)
Definition parse_index (k : string) : option nat :=
  match NilZero.uint_of_string k with
  | Some d =>
      let i := Nat.of_uint d in
      if String.eqb (index_key i) k then Some i else None
  | None => None
  end.

Definition index_keys (n : nat) : list string := map index_key (seq 0 n).

Fixpoint chars (s : string) : list value :=
  match s with
  | EmptyString => []
  | String c s' => VStr (String c EmptyString) :: chars s'
  end.

(** *** The operations that can raise a [TypeError] *)

Inductive type_error : Type :=
| CannotRead (k : string) (base : value)
| CannotSet (k : string) (base : value)
| NotIterable (v : value)
| BadInOperand (v : value)
| CannotConvertToObject (v : value).

(** [v[k]] for the keys a handler reads: own properties, array elements and
    string characters.  The built-in [length] and the methods found on
    prototypes are not modelled; no handler here reads them. *)
Definition get_prop (v : value) (k : string) : type_error + value :=
  match v with
  | VUndef | VNull => inl (CannotRead k v)
  | VBool _ | VNum _ => inr VUndef
  | VStr s =>
      inr (match parse_index k with
           | Some i => default VUndef (chars s !! i)
           | None => VUndef
           end)
  | VArr elems props =>
      inr (match parse_index k with
           | Some i =>
               match elems !! i with
               | Some e => e
               | None => assoc_or_undef k props
               end
           | None => assoc_or_undef k props
           end)
  | VObj props => inr (assoc_or_undef k props)
  end.

(** The effect of a successful [v[k] = x] on an object or an array.  An index
    past the end of an array is kept as a named property (the handlers never
    write one). *)
Definition update_prop (v : value) (k : string) (x : value) : value :=
  match v with
  | VObj props => VObj (assoc_set k x props)
  | VArr elems props =>
      match parse_index k with
      | Some i =>
          if (i <? List.length elems)%nat then VArr (<[i := x]> elems) props
          else VArr elems (assoc_set k x props)
      | None => VArr elems (assoc_set k x props)
      end
  | _ => v
  end.

Definition is_object (v : value) : Prop :=
  match v with VObj _ | VArr _ _ => True | _ => False end.

(** [v[k] = x] in strict mode: writing to [undefined], [null] or a primitive
    raises. *)
Definition set_prop (v : value) (k : string) (x : value) : type_error + value :=
  match v with
  | VObj _ | VArr _ _ => inr (update_prop v k x)
  | _ => inl (CannotSet k v)
  end.

(** [delete v[k]] on a plain object *)
Definition delete_prop (v : value) (k : string) : value :=
  match v with
  | VObj props => VObj (assoc_del k props)
  | _ => v
  end.

(** [Object.keys(v)] *)
Definition own_keys (v : value) : type_error + list string :=
  match v with
  | VUndef | VNull => inl (CannotConvertToObject v)
  | VBool _ | VNum _ => inr []
  | VStr s => inr (index_keys (String.length s))
  | VArr elems props => inr (index_keys (List.length elems) ++ keys props)
  | VObj props => inr (keys props)
  end.

(** [k in v] *)
Definition has_in (k : string) (v : value) : type_error + bool :=
  match v with
  | VObj props => inr (has_key k props)
  | VArr elems props =>
      inr (match parse_index k with
           | Some i => (i <? List.length elems)%nat || has_key k props
           | None => has_key k props
           end)
  | _ => inl (BadInOperand v)
  end.

(** The values a [for ... of] loop visits.  A string is visited character by
    character. *)
Definition iterate (v : value) : type_error + list value :=
  match v with
  | VArr elems _ => inr elems
  | VStr s => inr (chars s)
  | _ => inl (NotIterable v)
  end.

(** What an array or string becomes when the values it iterates over have
    been mutated in place into [items]. *)
Definition with_items (v : value) (items : list value) : value :=
  match v with
  | VArr _ props => VArr items props
  | _ => v
  end.

End Js.

(** ** The subscription gate ([subscription.middleware.js]) *)

Module Gate.
Import Eff Js.

(** A subscription document, with the fields the middleware writes in
    [Subscription.create].  Dates are milliseconds since the epoch. *)
Record Subscription : Type := mkSubscription {
  user : string;
  plan : string;
  startDate : Z;
  endDate : Z;
  active : bool;
  workoutPlansGenerated : Z;
  mealPlansGenerated : Z
}.

Definition set_workoutPlansGenerated (n : Z) (s : Subscription) : Subscription :=
  mkSubscription (user s) (plan s) (startDate s) (endDate s) (active s)
                 n (mealPlansGenerated s).

Definition set_mealPlansGenerated (n : Z) (s : Subscription) : Subscription :=
  mkSubscription (user s) (plan s) (startDate s) (endDate s) (active s)
                 (workoutPlansGenerated s) n.

(** The store operations a handler issues, in the order it issues them. *)
Inductive StoreOp : Type :=
| OpFindOne (uid : string) (now : Z)
| OpCreate (s : Subscription)
| OpSave (i : nat) (s : Subscription).

(** The collection (a document is identified by its position: nothing here
    deletes one), the journal of operations issued so far, and how many
    store operations and clock readings have happened. *)
Record World : Type := mkWorld {
  subs : list Subscription;
  journal : list StoreOp;
  nops : nat;
  nticks : nat
}.

(** [req.user?._id]: [None] when it is missing or falsy. *)
Record Request : Type := mkRequest { req_user_id : option string }.

(** A middleware either calls [next()] or sends a response. *)
Inductive Outcome : Type :=
| Next
| Respond (status : Z) (body : value).

Definition unauthorized_body : value :=
  VObj [("success", VBool false);
        ("message", VStr "Not authorized, user not found")].

Definition workout_limit_body : value :=
  VObj [("success", VBool false);
        ("message", VStr "Free subscription limit reached. Please upgrade to premium to generate more workout plans.");
        ("subscriptionRequired", VBool true)].

Definition meal_limit_body : value :=
  VObj [("success", VBool false);
        ("message", VStr "Free subscription limit reached. Please upgrade to premium to generate more meal plans.");
        ("subscriptionRequired", VBool true)].

Definition server_error_body : value :=
  VObj [("success", VBool false);
        ("message", VStr "Server error checking subscription")].

(** The filter of [findOne]:
    [{ user: uid, active: true, endDate: { $gte: now } }]. *)
Definition matches (uid : string) (now : Z) (s : Subscription) : Prop :=
  user s = uid /\ active s = true /\ now <= endDate s.

#[global] Instance matches_dec uid now s : Decision (matches uid now s).
Proof. unfold matches. apply _. Defined.

Section Middleware.

(** The environment: what the [k]-th [new Date()] reads, whether the
    [k]-th store operation throws (and what), and the calendar arithmetic
    of [Date]. *)
Variable exn : Type.
Variable clock : nat -> Z.
Variable fault : nat -> option exn.
Variable getFullYear : Z -> Z.
Variable setFullYear : Z -> Z -> Z.

Abbreviation M := (Eff.M World exn).

(** [new Date()] *)
Definition now : M Z :=
  fun w => (inr (clock (nticks w)),
            mkWorld (subs w) (journal w) (nops w) (S (nticks w))).

(** One awaited store operation: it is journalled, then either throws and
    leaves the collection alone, or runs on the collection. *)
Definition store_op {A} (op : StoreOp)
    (run : list Subscription -> A * list Subscription) : M A :=
  fun w =>
    match fault (nops w) with
    | Some e =>
        (inl e, mkWorld (subs w) (journal w ++ [op]) (S (nops w)) (nticks w))
    | None =>
        let '(a, l) := run (subs w) in
        (inr a, mkWorld l (journal w ++ [op]) (S (nops w)) (nticks w))
    end.

Definition findOne (uid : string) (t : Z) : M (option (nat * Subscription)) :=
  store_op (OpFindOne uid t) (fun l => (list_find (matches uid t) l, l)).

Definition create (s : Subscription) : M (nat * Subscription) :=
  store_op (OpCreate s) (fun l => ((List.length l, s), l ++ [s])).

Definition save (i : nat) (s : Subscription) : M unit :=
  store_op (OpSave i s) (fun l => (tt, <[i := s]> l)).

Definition canGenerateWorkoutPlan (req : Request) : M Outcome :=
  try_catch
    (match req_user_id req with
     | None => mret (Respond 401 unauthorized_body)
     | Some uid =>
         t ← now;
         subscription ← findOne uid t;
         match subscription with
         | None =>
             d ← now;
             let endDate := setFullYear d (getFullYear d + 1) in
             start ← now;
             '(i, newSubscription) ←
               create (mkSubscription uid "FREE" start endDate true 0 0);
             if String.eqb (plan newSubscription) "FREE"
                && (2 <=? workoutPlansGenerated newSubscription)
             then mret (Respond 403 workout_limit_body)
             else
               save i (set_workoutPlansGenerated
                         (workoutPlansGenerated newSubscription + 1)
                         newSubscription);;
               mret Next
         | Some (i, subscription) =>
             if String.eqb (plan subscription) "PREMIUM" then mret Next
             else if String.eqb (plan subscription) "FREE"
                     && (2 <=? workoutPlansGenerated subscription)
             then mret (Respond 403 workout_limit_body)
             else
               save i (set_workoutPlansGenerated
                         (workoutPlansGenerated subscription + 1)
                         subscription);;
               mret Next
         end
     end)
    (fun _ => mret (Respond 500 server_error_body)).

Definition canGenerateMealPlan (req : Request) : M Outcome :=
  try_catch
    (match req_user_id req with
     | None => mret (Respond 401 unauthorized_body)
     | Some uid =>
         t ← now;
         subscription ← findOne uid t;
         match subscription with
         | None =>
             d ← now;
             let endDate := setFullYear d (getFullYear d + 1) in
             start ← now;
             '(i, newSubscription) ←
               create (mkSubscription uid "FREE" start endDate true 0 0);
             if String.eqb (plan newSubscription) "FREE"
                && (2 <=? mealPlansGenerated newSubscription)
             then mret (Respond 403 meal_limit_body)
             else
               save i (set_mealPlansGenerated
                         (mealPlansGenerated newSubscription + 1)
                         newSubscription);;
               mret Next
         | Some (i, subscription) =>
             if String.eqb (plan subscription) "PREMIUM" then mret Next
             else if String.eqb (plan subscription) "FREE"
                     && (2 <=? mealPlansGenerated subscription)
             then mret (Respond 403 meal_limit_body)
             else
               save i (set_mealPlansGenerated
                         (mealPlansGenerated subscription + 1)
                         subscription);;
               mret Next
         end
     end)
    (fun _ => mret (Respond 500 server_error_body)).

(** The time at which a request arriving in world [w] queries the store:
    the first clock reading of the request. *)
Definition query_time (w : World) : Z := clock (nticks w).

(** The record that the lazy-creation branch hands to [Subscription.create]
    for a request arriving in world [w]: [endDate] is computed from the
    second clock reading of the request, [startDate] is the third. *)
Definition fresh_subscription (uid : string) (w : World) : Subscription :=
  let d := clock (S (nticks w)) in
  mkSubscription uid "FREE" (clock (S (S (nticks w))))
                 (setFullYear d (getFullYear d + 1)) true 0 0.

(** The next [k] store operations issued from world [w] do not throw. *)
Definition store_ok (w : World) (k : nat) : Prop :=
  forall j, (j < k)%nat -> fault (nops w + j) = None.

End Middleware.

(** A concrete environment for examples: a clock that advances by one
    millisecond per reading, a store that never throws, and a calendar of
    365-day years. *)
Module Demo.
Definition year_ms : Z := 31536000000.
Definition clock (k : nat) : Z := 1700000000000 + Z.of_nat k.
Definition fault (k : nat) : option unit := None.
Definition getFullYear (t : Z) : Z := t / year_ms.
Definition setFullYear (t y : Z) : Z := y * year_ms + t mod year_ms.
Definition empty : World := mkWorld [] [] 0 0.
Definition alice : Request := mkRequest (Some "alice").
Definition workoutGate := canGenerateWorkoutPlan unit clock fault getFullYear setFullYear.
Definition mealGate := canGenerateMealPlan unit clock fault getFullYear setFullYear.
Definition premium : Subscription :=
  mkSubscription "alice" "PREMIUM" 0 1800000000000 true 7 7.
Definition free (n : Z) : Subscription :=
  mkSubscription "alice" "FREE" 0 1800000000000 true n n.
Definition holding (s : Subscription) : World := mkWorld [s] [] 0 0.
End Demo.

End Gate.

(** ** Plan generation ([workoutPlanGenerator.ts])

    The module is compiled in strict mode, so an assignment to a property of
    a primitive raises.  The payload is a tree, as [JSON.parse] builds it: no
    object sits in two places, so mutating an exercise in place is the same
    as putting the mutated value back where the exercise was. *)

Module Planner.
Import Eff Js.

Record workAttt : Type := mkWorkAttt {
  fitnessLevel : string;
  fitnessGoal : string;
  duration : string;
  daysPerweek : string
}.

(** What a [catch] clause can receive: an [Error] object (a [TypeError]
    included) with its message, or any other thrown value. *)
Inductive exn : Type :=
| ErrorObj (message : string)
| NonError (v : value).

(** The envelope the AI client resolves to.  An absent optional field is
    [VUndef]; [data] is whatever the model's JSON parsed to. *)
Record GeminiResponse : Type := mkGeminiResponse {
  success : bool;
  data : value;
  message : value;
  error : value
}.

(** The object [workoutPlanGenerator] resolves to:
    [{success:false, message, error}] or
    [{success:true, message, data:{workout_plan}}]. *)
Inductive Outcome : Type :=
| Failure (message : value) (error : value)
| Success (message : string) (workout_plan : value).

(** The world is the list of video lookups made so far, each with its
    argument and with what the client answered. *)
Definition Lookup : Type := value * (exn + value).
Definition World : Type := list Lookup.

Definition error_text (e : exn) : value :=
  VStr (match e with
        | ErrorObj m => m
        | NonError _ => "Unknown error occurred"
        end).

Section Generator.

(** The collaborators: the prompt template, the AI client, the video client
    (its answer may depend on how many lookups came before), and the text the
    engine puts in a [TypeError]. *)
Variable workoutPrompt : workAttt -> exn + string.
Variable gemini : string -> exn + GeminiResponse.
Variable video : nat -> value -> exn + value.
Variable engine_message : type_error -> string.

Abbreviation M := (Eff.M World exn).

Definition raise_type_error {A} (r : type_error + A) : M A :=
  match r with
  | inl te => throw (ErrorObj (engine_message te))
  | inr a => mret a
  end.

(** [await getExerciseVideo(name)] *)
Definition getExerciseVideo (name : value) : M value :=
  fun w =>
    let r := video (List.length w) name in
    (r, w ++ [(name, r)]).

(** [data && 'workout_plan' in data] *)
Definition isWorkoutPlan (data : value) : type_error + value :=
  if truthy data then
    match has_in "workout_plan" data with
    | inl te => inl te
    | inr b => inr (VBool b)
    end
  else inr data.

(** The body of a loop [for (const exercise of ...)] over the values
    [items]: each is mutated in place, so the loop leaves the mutated
    values where the originals were. *)
Fixpoint enrich_exercises (items : list value) : M (list value) :=
  match items with
  | [] => mret []
  | exercise :: rest =>
      name ← raise_type_error (get_prop exercise "name");
      url ← getExerciseVideo name;
      exercise' ← raise_type_error (set_prop exercise "gif_url" url);
      rest' ← enrich_exercises rest;
      mret (exercise' :: rest')
  end.

(** [for (const exercise of section.exercises) { ... }], returning [section]
    as the loop leaves it. *)
Definition enrich_section (section : value) : M value :=
  exercises ← raise_type_error (get_prop section "exercises");
  items ← raise_type_error (iterate exercises);
  items' ← enrich_exercises items;
  mret (update_prop section "exercises" (with_items exercises items')).

(** The loop over [Object.keys(workoutPlan.daily_workouts)]; each round reads
    [workoutPlan.daily_workouts[day]] again. *)
Fixpoint enrich_days (days : list string) (workoutPlan : value) : M value :=
  match days with
  | [] => mret workoutPlan
  | day :: rest =>
      daily ← raise_type_error (get_prop workoutPlan "daily_workouts");
      workout ← raise_type_error (get_prop daily day);
      workout' ← enrich_section workout;
      enrich_days rest
        (update_prop workoutPlan "daily_workouts" (update_prop daily day workout'))
  end.

(** [!result.data || !isWorkoutPlan(result.data) || !result.data.workout_plan] *)
Definition invalid_data (d : value) : M bool :=
  if negb (truthy d) then mret true
  else
    guard ← raise_type_error (isWorkoutPlan d);
    if negb (truthy guard) then mret true
    else
      plan ← raise_type_error (get_prop d "workout_plan");
      mret (negb (truthy plan)).

(** The [try] block. *)
Definition generate (a : workAttt) : M Outcome :=
  prompt ← lift (workoutPrompt a);
  result ← lift (gemini prompt);
  if negb (success result) then
    mret (Failure (or_else (message result)
                           (VStr "Failed to generate workout plan"))
                  (error result))
  else
    invalid ← invalid_data (data result);
    if invalid : bool then
      mret (Failure (VStr "Invalid workout plan data received")
                    (VStr "Missing workout plan data"))
    else
      workoutPlan ← raise_type_error (get_prop (data result) "workout_plan");
      daily ← raise_type_error (get_prop workoutPlan "daily_workouts");
      days ← raise_type_error (own_keys daily);
      workoutPlan ← enrich_days days workoutPlan;
      warm_up ← raise_type_error (get_prop workoutPlan "warm_up");
      warm_up' ← enrich_section warm_up;
      let workoutPlan := update_prop workoutPlan "warm_up" warm_up' in
      cool_down ← raise_type_error (get_prop workoutPlan "cool_down");
      cool_down' ← enrich_section cool_down;
      let workoutPlan := update_prop workoutPlan "cool_down" cool_down' in
      mret (Success "Workout plan generated successfully" workoutPlan).

Definition workoutPlanGenerator (a : workAttt) : M Outcome :=
  try_catch (generate a)
    (fun e => mret (Failure (VStr "Failed to generate workout plan")
                            (error_text e))).

End Generator.

(** *** Vocabulary for the properties *)

(** A lookup that returned rather than threw. *)
Definition answered (l : Lookup) : Prop := exists url, snd l = inr url.

(** The exercise's [gif_url] is what a recorded lookup made with the
    exercise's [name] returned. *)
Definition enriched (lookups : World) (exercise : value) : Prop :=
  exists name url,
    get_prop exercise "name" = inr name
    /\ get_prop exercise "gif_url" = inr url
    /\ In (name, inr url) lookups.

(** The section has an [exercises] list and every exercise in it is
    enriched. *)
Definition section_enriched (lookups : World) (section : value) : Prop :=
  exists exercises items,
    get_prop section "exercises" = inr exercises
    /\ iterate exercises = inr items
    /\ Forall (enriched lookups) items.

(** Every day of [daily_workouts], [warm_up] and [cool_down] are enriched
    sections. *)
Definition plan_enriched (lookups : World) (plan : value) : Prop :=
  (exists daily days,
      get_prop plan "daily_workouts" = inr daily
      /\ own_keys daily = inr days
      /\ forall day, In day days ->
           exists workout,
             get_prop daily day = inr workout
             /\ section_enriched lookups workout)
  /\ (exists warm_up,
        get_prop plan "warm_up" = inr warm_up
        /\ section_enriched lookups warm_up)
  /\ (exists cool_down,
        get_prop plan "cool_down" = inr cool_down
        /\ section_enriched lookups cool_down).


(** A computation only appends lookups; all of them were answered when it
    returns, and when it raises either all were answered or the last one
    threw what is raised. *)
Definition tidy {A} (m : Eff.M World exn A) : Prop :=
  forall w r w',
    m w = (r, w') ->
    exists new,
      w' = w ++ new
      /\ match r with
         | inr _ => Forall answered new
         | inl e =>
             Forall answered new
             \/ exists done name,
                 new = done ++ [(name, inl e)] /\ Forall answered done
         end.

(** A concrete environment for examples. *)
Module Demo.

Definition args : workAttt := mkWorkAttt "beginner" "strength" "30" "3".

Definition workoutPrompt (a : workAttt) : exn + string :=
  inr ("Plan for " ++ fitnessLevel a)%string.

Definition video (k : nat) (name : value) : exn + value :=
  match name with
  | VStr n => inr (VStr ("https://videos.example/" ++ n))
  | _ => inl (ErrorObj "no query")
  end.

Definition engine_message (te : type_error) : string :=
  match te with
  | CannotRead k _ => "Cannot read properties (reading '" ++ k ++ "')"
  | CannotSet k _ => "Cannot create property '" ++ k ++ "'"
  | NotIterable _ => "value is not iterable"
  | BadInOperand _ => "Cannot use 'in' operator"
  | CannotConvertToObject _ => "Cannot convert undefined or null to object"
  end%string.

Definition exercise (n : string) : value :=
  VObj [("name", VStr n); ("gif_url", VStr "placeholder")].

Definition section (names : list string) : value :=
  VObj [("exercises", VArr (map exercise names) [])].

Definition full_plan : value :=
  VObj [("daily_workouts",
         VObj [("Monday", section ["squat"; "lunge"]);
               ("Friday", section ["row"])]);
        ("warm_up", section ["jog"]);
        ("cool_down", section ["stretch"])].


(** A plan whose [daily_workouts] is a number. *)
Definition plan_with_numeric_days : value :=
  VObj [("daily_workouts", VNum (5 # 1));
        ("warm_up", section ["jog"]); ("cool_down", section ["stretch"])].

Definition answering (plan : value) (prompt : string) : exn + GeminiResponse :=
  inr (mkGeminiResponse true (VObj [("workout_plan", plan)]) VUndef VUndef).

Definition refusing (prompt : string) : exn + GeminiResponse :=
  inr (mkGeminiResponse false VUndef (VStr "quota exhausted") (VStr "429")).

Definition run (gemini : string -> exn + GeminiResponse) : (exn + Outcome) * World :=
  workoutPlanGenerator workoutPrompt gemini video engine_message args [].

End Demo.

End Planner.

(** ** The admin routes ([routes/admin.ts])

    The handlers as they run once [auth] and [checkRole(['ADMIN'])] have let
    the request through.  A user document is the list of its fields; how the
    store decides that a document matches a filter, how it orders names, the
    password hash, the identifier given to a new document and the wording of
    the schema library's own messages belong to the environment. *)

Module Admin.
Import Eff Js.

Definition Doc : Type := list (string * value).

Inductive StoreOp : Type :=
| OpFind (filter : value)
| OpFindOne (filter : value)
| OpInsert (d : Doc)
| OpSave (i : nat) (d : Doc)
| OpDeleteOne (filter : value).

Record World : Type := mkWorld {
  users : list Doc;
  journal : list StoreOp;
  nops : nat
}.

(** [req.params] holds the one identifier of the route, if it has one. *)
Record Request : Type := mkRequest {
  param : string;
  body : value
}.

Inductive Outcome : Type :=
| Respond (status : Z) (body : value).

(** What a [catch] clause tells apart: [error instanceof z.ZodError], with
    the messages of its issues, or anything else. *)
Inductive exn : Type :=
| ZodError (errors : list string)
| OtherError.

Inductive Route : Type :=
| GetTrainers
| PostTrainers
| PatchTrainer
| DeleteTrainer
| GetUsers
| PatchUserRole
| PatchTrainerInfo.

Definition server_error : Outcome :=
  Respond 500 (VObj [("error", VStr "Server error")]).

Definition not_found (what : string) : Outcome :=
  Respond 404 (VObj [("error", VStr (what ++ " not found"))]).

(** [doc.toObject()] followed by [delete obj.password] *)
Definition without_password (d : Doc) : value :=
  delete_prop (VObj d) "password".

(** A response body shows a password when it is a document with a [password]
    field or a list holding such a document. *)
Definition shows_password (v : value) : bool :=
  match v with
  | VObj props => has_key "password" props
  | VArr elems _ =>
      existsb (fun e => match e with
                        | VObj props => has_key "password" props
                        | _ => false
                        end) elems
  | _ => false
  end.

Fixpoint remove_first (p : Doc -> bool) (l : list Doc) : list Doc :=
  match l with
  | [] => []
  | d :: l' => if p d then l' else d :: remove_first p l'
  end.

Definition roles : list string := ["ADMIN"; "TRAINER"; "USER"].

Section Routes.

Variable matches : value -> Doc -> bool.
Variable name_le : value -> value -> bool.
Variable fault : nat -> bool.
Variable bcrypt_hash : value -> option string.
Variable new_id : nat -> value.
Variable zod_message : list string -> value -> string.

Abbreviation M := (Eff.M World exn).

(** A [TypeError] is not a [ZodError]. *)
Definition raise_type_error {A} (r : type_error + A) : M A :=
  match r with
  | inl _ => throw OtherError
  | inr a => mret a
  end.

Definition store_op {A} (op : StoreOp) (run : list Doc -> A * list Doc) : M A :=
  fun w =>
    if fault (nops w) then
      (inl OtherError, mkWorld (users w) (journal w ++ [op]) (S (nops w)))
    else
      let '(a, l) := run (users w) in
      (inr a, mkWorld l (journal w ++ [op]) (S (nops w))).

Fixpoint insert_by_name (d : Doc) (l : list Doc) : list Doc :=
  match l with
  | [] => [d]
  | x :: l' =>
      if name_le (assoc_or_undef "name" d) (assoc_or_undef "name" x)
      then d :: x :: l'
      else x :: insert_by_name d l'
  end.

Definition sort_by_name (l : list Doc) : list Doc :=
  fold_right insert_by_name [] l.

(** [User.find(filter).select('-password').sort({ name: 1 })] *)
Definition find_select_sort (filter : value) : M (list Doc) :=
  store_op (OpFind filter)
    (fun l => (sort_by_name (map (assoc_del "password")
                                 (List.filter (matches filter) l)), l)).

(** [User.findOne(filter)]; [User.findById(id)] is [findOne({ _id: id })]. *)
Definition findOne (filter : value) : M (option (nat * Doc)) :=
  store_op (OpFindOne filter)
    (fun l => (list_find (fun d => matches filter d = true) l, l)).

(** [doc.save()] on a new document and on one that was read. *)
Definition insert (d : Doc) : M unit :=
  store_op (OpInsert d) (fun l => (tt, l ++ [d])).

Definition save (i : nat) (d : Doc) : M unit :=
  store_op (OpSave i d) (fun l => (tt, <[i := d]> l)).

Definition deleteOne (filter : value) : M unit :=
  store_op (OpDeleteOne filter) (fun l => (tt, remove_first (matches filter) l)).

(** [await bcrypt.hash(password, 10)] *)
Definition hash (password : value) : M string :=
  match bcrypt_hash password with
  | Some h => mret h
  | None => throw OtherError
  end.

(** [updateUserRoleSchema.parse(body)] for
    [z.object({ role: z.enum(['ADMIN', 'TRAINER', 'USER']) })] *)
Definition updateUserRoleSchema_parse (b : value) : exn + string :=
  match b with
  | VObj props =>
      match assoc_or_undef "role" props with
      | VStr r =>
          if existsb (String.eqb r) roles then inr r
          else inl (ZodError [zod_message ["role"] (VStr r)])
      | v => inl (ZodError [zod_message ["role"] v])
      end
  | _ => inl (ZodError [zod_message [] b])
  end.

(** The issues of a [z.string().min(1, message)] field and of the
    [z.number().min(0, message)] field. *)
Definition string_issues (field message : string) (v : value) : list string :=
  match v with
  | VStr s => if String.eqb s "" then [message] else []
  | _ => [zod_message [field] v]
  end.

Definition rate_issues (v : value) : list string :=
  match v with
  | VNum q => if Qle_bool 0 q then [] else ["Hourly rate must be positive"]
  | _ => [zod_message ["hourlyRate"] v]
  end.

(** [updateTrainerInfoSchema.parse(body)]: the validated fields, or every
    issue in the order of the schema's fields. *)
Definition updateTrainerInfoSchema_parse (b : value)
  : exn + (value * value * value) :=
  match b with
  | VObj props =>
      let specialization := assoc_or_undef "specialization" props in
      let hourlyRate := assoc_or_undef "hourlyRate" props in
      let bio := assoc_or_undef "bio" props in
      match string_issues "specialization" "Specialization is required" specialization
            ++ rate_issues hourlyRate
            ++ string_issues "bio" "Bio is required" bio with
      | [] => inr (specialization, hourlyRate, bio)
      | issues => inl (ZodError issues)
      end
  | _ => inl (ZodError [zod_message [] b])
  end.

(** The [catch] clause of the two validating handlers. *)
Definition catch_validation (e : exn) : M Outcome :=
  match e with
  | ZodError (m :: _) => mret (Respond 400 (VObj [("error", VStr m)]))
  | ZodError [] => throw OtherError
  | OtherError => mret server_error
  end.

Definition trainer_filter (id : string) : value :=
  VObj [("_id", VStr id); ("role", VStr "TRAINER")].

Definition getTrainers (req : Request) : M Outcome :=
  try_catch
    (trainers ← find_select_sort (VObj [("role", VStr "TRAINER")]);
     mret (Respond 200 (VArr (map VObj trainers) [])))
    (fun _ => mret server_error).

Definition postTrainers (req : Request) : M Outcome :=
  try_catch
    (name ← raise_type_error (get_prop (body req) "name");
     email ← raise_type_error (get_prop (body req) "email");
     password ← raise_type_error (get_prop (body req) "password");
     specialization ← raise_type_error (get_prop (body req) "specialization");
     hourlyRate ← raise_type_error (get_prop (body req) "hourlyRate");
     bio ← raise_type_error (get_prop (body req) "bio");
     existingUser ← findOne (VObj [("email", email)]);
     match existingUser with
     | Some _ =>
         mret (Respond 400 (VObj [("error", VStr "Email already exists")]))
     | None =>
         hashedPassword ← hash password;
         id ← gets (fun w => new_id (nops w));
         let trainer : Doc :=
           [("_id", id); ("name", name); ("email", email);
            ("password", VStr hashedPassword); ("role", VStr "TRAINER");
            ("specialization", specialization); ("hourlyRate", hourlyRate);
            ("bio", bio); ("isVerified", VBool true)] in
         insert trainer;;
         mret (Respond 201 (without_password trainer))
     end)
    (fun _ => mret server_error).

Definition patchTrainer (req : Request) : M Outcome :=
  try_catch
    (name ← raise_type_error (get_prop (body req) "name");
     specialization ← raise_type_error (get_prop (body req) "specialization");
     hourlyRate ← raise_type_error (get_prop (body req) "hourlyRate");
     bio ← raise_type_error (get_prop (body req) "bio");
     isVerified ← raise_type_error (get_prop (body req) "isVerified");
     found ← findOne (trainer_filter (param req));
     match found with
     | None => mret (not_found "Trainer")
     | Some (i, trainer) =>
         let trainer := if truthy name then assoc_set "name" name trainer
                        else trainer in
         let trainer := if truthy specialization
                        then assoc_set "specialization" specialization trainer
                        else trainer in
         let trainer := if truthy hourlyRate
                        then assoc_set "hourlyRate" hourlyRate trainer
                        else trainer in
         let trainer := if truthy bio then assoc_set "bio" bio trainer
                        else trainer in
         let trainer := match isVerified with
                        | VBool _ => assoc_set "isVerified" isVerified trainer
                        | _ => trainer
                        end in
         save i trainer;;
         mret (Respond 200 (without_password trainer))
     end)
    (fun _ => mret server_error).

Definition deleteTrainer (req : Request) : M Outcome :=
  try_catch
    (found ← findOne (trainer_filter (param req));
     match found with
     | None => mret (not_found "Trainer")
     | Some (i, trainer) =>
         deleteOne (VObj [("_id", assoc_or_undef "_id" trainer)]);;
         mret (Respond 200 (VObj [("message", VStr "Trainer deleted successfully")]))
     end)
    (fun _ => mret server_error).

Definition getUsers (req : Request) : M Outcome :=
  try_catch
    (all ← find_select_sort (VObj []);
     mret (Respond 200 (VArr (map VObj all) [])))
    (fun _ => mret server_error).

Definition patchUserRole (req : Request) : M Outcome :=
  try_catch
    (role ← lift (updateUserRoleSchema_parse (body req));
     found ← findOne (VObj [("_id", VStr (param req))]);
     match found with
     | None => mret (not_found "User")
     | Some (i, user) =>
         let user := assoc_set "role" (VStr role) user in
         save i user;;
         mret (Respond 200 (without_password user))
     end)
    catch_validation.

Definition patchTrainerInfo (req : Request) : M Outcome :=
  try_catch
    ('(specialization, hourlyRate, bio) ←
       lift (updateTrainerInfoSchema_parse (body req));
     found ← findOne (trainer_filter (param req));
     match found with
     | None => mret (not_found "Trainer")
     | Some (i, trainer) =>
         let trainer := assoc_set "specialization" specialization trainer in
         let trainer := assoc_set "hourlyRate" hourlyRate trainer in
         let trainer := assoc_set "bio" bio trainer in
         save i trainer;;
         mret (Respond 200 (without_password trainer))
     end)
    catch_validation.

Definition handle (r : Route) : Request -> M Outcome :=
  match r with
  | GetTrainers => getTrainers
  | PostTrainers => postTrainers
  | PatchTrainer => patchTrainer
  | DeleteTrainer => deleteTrainer
  | GetUsers => getUsers
  | PatchUserRole => patchUserRole
  | PatchTrainerInfo => patchTrainerInfo
  end.

End Routes.

(** *** Vocabulary for the properties *)

(** What a computation returns satisfies [P] and what it raises satisfies
    [Q], from every world. *)
Definition post {A} (m : Eff.M World exn A) (P : A -> Prop) (Q : exn -> Prop)
  : Prop :=
  forall w, match fst (m w) with
            | inr a => P a
            | inl e => Q e
            end.

Definition password_free (o : Outcome) : Prop :=
  match o with
  | Respond _ b => shows_password b = false
  end.

(** A [ZodError] always carries at least one issue. *)
Definition well_formed_error (e : exn) : Prop := e <> ZodError [].

(** A concrete environment for examples. *)
Module Demo.

Definition str_eqb (a b : value) : bool :=
  match a, b with
  | VStr x, VStr y => String.eqb x y
  | _, _ => false
  end.

(** A filter matches when each of its fields is the same string in the
    document. *)
Definition matches (filter : value) (d : Doc) : bool :=
  match filter with
  | VObj conds =>
      forallb (fun c => str_eqb (assoc_or_undef (fst c) d) (snd c)) conds
  | _ => false
  end.

Definition name_le (a b : value) : bool :=
  match a, b with
  | VStr x, VStr y => String.leb x y
  | _, _ => true
  end.

Definition fault (k : nat) : bool := false.

Definition bcrypt_hash (password : value) : option string :=
  match password with
  | VStr p => Some ("$2a$10$" ++ p)%string
  | _ => None
  end.

Definition new_id (k : nat) : value := VStr ("id-" ++ index_key k).

Definition zod_message (path : list string) (received : value) : string :=
  match received with
  | VUndef => "Required"
  | _ => "Invalid input"
  end.

Definition trainer : Doc :=
  [("_id", VStr "t1"); ("name", VStr "Tara"); ("email", VStr "tara@fit.example");
   ("password", VStr "$2a$10$secret"); ("role", VStr "TRAINER");
   ("specialization", VStr "yoga"); ("hourlyRate", VNum (40 # 1));
   ("bio", VStr "Ten years of practice"); ("isVerified", VBool true)].

Definition member : Doc :=
  [("_id", VStr "u1"); ("name", VStr "Uma"); ("email", VStr "uma@fit.example");
   ("password", VStr "$2a$10$hidden"); ("role", VStr "USER")].

Definition world : World := mkWorld [member; trainer] [] 0.

Definition run (r : Route) (req : Request) : (exn + Outcome) * World :=
  handle matches name_le fault bcrypt_hash new_id zod_message r req world.

End Demo.

End Admin.

(** ** Runs of the gate and what they preserve *)

Module GateRuns.
Import Gate.

Inductive Kind : Type := Workout | Meal.

Section Runs.

Variable exn : Type.
Variable clock : nat -> Z.
Variable fault : nat -> option exn.
Variable getFullYear : Z -> Z.
Variable setFullYear : Z -> Z -> Z.

Definition gate (k : Kind) : Request -> Eff.M World exn Outcome :=
  match k with
  | Workout => canGenerateWorkoutPlan exn clock fault getFullYear setFullYear
  | Meal => canGenerateMealPlan exn clock fault getFullYear setFullYear
  end.

(** Requests of the given kinds served one after the other for the same
    user, each starting in the world the previous one left. *)
Fixpoint serve (kinds : list Kind) (req : Request) (w : World)
  : list (exn + Outcome) * World :=
  match kinds with
  | [] => ([], w)
  | k :: rest =>
      let '(o, w1) := gate k req w in
      let '(os, w2) := serve rest req w1 in
      (o :: os, w2)
  end.

(** The world after a request that only looked the record up. *)
Definition looked_up (uid : string) (w : World) : World :=
  mkWorld (subs w) (journal w ++ [OpFindOne uid (query_time clock w)])
          (S (nops w)) (S (nticks w)).

End Runs.



(** Everything but the workout counter is the same, and that counter is the
    same or one higher. *)
Definition workout_step (s s' : Subscription) : Prop :=
  user s' = user s /\ plan s' = plan s
  /\ startDate s' = startDate s /\ endDate s' = endDate s
  /\ active s' = active s
  /\ mealPlansGenerated s' = mealPlansGenerated s
  /\ (workoutPlansGenerated s' = workoutPlansGenerated s
      \/ workoutPlansGenerated s' = workoutPlansGenerated s + 1).

Definition meal_step (s s' : Subscription) : Prop :=
  user s' = user s /\ plan s' = plan s
  /\ startDate s' = startDate s /\ endDate s' = endDate s
  /\ active s' = active s
  /\ workoutPlansGenerated s' = workoutPlansGenerated s
  /\ (mealPlansGenerated s' = mealPlansGenerated s
      \/ mealPlansGenerated s' = mealPlansGenerated s + 1).

(** A record that a gate may have provisioned for [req]. *)
Definition provisioned_for (req : Request) (s : Subscription) : Prop :=
  req_user_id req = Some (user s) /\ plan s = "FREE" /\ active s = true
  /\ 0 <= workoutPlansGenerated s <= 1 /\ 0 <= mealPlansGenerated s <= 1.

(** No FREE record is past its quota of two, for either counter. *)
Definition within_quota (l : list Subscription) : Prop :=
  Forall (fun s => plan s = "FREE" ->
                   workoutPlansGenerated s <= 2 /\ mealPlansGenerated s <= 2) l.

(** Every record of [uid] is inactive or has expired at time [t]. *)
Definition lapsed (uid : string) (t : Z) (l : list Subscription) : Prop :=
  Forall (fun s => user s = uid -> active s = false \/ endDate s < t) l.

End GateRuns.

(** ** Shapes of plans *)

Module PlanShape.
Import Js Planner.

(** [v.k], with [undefined] where reading raises. *)
Definition prop_of (k : string) (v : value) : value :=
  match get_prop v k with
  | inr x => x
  | inl _ => VUndef
  end.

(** The values that [for (const exercise of section.exercises)] visits; none
    when the section has no list to visit. *)
Definition section_items (section : value) : list value :=
  match get_prop section "exercises" with
  | inr exercises =>
      match iterate exercises with
      | inr items => items
      | inl _ => []
      end
  | inl _ => []
  end.

Definition day_keys (plan : value) : list string :=
  match own_keys (prop_of "daily_workouts" plan) with
  | inr days => days
  | inl _ => []
  end.

(** The sections of a plan in the order the generator visits them: the days
    in key order, then [warm_up], then [cool_down]. *)
Definition plan_sections (plan : value) : list value :=
  map (fun day => prop_of day (prop_of "daily_workouts" plan)) (day_keys plan)
  ++ [prop_of "warm_up" plan; prop_of "cool_down" plan].

Definition plan_exercises (plan : value) : list value :=
  concat (map section_items (plan_sections plan)).

(** The section has a list of exercises that can be visited, and each
    exercise is an object (or an array), so that a property can be written on
    it. *)
Definition usable_section (section : value) : Prop :=
  exists exercises items,
    get_prop section "exercises" = inr exercises
    /\ iterate exercises = inr items
    /\ Forall is_object items.

(** [daily_workouts] has keys, and every day, [warm_up] and [cool_down] are
    usable sections. *)
Definition well_shaped (plan : value) : Prop :=
  (exists daily days,
      get_prop plan "daily_workouts" = inr daily
      /\ own_keys daily = inr days
      /\ forall day, In day days ->
           exists workout,
             get_prop daily day = inr workout /\ usable_section workout)
  /\ (exists warm_up,
        get_prop plan "warm_up" = inr warm_up /\ usable_section warm_up)
  /\ (exists cool_down,
        get_prop plan "cool_down" = inr cool_down /\ usable_section cool_down).

(** Nothing but [gif_url] differs between the two exercises. *)
Definition same_but_gif_url (e e' : value) : Prop :=
  forall k, k <> "gif_url" -> get_prop e' k = get_prop e k.

(** Nothing but the [gif_url] of its exercises differs between the two
    sections. *)
Definition same_section (s s' : value) : Prop :=
  (forall k, k <> "exercises" -> get_prop s' k = get_prop s k)
  /\ Forall2 same_but_gif_url (section_items s) (section_items s').

(** The payload of a response is missing, or has no [workout_plan], or has a
    falsy one. *)
Definition no_plan (d : value) : Prop :=
  truthy d = false
  \/ has_in "workout_plan" d = inr false
  \/ (has_in "workout_plan" d = inr true
      /\ exists plan, get_prop d "workout_plan" = inr plan /\ truthy plan = false).

(** The payload of a response is missing, or it is an object (or an array)
    whose [workout_plan] is absent or falsy. *)
Definition missing_plan (d : value) : Prop :=
  truthy d = false
  \/ (is_object d /\ truthy (prop_of "workout_plan" d) = false).

(** Each of the lookups [new], made after those of [w], holds what the video
    client answered when it was made. *)
Definition recorded (video : nat -> value -> exn + value) (w new : World)
  : Prop :=
  forall i name answer,
    new !! i = Some (name, answer) ->
    answer = video (List.length w + i)%nat name.

(** A computation only appends lookups, and records the client's answers. *)
Definition honest (video : nat -> value -> exn + value)
    {A} (m : Eff.M World exn A) : Prop :=
  forall w r w',
    m w = (r, w') -> exists new, w' = w ++ new /\ recorded video w new.

(** What a successful generation did to the plan it was given: the days are
    the same, the sections are the same but for the [gif_url] of their
    exercises, and there was one lookup per exercise visited, in the order of
    the plan, made with the name of that exercise. *)
Definition overwritten (plan plan' : value) (new : World) : Prop :=
  day_keys plan' = day_keys plan
  /\ Forall2 same_section (plan_sections plan) (plan_sections plan')
  /\ map fst new = map (prop_of "name") (plan_exercises plan).

(** The [gif_url] of the i-th exercise of the plan is what the i-th lookup
    answered. *)
Definition carries_answers (plan' : value) (new : World) : Prop :=
  map snd new
  = map (fun e => @inr exn value (prop_of "gif_url" e)) (plan_exercises plan').

(** Video clients for examples: one that answers every lookup, and one whose
    second lookup throws. *)
Definition always_video (k : nat) (name : value) : exn + value :=
  inr (VStr "https://videos.example/clip").

Definition flaky_video (k : nat) (name : value) : exn + value :=
  if (k =? 1)%nat then inl (ErrorObj "rate limited")
  else inr (VStr "https://videos.example/clip").

Definition run_with (video : nat -> value -> exn + value) (plan : value)
  : (exn + Outcome) * World :=
  workoutPlanGenerator Demo.workoutPrompt (Demo.answering plan) video
    Demo.engine_message Demo.args [].

Definition full_response : GeminiResponse :=
  mkGeminiResponse true (VObj [("workout_plan", Demo.full_plan)]) VUndef VUndef.

End PlanShape.

(** ** What the admin routes write *)

Module AdminShape.
Import Eff Js Admin.

(** The fields a route assigns on the document it has read. *)
Definition writable (r : Route) : list string :=
  match r with
  | PatchTrainer => ["name"; "specialization"; "hourlyRate"; "bio"; "isVerified"]
  | PatchUserRole => ["role"]
  | PatchTrainerInfo => ["specialization"; "hourlyRate"; "bio"]
  | _ => []
  end.

(** The routes that neither add nor remove a document. *)
Definition keeps_documents (r : Route) : bool :=
  match r with
  | PostTrainers | DeleteTrainer => false
  | _ => true
  end.

Definition reads_only (r : Route) : bool :=
  match r with
  | GetTrainers | GetUsers => true
  | _ => false
  end.

Definition nonempty_string (v : value) : bool :=
  match v with
  | VStr s => negb (String.eqb s "")
  | _ => false
  end.

Definition nonnegative_number (v : value) : bool :=
  match v with
  | VNum q => Qle_bool 0 q
  | _ => false
  end.

(** What [updateTrainerInfoSchema] (lines 15-19) asks of a body. *)
Definition valid_info (b : value) : bool :=
  match b with
  | VObj props =>
      nonempty_string (assoc_or_undef "specialization" props)
      && nonnegative_number (assoc_or_undef "hourlyRate" props)
      && nonempty_string (assoc_or_undef "bio" props)
  | _ => false
  end.

Definition error_body (m : string) : value := VObj [("error", VStr m)].

Definition by_id (id : value) : value := VObj [("_id", id)].

(** What a run of a handler can do to the collection. *)
Inductive touched (route : Route) (w : World) : Z -> World -> Prop :=
| touched_failed s w' :
    In s [400; 404; 500] -> users w' = users w -> touched route w s w'
| touched_read w' :
    reads_only route = true -> users w' = users w -> touched route w 200 w'
| touched_updated i d d' w' :
    keeps_documents route = true -> reads_only route = false ->
    users w !! i = Some d ->
    (forall k, ~ In k (writable route) -> assoc k d' = assoc k d) ->
    users w' = <[i := d']> (users w) ->
    touched route w 200 w'
| touched_created d w' :
    route = PostTrainers -> users w' = users w ++ [d] ->
    touched route w 201 w'
| touched_deleted p w' :
    route = DeleteTrainer -> users w' = remove_first p (users w) ->
    touched route w 200 w'.

End AdminShape.

(** ** The authentication middleware ([auth.middleware.js])

    [protect] and [admin] over the same user collection as the admin routes.
    Whether a token verifies, and to which payload, belongs to the
    environment, as does the way the store matches a filter. *)

Module Auth.
Import Eff Js.

Record Request : Type := mkRequest {
  authorization : option string;
  req_user : option Admin.Doc
}.

(** [next()] hands over the request as the middleware leaves it. *)
Inductive Outcome : Type :=
| Next (req : Request)
| Respond (status : Z) (body : value).

Definition message (m : string) : value := VObj [("message", VStr m)].

(** [s.split(c)] for a separator of one character *)
Fixpoint split_on (c : ascii) (s : string) : list string :=
  match s with
  | EmptyString => [EmptyString]
  | String a s' =>
      if Ascii.eqb a c then EmptyString :: split_on c s'
      else match split_on c s' with
           | p :: ps => String a p :: ps
           | [] => [String a EmptyString]
           end
  end.

(** The [token] variable of [protect] after the header check: [None] stands
    for [undefined]. *)
Definition bearer_token (header : option string) : option string :=
  match header with
  | Some h =>
      if truthy (VStr h) && String.prefix "Bearer" h
      then split_on " "%char h !! 1%nat
      else None
  | None => None
  end.

Definition strict_equal_string (v : value) (s : string) : bool :=
  match v with
  | VStr x => String.eqb x s
  | _ => false
  end.

Definition no_char (c : ascii) (s : string) : bool :=
  forallb (fun a => negb (Ascii.eqb a c)) (list_ascii_of_string s).

Section Middleware.

Variable matches : value -> Admin.Doc -> bool.
Variable fault : nat -> bool.
Variable jwt_verify : string -> option value.

Abbreviation M := (Eff.M Admin.World Admin.exn).

(** [jwt.verify(token, process.env.JWT_SECRET)] *)
Definition verify (token : string) : M value :=
  match jwt_verify token with
  | Some decoded => mret decoded
  | None => throw Admin.OtherError
  end.

(** [User.findById(id)]: an [undefined] identifier is looked up as [null]. *)
Definition findById (id : value) : M (option (nat * Admin.Doc)) :=
  Admin.findOne matches fault
    (VObj [("_id", match id with VUndef => VNull | _ => id end)]).

Definition protect (req : Request) : M Outcome :=
  try_catch
    (match bearer_token (authorization req) with
     | None =>
         mret (Respond 401 (message "Not authorized, no token provided"))
     | Some token =>
         if negb (truthy (VStr token)) then
           mret (Respond 401 (message "Not authorized, no token provided"))
         else
           decoded ← verify token;
           id ← Admin.raise_type_error (get_prop decoded "id");
           found ← findById id;
           match found with
           | None =>
               mret (Respond 401 (message "Not authorized, user not found"))
           | Some (_, user) =>
               mret (Next (mkRequest (authorization req) (Some user)))
           end
     end)
    (fun _ => mret (Respond 401 (message "Not authorized, invalid token"))).

Definition admin (req : Request) : M Outcome :=
  try_catch
    (match req_user req with
     | None =>
         mret (Respond 401 (message "Not authorized, user not found"))
     | Some me =>
         if negb (truthy (assoc_or_undef "_id" me)) then
           mret (Respond 401 (message "Not authorized, user not found"))
         else
           found ← findById (assoc_or_undef "_id" me);
           match found with
           | Some (_, user) =>
               if strict_equal_string (assoc_or_undef "role" user) "ADMIN"
               then mret (Next req)
               else mret (Respond 403 (message "Not authorized as admin"))
           | None => mret (Respond 403 (message "Not authorized as admin"))
           end
     end)
    (fun _ => mret (Respond 401 (message "Not authorized, user not found"))).

End Middleware.

(** A concrete environment for examples. *)
Module Demo.

(** A token verifies when it names a user: [for-] followed by the identifier. *)
Definition jwt_verify (token : string) : option value :=
  if String.prefix "for-" token
  then Some (VObj [("id", VStr (String.substring 4 (String.length token - 4)%nat token))])
  else None.

Definition boss : Admin.Doc :=
  [("_id", VStr "a1"); ("name", VStr "Ada"); ("email", VStr "ada@fit.example");
   ("password", VStr "$2a$10$root"); ("role", VStr "ADMIN")].

Definition world : Admin.World :=
  Admin.mkWorld [Admin.Demo.member; Admin.Demo.trainer; boss] [] 0.

Definition protect := protect Admin.Demo.matches Admin.Demo.fault jwt_verify.
Definition admin := admin Admin.Demo.matches Admin.Demo.fault.

End Demo.

End Auth.

(* ================================================================== *)
(** * Properties *)
(* ================================================================== *)

(** ** The monad *)

Module EffFacts.
Import Eff.

Ltac eff_unfold :=
  unfold mbind, M_bind, mret, M_ret, Eff.bind, Eff.ret, Eff.try_catch,
         Eff.throw, Eff.gets, Eff.lift in *.

Lemma bind_run {S E A B} (m : M S E A) (k : A -> M S E B) (s : S) :
  (m ≫= k) s = match m s with
               | (inr a, s') => k a s'
               | (inl e, s') => (inl e, s')
               end.
Proof. reflexivity. Qed.

(** A bind that returns went through both halves. *)
Lemma bind_inr_inv {S E A B} (m : M S E A) (k : A -> M S E B) s b s' :
  (m ≫= k) s = (inr b, s') ->
  exists a s1, m s = (inr a, s1) /\ k a s1 = (inr b, s').
Proof.
  rewrite bind_run. destruct (m s) as [[e|a] s1]; [discriminate|]. eauto.
Qed.

(** A caught computation never raises when its handler does not. *)
Lemma try_catch_total {S E A} (m : M S E A) (h : E -> M S E A) s :
  (forall e s1, exists a s2, h e s1 = (inr a, s2)) ->
  exists a s', try_catch m h s = (inr a, s').
Proof.
  intros Hh. unfold try_catch.
  destruct (m s) as [[e|a] s1]; [apply Hh | eauto].
Qed.

End EffFacts.

(** ** JavaScript values *)

Module JsFacts.
Import Js.

#[global] Arguments parse_index : simpl never.
#[global] Arguments index_key : simpl never.

Lemma assoc_set_same k x ps : assoc k (assoc_set k x ps) = Some x.
Proof.
  induction ps as [|[k' v'] ps IH]; cbn.
  - by rewrite String.eqb_refl.
  - destruct (String.eqb k k') eqn:E; cbn; rewrite ?String.eqb_refl, ?E; auto.
Qed.

Lemma assoc_set_other k k' x ps :
  k <> k' -> assoc k' (assoc_set k x ps) = assoc k' ps.
Proof.
  intros Hne. induction ps as [|[k0 v0] ps IH]; cbn.
  - apply String.eqb_neq in Hne. by rewrite String.eqb_sym, Hne.
  - destruct (String.eqb k k0) eqn:E; cbn.
    + apply String.eqb_eq in E. subst k0.
      assert (String.eqb k' k = false) as ->
        by (apply String.eqb_neq; intros ->; contradiction).
      reflexivity.
    + by rewrite IH.
Qed.

Lemma keys_assoc_set k x ps : In k (keys ps) -> keys (assoc_set k x ps) = keys ps.
Proof.
  induction ps as [|[k0 v0] ps IH]; cbn; [tauto|].
  intros Hin. destruct (String.eqb_spec k k0) as [->|Hne]; cbn; [reflexivity|].
  f_equal. apply IH. destruct Hin as [Heq|Hin]; [|exact Hin].
  cbn in Heq. subst k0. contradiction.
Qed.

Lemma assoc_del_same k ps : assoc k (assoc_del k ps) = None.
Proof.
  induction ps as [|[k0 v0] ps IH]; cbn; [reflexivity|].
  destruct (String.eqb k k0) eqn:E; cbn; [exact IH | by rewrite E].
Qed.

Lemma to_uint_nonnil (i : nat) : Nat.to_uint i <> Decimal.Nil.
Proof.
  rewrite <- (Unsigned.of_to i) at 1. rewrite Unsigned.to_of.
  apply DecimalFacts.unorm_nonnil.
Qed.

Lemma parse_index_key (i : nat) : parse_index (index_key i) = Some i.
Proof.
  unfold parse_index, index_key.
  rewrite NilZero.usu by apply to_uint_nonnil.
  by rewrite Unsigned.of_to, String.eqb_refl.
Qed.

Lemma parse_index_Some k i : parse_index k = Some i -> k = index_key i.
Proof.
  unfold parse_index. destruct (NilZero.uint_of_string k); [|discriminate].
  destruct (String.eqb_spec (index_key (Nat.of_uint u)) k); [|discriminate].
  congruence.
Qed.

Lemma set_prop_inr v k x v' :
  set_prop v k x = inr v' -> is_object v /\ v' = update_prop v k x.
Proof. destruct v; cbn; intros [=]; subst; auto. Qed.

Lemma get_update_same v k x :
  is_object v -> get_prop (update_prop v k x) k = inr x.
Proof.
  destruct v as [| | | | |elems props|props]; try (cbn; tauto); intros _.
  - unfold update_prop. destruct (parse_index k) as [i|] eqn:Ek.
    + destruct (Nat.ltb_spec i (List.length elems)) as [Hlt|Hge];
        unfold get_prop; rewrite Ek.
      * rewrite list_lookup_insert_eq by exact Hlt. reflexivity.
      * rewrite lookup_ge_None_2 by exact Hge.
        unfold assoc_or_undef. by rewrite assoc_set_same.
    + unfold get_prop. rewrite Ek. unfold assoc_or_undef. by rewrite assoc_set_same.
  - unfold update_prop, get_prop, assoc_or_undef. by rewrite assoc_set_same.
Qed.

Lemma get_update_other v k k' x :
  k <> k' -> get_prop (update_prop v k x) k' = get_prop v k'.
Proof.
  intros Hne.
  destruct v as [| | | | |elems props|props]; try reflexivity.
  - unfold update_prop. destruct (parse_index k) as [i|] eqn:Ek.
    + destruct (Nat.ltb_spec i (List.length elems)) as [Hlt|Hge];
        unfold get_prop.
      * destruct (parse_index k') as [i'|] eqn:Ek'; [|reflexivity].
        assert (i <> i') as Hi.
        { intros ->. apply parse_index_Some in Ek, Ek'. congruence. }
        rewrite list_lookup_insert_ne by exact Hi.
        reflexivity.
      * unfold assoc_or_undef. by rewrite assoc_set_other.
    + unfold get_prop, assoc_or_undef. by rewrite assoc_set_other.
  - unfold update_prop, get_prop, assoc_or_undef. by rewrite assoc_set_other.
Qed.

Lemma index_keys_parse k n : In k (index_keys n) -> exists j, parse_index k = Some j /\ (j < n)%nat.
Proof.
  unfold index_keys. intros Hin. apply in_map_iff in Hin as (j & Hj & Hin).
  apply in_seq in Hin. subst k. exists j. split; [apply parse_index_key | lia].
Qed.

Lemma own_keys_update v k x ks :
  own_keys v = inr ks -> In k ks -> own_keys (update_prop v k x) = inr ks.
Proof.
  destruct v as [| | | | |elems props|props];
    try (cbn; intros [=]; subst; tauto).
  - unfold own_keys at 1. intros [= <-] Hin. unfold update_prop.
    destruct (parse_index k) as [i|] eqn:Ek.
    + destruct (Nat.ltb_spec i (List.length elems)) as [Hlt|Hge]; unfold own_keys.
      * by rewrite length_insert.
      * apply in_app_or in Hin as [Hin|Hin].
        { apply index_keys_parse in Hin as (j & Hj & Hlt).
          rewrite Ek in Hj. injection Hj as ->. lia. }
        by rewrite keys_assoc_set.
    + unfold own_keys. apply in_app_or in Hin as [Hin|Hin].
      { apply index_keys_parse in Hin as (j & Hj & _). congruence. }
      by rewrite keys_assoc_set.
  - unfold own_keys at 1. intros [= <-] Hin. unfold update_prop, own_keys.
    by rewrite keys_assoc_set.
Qed.

End JsFacts.

(** ** The subscription gate *)

Module GateFacts.
Import Eff EffFacts Js Gate.

Section Facts.

Variable exn : Type.
Variable clock : nat -> Z.
Variable fault : nat -> option exn.
Variable getFullYear : Z -> Z.
Variable setFullYear : Z -> Z -> Z.

Abbreviation workoutGate :=
  (canGenerateWorkoutPlan exn clock fault getFullYear setFullYear).
Abbreviation mealGate :=
  (canGenerateMealPlan exn clock fault getFullYear setFullYear).
Abbreviation query_time := (Gate.query_time clock).
Abbreviation store_ok := (Gate.store_ok exn fault).
Abbreviation fresh_subscription :=
  (Gate.fresh_subscription clock getFullYear setFullYear).

Lemma workout_found w uid i s :
  fault (nops w) = None ->
  list_find (matches uid (query_time w)) (subs w) = Some (i, s) ->
  workoutGate (mkRequest (Some uid)) w =
    let w1 := mkWorld (subs w) (journal w ++ [OpFindOne uid (query_time w)])
                      (S (nops w)) (S (nticks w)) in
    if String.eqb (plan s) "PREMIUM" then (inr Next, w1)
    else if String.eqb (plan s) "FREE" && (2 <=? workoutPlansGenerated s)
    then (inr (Respond 403 workout_limit_body), w1)
    else
      let s' := set_workoutPlansGenerated (workoutPlansGenerated s + 1) s in
      let j := journal w1 ++ [OpSave i s'] in
      match fault (S (nops w)) with
      | Some _ => (inr (Respond 500 server_error_body),
                   mkWorld (subs w) j (S (S (nops w))) (S (nticks w)))
      | None => (inr Next,
                 mkWorld (<[i := s']> (subs w)) j (S (S (nops w))) (S (nticks w)))
      end.
Proof.
  intros Hf Hfind.
  unfold canGenerateWorkoutPlan, findOne, save, store_op, now,
         Gate.query_time in *.
  eff_unfold. cbn. rewrite Hf. cbn. rewrite Hfind. cbn.
  destruct (String.eqb (plan s) "PREMIUM"); [reflexivity|].
  destruct (String.eqb (plan s) "FREE" && (2 <=? workoutPlansGenerated s));
    [reflexivity|].
  cbn. destruct (fault (S (nops w))); reflexivity.
Qed.

Lemma meal_found w uid i s :
  fault (nops w) = None ->
  list_find (matches uid (query_time w)) (subs w) = Some (i, s) ->
  mealGate (mkRequest (Some uid)) w =
    let w1 := mkWorld (subs w) (journal w ++ [OpFindOne uid (query_time w)])
                      (S (nops w)) (S (nticks w)) in
    if String.eqb (plan s) "PREMIUM" then (inr Next, w1)
    else if String.eqb (plan s) "FREE" && (2 <=? mealPlansGenerated s)
    then (inr (Respond 403 meal_limit_body), w1)
    else
      let s' := set_mealPlansGenerated (mealPlansGenerated s + 1) s in
      let j := journal w1 ++ [OpSave i s'] in
      match fault (S (nops w)) with
      | Some _ => (inr (Respond 500 server_error_body),
                   mkWorld (subs w) j (S (S (nops w))) (S (nticks w)))
      | None => (inr Next,
                 mkWorld (<[i := s']> (subs w)) j (S (S (nops w))) (S (nticks w)))
      end.
Proof.
  intros Hf Hfind.
  unfold canGenerateMealPlan, findOne, save, store_op, now,
         Gate.query_time in *.
  eff_unfold. cbn. rewrite Hf. cbn. rewrite Hfind. cbn.
  destruct (String.eqb (plan s) "PREMIUM"); [reflexivity|].
  destruct (String.eqb (plan s) "FREE" && (2 <=? mealPlansGenerated s));
    [reflexivity|].
  cbn. destruct (fault (S (nops w))); reflexivity.
Qed.

Lemma insert_last {A} (l : list A) (x y : A) :
  <[List.length l := x]> (l ++ [y]) = l ++ [x].
Proof. induction l as [|a l IH]; [reflexivity|]. cbn. f_equal. exact IH. Qed.

(** What the lazy-creation branch does, for every behaviour of the store
    after the lookup. *)
Lemma workout_lazy w uid :
  fault (nops w) = None ->
  list_find (matches uid (query_time w)) (subs w) = None ->
  workoutGate (mkRequest (Some uid)) w =
    let new := fresh_subscription uid w in
    let new' := set_workoutPlansGenerated 1 new in
    let find := OpFindOne uid (query_time w) in
    let n := List.length (subs w) in
    match fault (S (nops w)) with
    | Some _ =>
        (inr (Respond 500 server_error_body),
         mkWorld (subs w) (journal w ++ [find; OpCreate new])
                 (S (S (nops w))) (S (S (S (nticks w)))))
    | None =>
        let j := journal w ++ [find; OpCreate new; OpSave n new'] in
        match fault (S (S (nops w))) with
        | Some _ =>
            (inr (Respond 500 server_error_body),
             mkWorld (subs w ++ [new]) j
                     (S (S (S (nops w)))) (S (S (S (nticks w)))))
        | None =>
            (inr Next,
             mkWorld (subs w ++ [new']) j
                     (S (S (S (nops w)))) (S (S (S (nticks w)))))
        end
    end.
Proof.
  intros Hf Hfind.
  unfold canGenerateWorkoutPlan, findOne, create, save, store_op, now,
         Gate.query_time, Gate.fresh_subscription in *.
  eff_unfold. cbn. rewrite Hf. cbn. rewrite Hfind. cbn.
  destruct (fault (S (nops w))); cbn.
  - by rewrite <- app_assoc.
  - destruct (fault (S (S (nops w)))); cbn;
      rewrite <- !app_assoc; cbn; [reflexivity|].
    by rewrite insert_last.
Qed.

Lemma meal_lazy w uid :
  fault (nops w) = None ->
  list_find (matches uid (query_time w)) (subs w) = None ->
  mealGate (mkRequest (Some uid)) w =
    let new := fresh_subscription uid w in
    let new' := set_mealPlansGenerated 1 new in
    let find := OpFindOne uid (query_time w) in
    let n := List.length (subs w) in
    match fault (S (nops w)) with
    | Some _ =>
        (inr (Respond 500 server_error_body),
         mkWorld (subs w) (journal w ++ [find; OpCreate new])
                 (S (S (nops w))) (S (S (S (nticks w)))))
    | None =>
        let j := journal w ++ [find; OpCreate new; OpSave n new'] in
        match fault (S (S (nops w))) with
        | Some _ =>
            (inr (Respond 500 server_error_body),
             mkWorld (subs w ++ [new]) j
                     (S (S (S (nops w)))) (S (S (S (nticks w)))))
        | None =>
            (inr Next,
             mkWorld (subs w ++ [new']) j
                     (S (S (S (nops w)))) (S (S (S (nticks w)))))
        end
    end.
Proof.
  intros Hf Hfind.
  unfold canGenerateMealPlan, findOne, create, save, store_op, now,
         Gate.query_time, Gate.fresh_subscription in *.
  eff_unfold. cbn. rewrite Hf. cbn. rewrite Hfind. cbn.
  destruct (fault (S (nops w))); cbn.
  - by rewrite <- app_assoc.
  - destruct (fault (S (S (nops w)))); cbn;
      rewrite <- !app_assoc; cbn; [reflexivity|].
    by rewrite insert_last.
Qed.

Lemma store_ok_0 w k : store_ok w (S k) -> fault (nops w) = None.
Proof. intros H. rewrite <- (Nat.add_0_r (nops w)). apply H. lia. Qed.

Lemma store_ok_1 w k : store_ok w (S (S k)) -> fault (S (nops w)) = None.
Proof. intros H. replace (S (nops w)) with (nops w + 1)%nat by lia. apply H. lia. Qed.

(** C6: when the subscription that the lookup returns has plan PREMIUM,
    the workout gate and the meal gate both call [next()], the collection
    is left exactly as it was (so neither counter moves), and the only
    store operation issued is the lookup. *)
Theorem premium_allowed_record_untouched w uid i s :
  store_ok w 1 ->
  list_find (matches uid (query_time w)) (subs w) = Some (i, s) ->
  plan s = "PREMIUM" ->
  (exists w', workoutGate (mkRequest (Some uid)) w = (inr Next, w')
              /\ subs w' = subs w
              /\ subs w' !! i = Some s
              /\ journal w' = journal w ++ [OpFindOne uid (query_time w)])
  /\ (exists w', mealGate (mkRequest (Some uid)) w = (inr Next, w')
              /\ subs w' = subs w
              /\ subs w' !! i = Some s
              /\ journal w' = journal w ++ [OpFindOne uid (query_time w)]).
Proof.
  intros Hok Hfind Hplan.
  pose proof (store_ok_0 _ _ Hok) as Hf.
  pose proof (proj1 (proj1 (list_find_Some _ _ _ _) Hfind)) as Hi.
  split.
  - rewrite (workout_found _ _ _ _ Hf Hfind), Hplan. cbn. eauto 10.
  - rewrite (meal_found _ _ _ _ Hf Hfind), Hplan. cbn. eauto 10.
Qed.

(** C9: in the lazy-creation branch (the lookup found nothing), the quota
    test on the freshly created record is false for both counters, so
    neither gate ever answers 403 there, whatever the store does next;
    and when creation and saving succeed the request is allowed and the
    record is saved with the relevant counter exactly 1. *)
Theorem lazy_creation_never_rejects w uid :
  fault (nops w) = None ->
  list_find (matches uid (query_time w)) (subs w) = None ->
  let new := fresh_subscription uid w in
  let req := mkRequest (Some uid) in
  String.eqb (plan new) "FREE" && (2 <=? workoutPlansGenerated new) = false
  /\ String.eqb (plan new) "FREE" && (2 <=? mealPlansGenerated new) = false
  /\ (forall body, fst (workoutGate req w) <> inr (Respond 403 body))
  /\ (forall body, fst (mealGate req w) <> inr (Respond 403 body))
  /\ (fault (S (nops w)) = None -> fault (S (S (nops w))) = None ->
      (exists w', workoutGate req w = (inr Next, w')
         /\ subs w' = subs w ++ [set_workoutPlansGenerated 1 new]
         /\ journal w' = journal w ++
               [OpFindOne uid (query_time w); OpCreate new;
                OpSave (List.length (subs w)) (set_workoutPlansGenerated 1 new)])
      /\ (exists w', mealGate req w = (inr Next, w')
         /\ subs w' = subs w ++ [set_mealPlansGenerated 1 new]
         /\ journal w' = journal w ++
               [OpFindOne uid (query_time w); OpCreate new;
                OpSave (List.length (subs w)) (set_mealPlansGenerated 1 new)])).
Proof.
  intros Hf Hfind new req. subst req.
  rewrite (workout_lazy _ _ Hf Hfind), (meal_lazy _ _ Hf Hfind).
  split; [reflexivity|]. split; [reflexivity|].
  split; [|split].
  - intros body. cbn.
    destruct (fault (S (nops w))); [|destruct (fault (S (S (nops w))))];
      cbn; discriminate.
  - intros body. cbn.
    destruct (fault (S (nops w))); [|destruct (fault (S (S (nops w))))];
      cbn; discriminate.
  - intros -> ->. cbn. eauto 10.
Qed.

(** C5: for an authenticated user for whom the lookup (active, not yet
    expired) finds nothing, each gate issues exactly one
    [Subscription.create], directly after the lookup and before the save
    that records the quota decision; the record created has plan FREE,
    [active] true, [startDate] the clock reading taken while it is built,
    [endDate] the preceding reading moved one calendar year ahead, and
    both counters 0; the collection grows by exactly that one document. *)
Theorem lazy_creation_provisions_free w uid :
  store_ok w 2 ->
  list_find (matches uid (query_time w)) (subs w) = None ->
  let new := fresh_subscription uid w in
  let d := clock (S (nticks w)) in
  let req := mkRequest (Some uid) in
  (user new = uid /\ plan new = "FREE" /\ active new = true
   /\ startDate new = clock (S (S (nticks w)))
   /\ endDate new = setFullYear d (getFullYear d + 1)
   /\ workoutPlansGenerated new = 0 /\ mealPlansGenerated new = 0)
  /\ (exists o w' saved stored,
        workoutGate req w = (inr o, w')
        /\ journal w' = journal w ++
              [OpFindOne uid (query_time w); OpCreate new;
               OpSave (List.length (subs w)) saved]
        /\ subs w' = subs w ++ [stored]
        /\ (stored = new \/ stored = set_workoutPlansGenerated 1 new))
  /\ (exists o w' saved stored,
        mealGate req w = (inr o, w')
        /\ journal w' = journal w ++
              [OpFindOne uid (query_time w); OpCreate new;
               OpSave (List.length (subs w)) saved]
        /\ subs w' = subs w ++ [stored]
        /\ (stored = new \/ stored = set_mealPlansGenerated 1 new)).
Proof.
  intros Hok Hfind new d req. subst req.
  pose proof (store_ok_0 _ _ Hok) as Hf.
  pose proof (store_ok_1 _ _ Hok) as Hc.
  rewrite (workout_lazy _ _ Hf Hfind), (meal_lazy _ _ Hf Hfind), Hc.
  split; [repeat split|].
  split; cbn; destruct (fault (S (S (nops w)))); eauto 12.
Qed.

Lemma find_last (uid : string) (t : Z) (l : list Subscription) (x : Subscription) :
  Forall (fun s => user s <> uid) l ->
  matches uid t x ->
  list_find (matches uid t) (l ++ [x]) = Some (List.length l, x).
Proof.
  intros Hnone Hx. apply list_find_Some. split; [|split].
  - rewrite lookup_app_r by reflexivity.
    by rewrite Nat.sub_diag.
  - exact Hx.
  - intros j y Hj Hlt [Hu _].
    rewrite lookup_app_l in Hj by exact Hlt.
    rewrite Forall_lookup in Hnone. exact (Hnone _ _ Hj Hu).
Qed.

Lemma find_nobody (uid : string) (t : Z) (l : list Subscription) :
  Forall (fun s => user s <> uid) l ->
  list_find (matches uid t) l = None.
Proof.
  intros Hnone. apply list_find_None.
  induction Hnone as [|s l Hs _ IH]; constructor; [|exact IH].
  intros [Hu _]. exact (Hs Hu).
Qed.

(** C1: when the subscription that the lookup returns has plan FREE, the
    workout gate calls [next()] and stores the record with
    [workoutPlansGenerated] one higher if the counter was below 2, and
    answers 403 with [{success:false, message, subscriptionRequired:true}]
    and no write if it was 2 or more.  Hence, for a user who has no
    subscription at all, three requests made while the record created by
    the first is unexpired give: allowed with counter 1, allowed with
    counter 2, rejected with the counter still 2. *)
Theorem free_workout_quota_is_two :
  (forall w uid i s,
      fault (nops w) = None ->
      list_find (matches uid (query_time w)) (subs w) = Some (i, s) ->
      plan s = "FREE" ->
      (workoutPlansGenerated s < 2 -> fault (S (nops w)) = None ->
       exists w',
         workoutGate (mkRequest (Some uid)) w = (inr Next, w')
         /\ subs w' = <[i := set_workoutPlansGenerated
                              (workoutPlansGenerated s + 1) s]> (subs w)
         /\ (workoutPlansGenerated <$> subs w' !! i)
            = Some (workoutPlansGenerated s + 1))
      /\ (2 <= workoutPlansGenerated s ->
          exists w',
            workoutGate (mkRequest (Some uid)) w
            = (inr (Respond 403 workout_limit_body), w')
            /\ subs w' = subs w))
  /\ (exists message,
        workout_limit_body =
          VObj [("success", VBool false); ("message", VStr message);
                ("subscriptionRequired", VBool true)])
  /\ (forall w uid,
        Forall (fun s => user s <> uid) (subs w) ->
        store_ok w 6 ->
        let new := fresh_subscription uid w in
        let req := mkRequest (Some uid) in
        clock (nticks w + 3) <= endDate new ->
        clock (nticks w + 4) <= endDate new ->
        exists w1 w2 w3,
          workoutGate req w = (inr Next, w1)
          /\ subs w1 = subs w ++ [set_workoutPlansGenerated 1 new]
          /\ workoutGate req w1 = (inr Next, w2)
          /\ subs w2 = subs w ++ [set_workoutPlansGenerated 2 new]
          /\ workoutGate req w2 = (inr (Respond 403 workout_limit_body), w3)
          /\ subs w3 = subs w2).
Proof.
  split; [|split].
  - intros w uid i s Hf Hfind Hplan.
    pose proof (proj1 (proj1 (list_find_Some _ _ _ _) Hfind)) as Hi.
    rewrite (workout_found _ _ _ _ Hf Hfind), Hplan. cbn.
    split.
    + intros Hlt Hs. rewrite Hs.
      destruct (Z.leb_spec 2 (workoutPlansGenerated s)); [lia|].
      eexists. split; [reflexivity|]. cbn. split; [reflexivity|].
      rewrite list_lookup_insert_eq by (eapply lookup_lt_Some; exact Hi).
      reflexivity.
    + intros Hge.
      destruct (Z.leb_spec 2 (workoutPlansGenerated s)); [|lia].
      eauto.
  - eexists. reflexivity.
  - intros w uid Hnone Hok new req H2 H3. subst req.
    assert (Hf : forall j, (j < 6)%nat -> fault (nops w + j) = None)
      by (intros j Hj; apply Hok; exact Hj).
    pose proof (Hf 0%nat ltac:(lia)) as F0. rewrite Nat.add_0_r in F0.
    pose proof (Hf 1%nat ltac:(lia)) as F1.
    pose proof (Hf 2%nat ltac:(lia)) as F2.
    pose proof (Hf 3%nat ltac:(lia)) as F3.
    pose proof (Hf 4%nat ltac:(lia)) as F4.
    pose proof (Hf 5%nat ltac:(lia)) as F5.
    replace (nops w + 1)%nat with (S (nops w)) in F1 by lia.
    replace (nops w + 2)%nat with (S (S (nops w))) in F2 by lia.
    replace (nops w + 3)%nat with (S (S (S (nops w)))) in F3 by lia.
    replace (nops w + 4)%nat with (S (S (S (S (nops w))))) in F4 by lia.
    replace (nops w + 5)%nat with (S (S (S (S (S (nops w)))))) in F5 by lia.
    replace (nticks w + 3)%nat with (S (S (S (nticks w)))) in H2 by lia.
    replace (nticks w + 4)%nat with (S (S (S (S (nticks w))))) in H3 by lia.
    rewrite (workout_lazy _ _ F0 (find_nobody _ _ _ Hnone)), F1, F2. cbn.
    eexists _, _, _. split; [reflexivity|]. cbn. split; [reflexivity|].
    fold new.
    rewrite (workout_found _ uid (List.length (subs w))
               (set_workoutPlansGenerated 1 new));
      [ | exact F3 | apply find_last; [exact Hnone | repeat split; exact H2] ].
    cbn. rewrite F4. cbn. split; [reflexivity|].
    rewrite insert_last. split; [reflexivity|].
    rewrite (workout_found _ uid (List.length (subs w))
               (set_workoutPlansGenerated 2 new));
      [ | exact F5 | apply find_last; [exact Hnone | repeat split; exact H3] ].
    cbn. split; reflexivity.
Qed.

End Facts.

(** *** The theorems at a concrete environment *)

Lemma premium_allowed_record_untouched_witness :
  (exists w', Demo.workoutGate Demo.alice (Demo.holding Demo.premium) = (inr Next, w')
              /\ subs w' = [Demo.premium])
  /\ (exists w', Demo.mealGate Demo.alice (Demo.holding Demo.premium) = (inr Next, w')
              /\ subs w' = [Demo.premium]).
Proof.
  destruct (premium_allowed_record_untouched unit Demo.clock Demo.fault
              Demo.getFullYear Demo.setFullYear
              (Demo.holding Demo.premium) "alice" 0%nat Demo.premium)
    as [[w1 (E1 & S1 & _)] [w2 (E2 & S2 & _)]].
  - intros j _. reflexivity.
  - vm_compute. reflexivity.
  - reflexivity.
  - split; [exists w1 | exists w2]; split; assumption.
Defined.

Lemma lazy_creation_never_rejects_witness :
  (forall body, fst (Demo.workoutGate Demo.alice Demo.empty) <> inr (Respond 403 body))
  /\ (exists w', Demo.workoutGate Demo.alice Demo.empty = (inr Next, w')
              /\ (workoutPlansGenerated <$> subs w') = [1])
  /\ (exists w', Demo.mealGate Demo.alice Demo.empty = (inr Next, w')
              /\ (mealPlansGenerated <$> subs w') = [1]).
Proof.
  destruct (lazy_creation_never_rejects unit Demo.clock Demo.fault
              Demo.getFullYear Demo.setFullYear Demo.empty "alice")
    as (_ & _ & Hw & _ & Hok).
  - reflexivity.
  - vm_compute. reflexivity.
  - destruct Hok as [[w1 (E1 & S1 & _)] [w2 (E2 & S2 & _)]];
      [reflexivity | reflexivity |].
    split; [exact Hw|].
    split; [exists w1 | exists w2]; (split; [assumption|]).
    + rewrite S1. reflexivity.
    + rewrite S2. reflexivity.
Defined.

Lemma lazy_creation_provisions_free_witness :
  exists o w' stored,
    Demo.workoutGate Demo.alice Demo.empty = (inr o, w')
    /\ subs w' = [stored]
    /\ nth_error (journal w') 1
       = Some (OpCreate (mkSubscription "alice" "FREE" 1700000000002
                                        1731536000001 true 0 0)).
Proof.
  destruct (lazy_creation_provisions_free unit Demo.clock Demo.fault
              Demo.getFullYear Demo.setFullYear Demo.empty "alice")
    as (_ & (o & w' & saved & stored & E & J & S & _) & _).
  - intros j _. reflexivity.
  - vm_compute. reflexivity.
  - exists o, w', stored. split; [exact E|]. split; [exact S|].
    rewrite J. vm_compute. reflexivity.
Defined.

Lemma free_workout_quota_is_two_witness :
  (exists w', Demo.workoutGate Demo.alice (Demo.holding (Demo.free 1)) = (inr Next, w')
              /\ (workoutPlansGenerated <$> subs w') = [2])
  /\ (exists w', Demo.workoutGate Demo.alice (Demo.holding (Demo.free 2))
                = (inr (Respond 403 workout_limit_body), w')
              /\ subs w' = [Demo.free 2])
  /\ (exists w1 w2 w3,
        Demo.workoutGate Demo.alice Demo.empty = (inr Next, w1)
        /\ (workoutPlansGenerated <$> subs w1) = [1]
        /\ Demo.workoutGate Demo.alice w1 = (inr Next, w2)
        /\ (workoutPlansGenerated <$> subs w2) = [2]
        /\ Demo.workoutGate Demo.alice w2
           = (inr (Respond 403 workout_limit_body), w3)
        /\ (workoutPlansGenerated <$> subs w3) = [2]).
Proof.
  destruct (free_workout_quota_is_two unit Demo.clock Demo.fault
              Demo.getFullYear Demo.setFullYear) as (Rule & _ & Scenario).
  split; [|split].
  - destruct (Rule (Demo.holding (Demo.free 1)) "alice" 0%nat (Demo.free 1))
      as [Hlt _]; [reflexivity | vm_compute; reflexivity | reflexivity |].
    destruct Hlt as (w' & E & S & _); [cbn; lia | reflexivity |].
    exists w'. split; [exact E|]. rewrite S. reflexivity.
  - destruct (Rule (Demo.holding (Demo.free 2)) "alice" 0%nat (Demo.free 2))
      as [_ Hge]; [reflexivity | vm_compute; reflexivity | reflexivity |].
    destruct Hge as (w' & E & S); [vm_compute; discriminate |].
    exists w'. split; [exact E | exact S].
  - destruct (Scenario Demo.empty "alice")
      as (w1 & w2 & w3 & E1 & S1 & E2 & S2 & E3 & S3).
    + constructor.
    + intros j _. reflexivity.
    + vm_compute. discriminate.
    + vm_compute. discriminate.
    + exists w1, w2, w3.
      rewrite S3, S2, S1. repeat split; assumption.
Defined.

End GateFacts.

(** ** Plan generation *)

Module PlannerFacts.
Import Eff EffFacts Js JsFacts Planner.

Lemma chars_are_strings s i x : chars s !! i = Some x -> exists c, x = VStr c.
Proof.
  revert i. induction s as [|c s IH]; intros [|i]; cbn; try discriminate.
  - intros [= <-]. eauto.
  - apply IH.
Qed.

(** Reading a property never produces an object out of a primitive. *)
Lemma get_prop_object v k x : get_prop v k = inr x -> is_object x -> is_object v.
Proof.
  destruct v as [| | | |s| |]; cbn; try discriminate; try (intros [= <-]; tauto);
    try tauto.
  intros [= <-]. destruct (parse_index k) as [i|]; [|tauto].
  destruct (chars s !! i) as [y|] eqn:E; [|tauto].
  apply chars_are_strings in E as [c ->]. tauto.
Qed.

Lemma enriched_mono l1 l2 e : enriched l2 e -> enriched (l1 ++ l2) e.
Proof.
  intros (n & u & Hn & Hu & Hin). exists n, u.
  repeat split; try assumption. apply in_or_app. by right.
Qed.

Lemma enriched_mono_r l1 l2 e : enriched l1 e -> enriched (l1 ++ l2) e.
Proof.
  intros (n & u & Hn & Hu & Hin). exists n, u.
  repeat split; try assumption. apply in_or_app. by left.
Qed.

Lemma section_enriched_mono l1 l2 s : section_enriched l2 s -> section_enriched (l1 ++ l2) s.
Proof.
  intros (exs & items & He & Hi & Hall). exists exs, items.
  split; [exact He|]. split; [exact Hi|].
  eapply Forall_impl; [|exact Hall]. intros x Hx. by apply enriched_mono.
Qed.

Lemma section_enriched_mono_r l1 l2 s : section_enriched l1 s -> section_enriched (l1 ++ l2) s.
Proof.
  intros (exs & items & He & Hi & Hall). exists exs, items.
  split; [exact He|]. split; [exact Hi|].
  eapply Forall_impl; [|exact Hall]. intros x Hx. by apply enriched_mono_r.
Qed.

Section Facts.

Variable workoutPrompt : workAttt -> exn + string.
Variable gemini : string -> exn + GeminiResponse.
Variable video : nat -> value -> exn + value.
Variable engine_message : type_error -> string.

Abbreviation raise_type_error := (Planner.raise_type_error engine_message).
Abbreviation getExerciseVideo := (Planner.getExerciseVideo video).
Abbreviation enrich_exercises := (Planner.enrich_exercises video engine_message).
Abbreviation enrich_section := (Planner.enrich_section video engine_message).
Abbreviation enrich_days := (Planner.enrich_days video engine_message).
Abbreviation invalid_data := (Planner.invalid_data engine_message).
Abbreviation generate :=
  (Planner.generate workoutPrompt gemini video engine_message).
Abbreviation workoutPlanGenerator :=
  (Planner.workoutPlanGenerator workoutPrompt gemini video engine_message).

Lemma raise_inr {A} (r : type_error + A) w a w' :
  raise_type_error r w = (inr a, w') -> r = inr a /\ w' = w.
Proof. destruct r; cbn; intros [=]; subst; auto. Qed.

Lemma raise_ok {A} (a : A) w : raise_type_error (inr a) w = (inr a, w).
Proof. reflexivity. Qed.


Lemma video_inr name w url w' :
  getExerciseVideo name w = (inr url, w') -> w' = w ++ [(name, inr url)].
Proof. unfold Planner.getExerciseVideo. intros [= E <-]. by rewrite E. Qed.

(** A successful pass over a list of exercises leaves every one enriched by
    a lookup made during the pass. *)
Lemma enrich_exercises_ok items : forall w items' w',
  enrich_exercises items w = (inr items', w') ->
  exists new, w' = w ++ new /\ Forall (enriched new) items'.
Proof.
  induction items as [|e rest IH]; intros w items' w' Hrun.
  - injection Hrun as <- <-. exists []. by rewrite app_nil_r.
  - cbn [Planner.enrich_exercises] in Hrun.
    apply bind_inr_inv in Hrun as (name & w1 & Hname & Hrun).
    apply raise_inr in Hname as [Hname ->].
    apply bind_inr_inv in Hrun as (url & w2 & Hurl & Hrun).
    apply video_inr in Hurl as ->.
    apply bind_inr_inv in Hrun as (e' & w3 & Hset & Hrun).
    apply raise_inr in Hset as [Hset ->].
    apply set_prop_inr in Hset as [Hobj ->].
    apply bind_inr_inv in Hrun as (rest' & w4 & Hrest & Hrun).
    injection Hrun as <- <-.
    apply IH in Hrest as (new & -> & Hall).
    exists ((name, inr url) :: new). split; [by rewrite <- app_assoc|].
    constructor.
    + exists name, url. split; [|split].
      * rewrite get_update_other by discriminate. exact Hname.
      * apply get_update_same, Hobj.
      * by left.
    + eapply Forall_impl; [|exact Hall]. intros x Hx.
      by apply (enriched_mono [(name, inr url)]).
Qed.

(** A pass over the characters of a string can only succeed on the empty
    string: writing [gif_url] on a character raises. *)
Lemma enrich_exercises_chars s w items' w' :
  enrich_exercises (chars s) w = (inr items', w') -> chars s = [] /\ items' = [].
Proof.
  destruct s as [|c s]; cbn [chars Planner.enrich_exercises].
  - intros [= <- <-]. auto.
  - intros Hrun. exfalso.
    apply bind_inr_inv in Hrun as (name & w1 & _ & Hrun).
    apply bind_inr_inv in Hrun as (url & w2 & _ & Hrun).
    apply bind_inr_inv in Hrun as (e' & w3 & Hset & _).
    discriminate Hset.
Qed.

Lemma iterate_with_items exercises items w items' w' :
  iterate exercises = inr items ->
  enrich_exercises items w = (inr items', w') ->
  iterate (with_items exercises items') = inr items'.
Proof.
  destruct exercises as [| | | |s|elems props|]; cbn; try discriminate.
  - intros [= <-] Hrun. apply enrich_exercises_chars in Hrun as [-> ->].
    reflexivity.
  - reflexivity.
Qed.

(** Only an object or an array has an [exercises] that can be iterated. *)
Lemma has_exercises_object section exercises items :
  get_prop section "exercises" = inr exercises ->
  iterate exercises = inr items ->
  is_object section.
Proof.
  destruct section as [| | | |s| |]; cbn; try discriminate; try tauto;
    intros [= <-]; discriminate.
Qed.

Lemma enrich_section_ok section w section' w' :
  enrich_section section w = (inr section', w') ->
  exists new,
    w' = w ++ new
    /\ is_object section
    /\ section_enriched new section'
    /\ (forall k, k <> "exercises" -> get_prop section' k = get_prop section k).
Proof.
  unfold Planner.enrich_section. intros Hrun.
  apply bind_inr_inv in Hrun as (exs & w1 & Hexs & Hrun).
  apply raise_inr in Hexs as [Hexs ->].
  apply bind_inr_inv in Hrun as (items & w2 & Hit & Hrun).
  apply raise_inr in Hit as [Hit ->].
  apply bind_inr_inv in Hrun as (items' & w3 & Hitems & Hrun).
  injection Hrun as <- <-.
  pose proof (has_exercises_object _ _ _ Hexs Hit) as Hobj.
  pose proof (iterate_with_items _ _ _ _ _ Hit Hitems) as Hit'.
  apply enrich_exercises_ok in Hitems as (new & -> & Hall).
  exists new. split; [reflexivity|]. split; [exact Hobj|]. split.
  - exists (with_items exs items'), items'.
    split; [by apply get_update_same|]. split; assumption.
  - intros k Hk. apply get_update_other. congruence.
Qed.

(** The loop over the days changes nothing but [daily_workouts]. *)
Lemma enrich_days_frame days : forall workoutPlan w workoutPlan' w',
  enrich_days days workoutPlan w = (inr workoutPlan', w') ->
  forall k, k <> "daily_workouts" ->
    get_prop workoutPlan' k = get_prop workoutPlan k.
Proof.
  induction days as [|day rest IH]; intros wp w wp' w' Hrun k Hk.
  - by injection Hrun as <- <-.
  - cbn [Planner.enrich_days] in Hrun.
    apply bind_inr_inv in Hrun as (daily & w1 & _ & Hrun).
    apply bind_inr_inv in Hrun as (workout & w2 & _ & Hrun).
    apply bind_inr_inv in Hrun as (workout' & w3 & _ & Hrun).
    rewrite (IH _ _ _ _ Hrun k Hk). apply get_update_other. congruence.
Qed.

(** A successful loop over days that are own keys of [daily_workouts] leaves
    each of them an enriched section, keeps the keys and leaves the other
    days alone. *)
Lemma enrich_days_ok days : forall workoutPlan w workoutPlan' w' daily ks,
  get_prop workoutPlan "daily_workouts" = inr daily ->
  own_keys daily = inr ks ->
  incl days ks ->
  enrich_days days workoutPlan w = (inr workoutPlan', w') ->
  exists new daily',
    w' = w ++ new
    /\ get_prop workoutPlan' "daily_workouts" = inr daily'
    /\ own_keys daily' = inr ks
    /\ (forall day, In day days ->
          exists workout,
            get_prop daily' day = inr workout /\ section_enriched new workout)
    /\ (forall day, ~ In day days -> get_prop daily' day = get_prop daily day).
Proof.
  induction days as [|day rest IH];
    intros wp w wp' w' daily ks Hdaily Hkeys Hincl Hrun.
  - injection Hrun as <- <-. exists [], daily.
    rewrite app_nil_r. repeat split; try assumption. intros day [].
  - cbn [Planner.enrich_days] in Hrun.
    apply bind_inr_inv in Hrun as (daily0 & w1 & Hd & Hrun).
    apply raise_inr in Hd as [Hd ->].
    assert (daily0 = daily) as -> by congruence.
    apply bind_inr_inv in Hrun as (workout & w2 & Hw & Hrun).
    apply raise_inr in Hw as [Hw ->].
    apply bind_inr_inv in Hrun as (workout' & w3 & Hsec & Hrun).
    apply enrich_section_ok in Hsec as (new1 & -> & Hobj & Hsec & _).
    pose proof (get_prop_object _ _ _ Hw Hobj) as Hobj_daily.
    pose proof (get_prop_object _ _ _ Hdaily Hobj_daily) as Hobj_wp.
    assert (In day ks) as Hday by (apply Hincl; by left).
    set (daily1 := update_prop daily day workout') in *.
    assert (own_keys daily1 = inr ks) as Hkeys1
      by (by apply own_keys_update).
    eapply IH in Hrun as (new2 & daily' & -> & Hdaily' & Hkeys' & Hdays & Hrest);
      [ | by apply get_update_same | exact Hkeys1
        | intros d Hd'; apply Hincl; by right ].
    exists (new1 ++ new2), daily'.
    split; [by rewrite app_assoc|]. split; [exact Hdaily'|].
    split; [exact Hkeys'|]. split.
    + intros d Hd'.
      destruct (in_dec String.string_dec d rest) as [Hin|Hnotin].
      * destruct (Hdays d Hin) as (x & Hx & Hs).
        exists x. split; [exact Hx|]. by apply section_enriched_mono.
      * destruct Hd' as [<-|Hin]; [|contradiction].
        exists workout'. split.
        -- rewrite (Hrest _ Hnotin). by apply get_update_same.
        -- by apply section_enriched_mono_r.
    + intros d Hd'. rewrite Hrest by (intros Hin; apply Hd'; by right).
      apply get_update_other. intros ->. apply Hd'. by left.
Qed.

(** *** Every step is tidy *)

Lemma tidy_ret {A} (a : A) : tidy (mret a : Eff.M World exn A).
Proof. intros w r w' [= <- <-]. exists []. by rewrite app_nil_r. Qed.

Lemma tidy_lift {A} (x : exn + A) : tidy (lift x : Eff.M World exn A).
Proof.
  intros w r w' [= <- <-]. exists []. rewrite app_nil_r.
  split; [reflexivity|]. destruct x; auto.
Qed.

Lemma tidy_raise {A} (x : type_error + A) : tidy (raise_type_error x).
Proof.
  intros w r w'. destruct x; cbn; intros [= <- <-]; exists [];
    rewrite app_nil_r; auto.
Qed.

Lemma tidy_bind {A B} (m : Eff.M World exn A) (k : A -> Eff.M World exn B) :
  tidy m -> (forall a, tidy (k a)) -> tidy (m ≫= k).
Proof.
  intros Hm Hk w r w'. rewrite bind_run.
  destruct (m w) as [[e|a] w1] eqn:Em.
  - intros [= <- <-]. exact (Hm _ _ _ Em).
  - intros Ek. destruct (Hm _ _ _ Em) as (new1 & -> & H1).
    destruct (Hk a _ _ _ Ek) as (new2 & -> & H2).
    exists (new1 ++ new2). split; [by rewrite app_assoc|].
    destruct r as [e|b].
    + destruct H2 as [H2|(done & name & -> & H2)].
      * left. apply Forall_app. auto.
      * right. exists (new1 ++ done), name.
        split; [by rewrite app_assoc|]. apply Forall_app. auto.
    + apply Forall_app. auto.
Qed.

Lemma tidy_video name : tidy (getExerciseVideo name).
Proof.
  intros w r w'. unfold Planner.getExerciseVideo. intros [= <- <-].
  exists [(name, video (List.length w) name)]. split; [reflexivity|].
  destruct (video (List.length w) name) as [e|url] eqn:E.
  - right. exists [], name. auto.
  - repeat constructor. by exists url.
Qed.

Lemma tidy_enrich_exercises items : tidy (enrich_exercises items).
Proof.
  induction items as [|e rest IH]; cbn [Planner.enrich_exercises].
  - apply tidy_ret.
  - apply tidy_bind; [apply tidy_raise|]. intros name.
    apply tidy_bind; [apply tidy_video|]. intros url.
    apply tidy_bind; [apply tidy_raise|]. intros e'.
    apply tidy_bind; [exact IH|]. intros rest'. apply tidy_ret.
Qed.

Lemma tidy_enrich_section section : tidy (enrich_section section).
Proof.
  unfold Planner.enrich_section.
  apply tidy_bind; [apply tidy_raise|]. intros exs.
  apply tidy_bind; [apply tidy_raise|]. intros items.
  apply tidy_bind; [apply tidy_enrich_exercises|]. intros items'.
  apply tidy_ret.
Qed.

Lemma tidy_enrich_days days : forall workoutPlan, tidy (enrich_days days workoutPlan).
Proof.
  induction days as [|day rest IH]; intros wp; cbn [Planner.enrich_days].
  - apply tidy_ret.
  - apply tidy_bind; [apply tidy_raise|]. intros daily.
    apply tidy_bind; [apply tidy_raise|]. intros workout.
    apply tidy_bind; [apply tidy_enrich_section|]. intros workout'.
    apply IH.
Qed.

Lemma tidy_invalid_data d : tidy (invalid_data d).
Proof.
  unfold Planner.invalid_data.
  destruct (negb (truthy d)); [apply tidy_ret|].
  apply tidy_bind; [apply tidy_raise|]. intros guard.
  destruct (negb (truthy guard)); [apply tidy_ret|].
  apply tidy_bind; [apply tidy_raise|]. intros plan. apply tidy_ret.
Qed.

Lemma tidy_generate a : tidy (generate a).
Proof.
  unfold Planner.generate.
  apply tidy_bind; [apply tidy_lift|]. intros prompt.
  apply tidy_bind; [apply tidy_lift|]. intros result.
  destruct (negb (success result)); [apply tidy_ret|].
  apply tidy_bind; [apply tidy_invalid_data|]. intros [|]; [apply tidy_ret|].
  apply tidy_bind; [apply tidy_raise|]. intros wp.
  apply tidy_bind; [apply tidy_raise|]. intros daily.
  apply tidy_bind; [apply tidy_raise|]. intros days.
  apply tidy_bind; [apply tidy_enrich_days|]. intros wp1.
  apply tidy_bind; [apply tidy_raise|]. intros warm_up.
  apply tidy_bind; [apply tidy_enrich_section|]. intros warm_up'.
  apply tidy_bind; [apply tidy_raise|]. intros cool_down.
  apply tidy_bind; [apply tidy_enrich_section|]. intros cool_down'.
  apply tidy_ret.
Qed.

Lemma lift_inr {A} (x : exn + A) (w : World) a w' :
  lift x w = (inr a, w') -> x = inr a /\ w' = w.
Proof. unfold lift. intros [= -> <-]. auto. Qed.

(** The validity test makes no lookup. *)
Lemma invalid_data_world d w r w' : invalid_data d w = (r, w') -> w' = w.
Proof.
  unfold Planner.invalid_data, Planner.isWorkoutPlan.
  destruct (truthy d); cbn; [|by intros [= _ <-]].
  destruct (has_in "workout_plan" d) as [te|b]; cbn; [by intros [= _ <-]|].
  destruct b; cbn; [|by intros [= _ <-]].
  destruct (get_prop d "workout_plan"); cbn; by intros [= _ <-].
Qed.

(** A successful generation returns a plan whose every exercise was enriched
    by a lookup made during that generation. *)
Lemma generate_success a w m plan w' :
  generate a w = (inr (Success m plan), w') ->
  exists new, w' = w ++ new /\ plan_enriched new plan.
Proof.
  unfold Planner.generate. intros Hrun.
  apply bind_inr_inv in Hrun as (prompt & w1 & Hp & Hrun).
  apply lift_inr in Hp as [_ ->].
  apply bind_inr_inv in Hrun as (result & w1 & Hg & Hrun).
  apply lift_inr in Hg as [_ ->].
  destruct (negb (success result)); [discriminate|].
  apply bind_inr_inv in Hrun as (invalid & w1 & Hinv & Hrun).
  apply invalid_data_world in Hinv as ->.
  destruct invalid; [discriminate|].
  apply bind_inr_inv in Hrun as (wp & w1 & Hwp & Hrun).
  apply raise_inr in Hwp as [_ ->].
  apply bind_inr_inv in Hrun as (daily & w1 & Hdaily & Hrun).
  apply raise_inr in Hdaily as [Hdaily ->].
  apply bind_inr_inv in Hrun as (days & w1 & Hdays & Hrun).
  apply raise_inr in Hdays as [Hdays ->].
  apply bind_inr_inv in Hrun as (wp1 & w1 & Hloop & Hrun).
  eapply enrich_days_ok in Hloop
    as (new1 & daily' & -> & Hdaily' & Hkeys' & Hloop & _);
    [ | exact Hdaily | exact Hdays | apply incl_refl ].
  apply bind_inr_inv in Hrun as (wu & w1 & Hwu & Hrun).
  apply raise_inr in Hwu as [Hwu ->].
  apply bind_inr_inv in Hrun as (wu' & w1 & Hwarm & Hrun).
  apply enrich_section_ok in Hwarm as (new2 & -> & Hobj_wu & Hwarm & _).
  pose proof (get_prop_object _ _ _ Hwu Hobj_wu) as Hobj1.
  apply bind_inr_inv in Hrun as (cd & w1 & Hcd & Hrun).
  apply raise_inr in Hcd as [Hcd ->].
  apply bind_inr_inv in Hrun as (cd' & w1 & Hcool & Hrun).
  apply enrich_section_ok in Hcool as (new3 & -> & Hobj_cd & Hcool & _).
  pose proof (get_prop_object _ _ _ Hcd Hobj_cd) as Hobj2.
  injection Hrun as <- <- <-.
  exists (new1 ++ new2 ++ new3). split; [by rewrite <- !app_assoc|].
  split; [|split].
  - exists daily', days.
    rewrite !get_update_other by discriminate.
    split; [exact Hdaily'|]. split; [exact Hkeys'|].
    intros day Hday. destruct (Hloop day Hday) as (x & Hx & Hs).
    exists x. split; [exact Hx|]. by apply section_enriched_mono_r.
  - exists wu'. rewrite get_update_other by discriminate.
    split; [by apply get_update_same|].
    apply section_enriched_mono, section_enriched_mono_r, Hwarm.
  - exists cd'. split; [by apply get_update_same|].
    rewrite app_assoc. by apply section_enriched_mono.
Qed.

(** What the [catch] clause does with a lookup that threw. *)
Lemma thrown_lookup_is_caught a w r w' new name e :
  workoutPlanGenerator a w = (r, w') ->
  w' = w ++ new ->
  In (name, inl e) new ->
  r = inr (Failure (VStr "Failed to generate workout plan") (error_text e)).
Proof.
  unfold Planner.workoutPlanGenerator, try_catch.
  destruct (generate a w) as [[e0|o] w1] eqn:Egen; intros [= <- <-] Hw Hin;
    destruct (tidy_generate _ _ _ _ Egen) as (new' & Hw' & Hnew);
    rewrite Hw' in Hw; apply app_inv_head in Hw; subst new'.
  - destruct Hnew as [Hall|(done & n & -> & Hall)].
    + rewrite Forall_forall in Hall. destruct (Hall _ Hin) as [url Hurl].
      discriminate Hurl.
    + apply in_app_or in Hin as [Hin|[[= _ <-]|[]]]; [|reflexivity].
      rewrite Forall_forall in Hall. destruct (Hall _ Hin) as [url Hurl].
      discriminate Hurl.
  - rewrite Forall_forall in Hnew. destruct (Hnew _ Hin) as [url Hurl].
    discriminate Hurl.
Qed.

(** A returned plan holds, for each of its exercises, the answer of a lookup
    made for its [name] during this run, and every lookup was answered; a
    lookup that throws ends the run with the failure of the [catch] clause. *)
Lemma enriched_or_caught a w r w' :
  workoutPlanGenerator a w = (r, w') ->
  exists new,
    w' = w ++ new
    /\ (forall m plan,
          r = inr (Success m plan) ->
          plan_enriched new plan /\ Forall answered new)
    /\ (forall name e,
          In (name, inl e) new ->
          r = inr (Failure (VStr "Failed to generate workout plan")
                           (error_text e))).
Proof.
  intros Hrun. pose proof Hrun as Hrun'.
  unfold Planner.workoutPlanGenerator, try_catch in Hrun.
  destruct (generate a w) as [[e0|o] w1] eqn:Egen; injection Hrun as <- <-;
    destruct (tidy_generate _ _ _ _ Egen) as (new & -> & Hnew);
    exists new; (split; [reflexivity|]); split.
  - intros m plan [=].
  - intros name e Hin. by eapply thrown_lookup_is_caught.
  - intros m plan [= ->].
    apply generate_success in Egen as (new' & Hw & Hplan).
    apply app_inv_head in Hw. subst new'. auto.
  - intros name e Hin. by eapply thrown_lookup_is_caught.
Qed.

(** C4: the generator always returns an object; a response of the AI client
    with [success] false gives [{success:false}] with the client's message
    (the fixed text when the client gave none) and the client's error; and
    whatever is thrown inside the [try] block, by the prompt template, by
    the AI client, by a video lookup or by the engine, comes back as
    [{success:false, message:"Failed to generate workout plan", error}]. *)
Theorem never_throws_to_caller a w :
  (exists o w', workoutPlanGenerator a w = (inr o, w'))
  /\ (forall prompt result,
        workoutPrompt a = inr prompt ->
        gemini prompt = inr result ->
        success result = false ->
        workoutPlanGenerator a w
        = (inr (Failure (or_else (message result)
                                 (VStr "Failed to generate workout plan"))
                        (error result)), w)
        /\ (truthy (message result) = true ->
            or_else (message result) (VStr "Failed to generate workout plan")
            = message result))
  /\ (forall e w',
        generate a w = (inl e, w') ->
        workoutPlanGenerator a w
        = (inr (Failure (VStr "Failed to generate workout plan")
                        (error_text e)), w'))
  /\ (forall e,
        workoutPrompt a = inl e ->
        workoutPlanGenerator a w
        = (inr (Failure (VStr "Failed to generate workout plan")
                        (error_text e)), w))
  /\ (forall prompt e,
        workoutPrompt a = inr prompt ->
        gemini prompt = inl e ->
        workoutPlanGenerator a w
        = (inr (Failure (VStr "Failed to generate workout plan")
                        (error_text e)), w))
  /\ (forall r w' new name e,
        workoutPlanGenerator a w = (r, w') ->
        w' = w ++ new ->
        In (name, inl e) new ->
        r = inr (Failure (VStr "Failed to generate workout plan")
                         (error_text e))).
Proof.
  split; [|split; [|split; [|split; [|split]]]].
  - apply try_catch_total. intros e s1. eauto.
  - intros prompt result Hp Hg Hs. split.
    + unfold Planner.workoutPlanGenerator, try_catch, Planner.generate.
      rewrite bind_run. unfold lift at 1. rewrite Hp.
      rewrite bind_run. unfold lift at 1. rewrite Hg, Hs. reflexivity.
    + unfold or_else. by intros ->.
  - intros e w' Hgen.
    unfold Planner.workoutPlanGenerator, try_catch. by rewrite Hgen.
  - intros e Hp.
    unfold Planner.workoutPlanGenerator, try_catch, Planner.generate.
    rewrite bind_run. unfold lift at 1. by rewrite Hp.
  - intros prompt e Hp Hg.
    unfold Planner.workoutPlanGenerator, try_catch, Planner.generate.
    rewrite bind_run. unfold lift at 1. rewrite Hp.
    rewrite bind_run. unfold lift at 1. by rewrite Hg.
  - intros r w' new name e. apply thrown_lookup_is_caught.
Qed.

(** *** Payloads that fail validation, and payloads that pass it but lack a
    section *)

Lemma invalid_data_true d w :
  truthy d = false
  \/ has_in "workout_plan" d = inr false
  \/ (has_in "workout_plan" d = inr true
      /\ exists plan, get_prop d "workout_plan" = inr plan /\ truthy plan = false) ->
  invalid_data d w = (inr true, w).
Proof.
  unfold Planner.invalid_data, Planner.isWorkoutPlan.
  intros [Hd|[Hin|(Hin & plan & Hget & Hplan)]].
  - by rewrite Hd.
  - destruct (truthy d); [|reflexivity]. by rewrite Hin.
  - destruct (truthy d); [|reflexivity].
    rewrite Hin. eff_unfold. cbn. rewrite Hget. cbn. by rewrite Hplan.
Qed.

Lemma has_in_truthy k d b : has_in k d = inr b -> truthy d = true.
Proof. destruct d; cbn; congruence. Qed.

Lemma invalid_data_false d w plan :
  has_in "workout_plan" d = inr true ->
  get_prop d "workout_plan" = inr plan ->
  truthy plan = true ->
  invalid_data d w = (inr false, w).
Proof.
  intros Hin Hget Hplan. unfold Planner.invalid_data, Planner.isWorkoutPlan.
  rewrite (has_in_truthy _ _ _ Hin), Hin. eff_unfold. cbn.
  rewrite Hget. cbn. by rewrite Hplan.
Qed.





Lemma workout_plan_not_index : parse_index "workout_plan" = None.
Proof. reflexivity. Qed.

(** An object (or an array) whose [workout_plan] is falsy either has no such
    property or has a falsy one. *)
Lemma missing_plan_cases d :
  PlanShape.missing_plan d ->
  truthy d = false
  \/ has_in "workout_plan" d = inr false
  \/ (has_in "workout_plan" d = inr true
      /\ exists plan, get_prop d "workout_plan" = inr plan /\ truthy plan = false).
Proof.
  intros [Hd|[Hobj Hplan]]; [by left|]. right.
  unfold PlanShape.prop_of in Hplan.
  destruct d as [| | | | |elems props|props]; try (by destruct Hobj);
    unfold has_in, get_prop in *; rewrite ?workout_plan_not_index in *;
    (destruct (has_key "workout_plan" props); [right | by left]);
    (split; [reflexivity|]); eauto.
Qed.

(** A payload that is a truthy primitive makes the [in] test of
    [isWorkoutPlan] throw; the [catch] clause reports it. *)
Lemma primitive_payload_is_caught a w prompt result :
  workoutPrompt a = inr prompt ->
  gemini prompt = inr result ->
  success result = true ->
  truthy (data result) = true ->
  ~ is_object (data result) ->
  workoutPlanGenerator a w
  = (inr (Failure (VStr "Failed to generate workout plan")
                  (VStr (engine_message (BadInOperand (data result))))), w).
Proof.
  intros Hp Hg Hs Ht Hobj.
  unfold Planner.workoutPlanGenerator, try_catch, Planner.generate.
  rewrite bind_run. unfold lift at 1. rewrite Hp.
  rewrite bind_run. unfold lift at 1. rewrite Hg, Hs. cbn [negb].
  rewrite bind_run. unfold Planner.invalid_data, Planner.isWorkoutPlan.
  rewrite Ht. cbn [negb].
  destruct (data result) as [| | | | |elems props|props];
    try discriminate Ht; try (by destruct Hobj); reflexivity.
Qed.


End Facts.

(** *** The theorems at a concrete environment *)


(** A payload can depart from the expected shape in other ways and still be
    accepted: [Object.keys] of a number is empty, so a numeric
    [daily_workouts] is returned as it came. *)
Example numeric_days_are_accepted :
  exists m plan w',
    Demo.run (Demo.answering Demo.plan_with_numeric_days)
    = (inr (Success m plan), w')
    /\ get_prop plan "daily_workouts" = inr (VNum (5 # 1)).
Proof. eexists _, _, _. split; vm_compute; reflexivity. Qed.


(** A payload that is a number never reaches the validation message either:
    the [in] test throws. *)
Example numeric_payload_is_caught :
  Demo.run (fun _ => inr (mkGeminiResponse true (VNum (5 # 1)) VUndef VUndef))
  = (inr (Failure (VStr "Failed to generate workout plan")
                  (VStr "Cannot use 'in' operator")), []).
Proof. vm_compute. reflexivity. Qed.

Lemma never_throws_to_caller_witness :
  Demo.run Demo.refusing
  = (inr (Failure (VStr "quota exhausted") (VStr "429")), []).
Proof.
  destruct (never_throws_to_caller
              Demo.workoutPrompt Demo.refusing Demo.video Demo.engine_message
              Demo.args [])
    as (_ & Hrefused & _).
  destruct (Hrefused "Plan for beginner"
              (mkGeminiResponse false VUndef (VStr "quota exhausted") (VStr "429")))
    as [Hrun _]; [reflexivity | reflexivity | reflexivity |].
  exact Hrun.
Defined.

End PlannerFacts.

(** ** The admin routes *)

Module AdminFacts.
Import Eff EffFacts Js JsFacts Admin.

Lemma has_key_assoc_del k ps : has_key k (assoc_del k ps) = false.
Proof. unfold has_key. by rewrite assoc_del_same. Qed.

Lemma without_password_free d : shows_password (without_password d) = false.
Proof. apply has_key_assoc_del. Qed.

Lemma post_ret {A} (a : A) (P : A -> Prop) Q : P a -> post (mret a) P Q.
Proof. intros H w. exact H. Qed.

Lemma post_bind {A B} (m : Eff.M World exn A) (k : A -> Eff.M World exn B)
    (R : A -> Prop) (P : B -> Prop) Q :
  post m R Q -> (forall a, R a -> post (k a) P Q) -> post (m ≫= k) P Q.
Proof.
  intros Hm Hk w. rewrite bind_run. specialize (Hm w).
  destruct (m w) as [[e|a] w1]; cbn in *; [exact Hm|].
  apply Hk, Hm.
Qed.

Lemma post_try {A} (m : Eff.M World exn A) h (P : A -> Prop) Q Q' :
  post m P Q -> (forall e, Q e -> post (h e) P Q') -> post (try_catch m h) P Q'.
Proof.
  intros Hm Hh w. unfold try_catch. specialize (Hm w).
  destruct (m w) as [[e|a] w1]; cbn in *; [|exact Hm].
  apply Hh, Hm.
Qed.

Section Facts.

Variable matches : value -> Doc -> bool.
Variable name_le : value -> value -> bool.
Variable fault : nat -> bool.
Variable bcrypt_hash : value -> option string.
Variable new_id : nat -> value.
Variable zod_message : list string -> value -> string.

Abbreviation handle :=
  (Admin.handle matches name_le fault bcrypt_hash new_id zod_message).
Abbreviation patchUserRole := (Admin.patchUserRole matches fault zod_message).
Abbreviation patchTrainer := (Admin.patchTrainer matches fault).
Abbreviation postTrainers :=
  (Admin.postTrainers matches fault bcrypt_hash new_id).
Abbreviation updateUserRoleSchema_parse :=
  (Admin.updateUserRoleSchema_parse zod_message).
Abbreviation updateTrainerInfoSchema_parse :=
  (Admin.updateTrainerInfoSchema_parse zod_message).

Lemma post_store_op {A} op (run : list Doc -> A * list Doc) (P : A -> Prop) :
  (forall l, P (fst (run l))) ->
  post (Admin.store_op fault op run) P well_formed_error.
Proof.
  intros H w. unfold Admin.store_op.
  destruct (fault (nops w)); cbn; [discriminate|].
  specialize (H (users w)). by destruct (run (users w)).
Qed.

Lemma post_raise {A} (r : type_error + A) :
  post (Admin.raise_type_error r) (fun _ => True) well_formed_error.
Proof. intros w. destruct r; cbn; [discriminate | exact I]. Qed.

Lemma post_hash v :
  post (Admin.hash bcrypt_hash v) (fun _ => True) well_formed_error.
Proof.
  intros w. unfold Admin.hash.
  destruct (bcrypt_hash v); cbn; [exact I | discriminate].
Qed.

Lemma insert_by_name_free d l :
  has_key "password" d = false ->
  Forall (fun x => has_key "password" x = false) l ->
  Forall (fun x => has_key "password" x = false) (Admin.insert_by_name name_le d l).
Proof.
  intros Hd Hl. induction Hl as [|x l Hx Hl IH]; cbn.
  - by constructor.
  - destruct (name_le _ _); repeat constructor; assumption.
Qed.

Lemma sorted_projection_free l :
  Forall (fun x => has_key "password" x = false)
         (Admin.sort_by_name name_le (map (assoc_del "password") l)).
Proof.
  induction l as [|d l IH]; cbn; [constructor|].
  apply insert_by_name_free; [apply has_key_assoc_del | exact IH].
Qed.

Lemma list_body_free (l : list Doc) :
  Forall (fun x => has_key "password" x = false) l ->
  shows_password (VArr (map VObj l) []) = false.
Proof.
  intros H. cbn. induction H as [|d l Hd Hl IH]; cbn; [reflexivity|].
  by rewrite Hd, IH.
Qed.

Lemma post_find_select_sort filter :
  post (Admin.find_select_sort matches name_le fault filter)
       (Forall (fun x => has_key "password" x = false)) well_formed_error.
Proof. apply post_store_op. intros l. apply sorted_projection_free. Qed.

Lemma post_findOne filter :
  post (Admin.findOne matches fault filter) (fun _ => True) well_formed_error.
Proof. by apply post_store_op. Qed.

Lemma post_unit_op op run :
  post (Admin.store_op fault op run) (fun _ : unit => True) well_formed_error.
Proof. by apply post_store_op. Qed.

Lemma role_parse_error b e :
  updateUserRoleSchema_parse b = inl e -> exists m, e = ZodError [m].
Proof.
  unfold Admin.updateUserRoleSchema_parse.
  destruct b as [| | | | | |props]; try (intros [= <-]; eauto).
  destruct (assoc_or_undef "role" props); try (intros [= <-]; eauto).
  destruct (existsb _ _); intros [= <-]. eauto.
Qed.

Lemma info_parse_error b e :
  updateTrainerInfoSchema_parse b = inl e -> well_formed_error e.
Proof.
  unfold Admin.updateTrainerInfoSchema_parse, well_formed_error.
  destruct b as [| | | | | |props]; try (intros [= <-]; discriminate).
  destruct (_ ++ _); intros [= <-]. discriminate.
Qed.

Lemma post_catch_validation e :
  well_formed_error e ->
  post (Admin.catch_validation e) password_free (fun _ => False).
Proof.
  intros He w. destruct e as [[|m ms]|]; cbn; [by apply He | reflexivity..].
Qed.

Ltac post_steps :=
  repeat first
    [ apply post_ret
    | eapply post_bind;
      [ first [ apply post_raise | apply post_findOne | apply post_hash
              | apply post_unit_op | apply post_find_select_sort ]
      | intros ? ? ] ].

Lemma getTrainers_free req :
  post (Admin.getTrainers matches name_le fault req) password_free (fun _ => False).
Proof.
  eapply post_try; [|intros e _; by apply post_ret].
  eapply post_bind; [apply post_find_select_sort|].
  intros l Hl. apply post_ret. by apply list_body_free.
Qed.

Lemma getUsers_free req :
  post (Admin.getUsers matches name_le fault req) password_free (fun _ => False).
Proof.
  eapply post_try; [|intros e _; by apply post_ret].
  eapply post_bind; [apply post_find_select_sort|].
  intros l Hl. apply post_ret. by apply list_body_free.
Qed.

Lemma postTrainers_free req :
  post (postTrainers req) password_free (fun _ => False).
Proof.
  eapply post_try; [|intros e _; by apply post_ret].
  do 6 (eapply post_bind; [apply post_raise|]; intros ? _).
  eapply post_bind; [apply post_findOne|]. intros [found|] _.
  - by apply post_ret.
  - eapply post_bind; [apply post_hash|]. intros h _.
    eapply (post_bind _ _ (fun _ => True)); [intros w; exact I|]. intros id _.
    eapply post_bind; [apply post_unit_op|]. intros _ _.
    apply post_ret. apply without_password_free.
Qed.

Lemma patchTrainer_free req :
  post (patchTrainer req) password_free (fun _ => False).
Proof.
  eapply post_try; [|intros e _; by apply post_ret].
  do 5 (eapply post_bind; [apply post_raise|]; intros ? _).
  eapply post_bind; [apply post_findOne|]. intros [[i trainer]|] _.
  - eapply post_bind; [apply post_unit_op|]. intros _ _.
    apply post_ret. apply without_password_free.
  - by apply post_ret.
Qed.

Lemma deleteTrainer_free req :
  post (Admin.deleteTrainer matches fault req) password_free (fun _ => False).
Proof.
  eapply post_try; [|intros e _; by apply post_ret].
  eapply post_bind; [apply post_findOne|]. intros [[i trainer]|] _.
  - eapply post_bind; [apply post_unit_op|]. intros _ _. by apply post_ret.
  - by apply post_ret.
Qed.

Lemma post_lift {A} (r : exn + A) (Q : exn -> Prop) :
  (forall e, r = inl e -> Q e) -> post (lift r) (fun _ => True) Q.
Proof. intros H w. unfold lift. destruct r; cbn; auto. Qed.

Lemma patchUserRole_free req :
  post (patchUserRole req) password_free (fun _ => False).
Proof.
  eapply post_try; [|intros e He; by apply post_catch_validation].
  eapply post_bind.
  { apply post_lift. intros e He. apply role_parse_error in He as [m ->].
    discriminate. }
  intros role _.
  eapply post_bind; [apply post_findOne|]. intros [[i user]|] _.
  - eapply post_bind; [apply post_unit_op|]. intros _ _.
    apply post_ret. apply without_password_free.
  - by apply post_ret.
Qed.

Lemma patchTrainerInfo_free req :
  post (Admin.patchTrainerInfo matches fault zod_message req)
       password_free (fun _ => False).
Proof.
  eapply post_try; [|intros e He; by apply post_catch_validation].
  eapply post_bind.
  { apply post_lift. intros e He. by apply info_parse_error in He. }
  intros [[specialization hourlyRate] bio] _.
  eapply post_bind; [apply post_findOne|]. intros [[i trainer]|] _.
  - eapply post_bind; [apply post_unit_op|]. intros _ _.
    apply post_ret. apply without_password_free.
  - by apply post_ret.
Qed.

Lemma raise_world {A} (r : type_error + A) w a w' :
  Admin.raise_type_error r w = (inr a, w') -> r = inr a /\ w' = w.
Proof. destruct r; cbn; intros [=]; subst; auto. Qed.

Lemma findOne_users filter w r w' :
  Admin.findOne matches fault filter w = (r, w') -> users w' = users w.
Proof.
  unfold Admin.findOne, Admin.store_op.
  destruct (fault (nops w)); intros [= _ <-]; reflexivity.
Qed.

Lemma hash_world v w h w' :
  Admin.hash bcrypt_hash v w = (inr h, w') -> w' = w.
Proof.
  unfold Admin.hash. destruct (bcrypt_hash v); cbn; intros [=]; subst; auto.
Qed.

Lemma insert_users d w w' :
  Admin.insert fault d w = (inr tt, w') -> users w' = users w ++ [d].
Proof.
  unfold Admin.insert, Admin.store_op.
  destruct (fault (nops w)); intros [= <-]; reflexivity.
Qed.

(** C7: every admin handler answers every request, and the body it sends
    never has a [password] field (nor, for a list, a document with one);
    while the document that the trainer-creation handler stores does have
    one, and its response is that document with the field deleted. *)
Theorem responses_never_show_password :
  (forall route req w,
      exists status b w',
        handle route req w = (inr (Respond status b), w')
        /\ shows_password b = false)
  /\ (forall req w b w',
        postTrainers req w = (inr (Respond 201 b), w') ->
        exists d,
          users w' = users w ++ [d]
          /\ has_key "password" d = true
          /\ b = without_password d).
Proof.
  split.
  - intros route req w.
    assert (post (handle route req) password_free (fun _ => False)) as H.
    { destruct route; cbn [Admin.handle].
      - apply getTrainers_free.
      - apply postTrainers_free.
      - apply patchTrainer_free.
      - apply deleteTrainer_free.
      - apply getUsers_free.
      - apply patchUserRole_free.
      - apply patchTrainerInfo_free. }
    specialize (H w).
    destruct (handle route req w) as [[e|[status b]] w'] eqn:E; cbn in H;
      [contradiction|].
    eauto.
  - intros req w b w'. unfold Admin.postTrainers, try_catch.
    match goal with
    | |- context [match ?m w with _ => _ end] =>
        destruct (m w) as [[e|o] w1] eqn:E
    end.
    { cbn. discriminate. }
    intros [= -> ->].
    do 6 (apply bind_inr_inv in E as (? & ? & [_ ->]%raise_world & E)).
    apply bind_inr_inv in E as ([found|] & w2 & Hfind & E); [discriminate|].
    apply findOne_users in Hfind.
    apply bind_inr_inv in E as (h & w3 & ->%hash_world & E).
    apply bind_inr_inv in E as (id & w4 & [= _ <-] & E).
    apply bind_inr_inv in E as ([] & w5 & Hins%insert_users & E).
    injection E as <- <-.
    eexists. split; [rewrite Hins, Hfind; reflexivity|].
    split; reflexivity.
Qed.

(** C8: when the body's [role] is not one of ADMIN, TRAINER, USER, the schema
    rejects the body, the handler answers 400 with the message of the first
    issue, and the world is exactly what it was: no store operation was
    issued (the journal has no new entry) and no user document changed. *)
Theorem unknown_role_rejected_before_store req w :
  (forall r, In r roles -> get_prop (body req) "role" <> inr (VStr r)) ->
  exists m rest,
    updateUserRoleSchema_parse (body req) = inl (ZodError (m :: rest))
    /\ patchUserRole req w = (inr (Respond 400 (VObj [("error", VStr m)])), w).
Proof.
  intros Hrole.
  assert (exists m, updateUserRoleSchema_parse (body req) = inl (ZodError [m]))
    as [m Hparse].
  { unfold Admin.updateUserRoleSchema_parse.
    destruct (body req) as [| | | | | |props]; eauto.
    cbn in Hrole.
    destruct (assoc_or_undef "role" props) as [| | | |r| |] eqn:Er; eauto.
    destruct (existsb (String.eqb r) roles) eqn:Ex; eauto.
    exfalso. apply existsb_exists in Ex as (x & Hx & Heq).
    apply String.eqb_eq in Heq. subst x. by apply (Hrole r). }
  exists m, []. split; [exact Hparse|].
  unfold Admin.patchUserRole, try_catch. rewrite bind_run.
  unfold lift at 1. by rewrite Hparse.
Qed.

Lemma assoc_guarded_set_other (c : bool) k k' x (t : Doc) :
  k <> k' -> assoc k (if c then assoc_set k' x t else t) = assoc k t.
Proof.
  intros Hne. destruct c; [|reflexivity].
  apply assoc_set_other. congruence.
Qed.

Lemma assoc_verified_other k isVerified (t : Doc) :
  k <> "isVerified" ->
  assoc k (match isVerified with
           | VBool _ => assoc_set "isVerified" isVerified t
           | _ => t
           end) = assoc k t.
Proof.
  intros Hne. destruct isVerified; try reflexivity.
  apply assoc_set_other. congruence.
Qed.

(** C10: [PATCH /trainers/:trainerId] on a trainer that is found, with a
    store that does not throw: each of [name], [specialization],
    [hourlyRate], [bio] is written when the supplied value is truthy and
    keeps its stored value when it is falsy (0, the empty string, absent);
    the answer is 200 with the saved record minus its password, never a
    validation error; and when all four are falsy and [isVerified] is not a
    boolean the record and the whole collection are exactly as before. *)
Theorem falsy_values_are_not_applied req w i trainer
    name specialization hourlyRate bio isVerified :
  get_prop (body req) "name" = inr name ->
  get_prop (body req) "specialization" = inr specialization ->
  get_prop (body req) "hourlyRate" = inr hourlyRate ->
  get_prop (body req) "bio" = inr bio ->
  get_prop (body req) "isVerified" = inr isVerified ->
  fault (nops w) = false ->
  fault (S (nops w)) = false ->
  list_find (fun d => matches (trainer_filter (param req)) d = true) (users w)
  = Some (i, trainer) ->
  exists trainer' w',
    patchTrainer req w = (inr (Respond 200 (without_password trainer')), w')
    /\ users w' = <[i := trainer']> (users w)
    /\ assoc "name" trainer'
       = (if truthy name then Some name else assoc "name" trainer)
    /\ assoc "specialization" trainer'
       = (if truthy specialization then Some specialization
          else assoc "specialization" trainer)
    /\ assoc "hourlyRate" trainer'
       = (if truthy hourlyRate then Some hourlyRate
          else assoc "hourlyRate" trainer)
    /\ assoc "bio" trainer'
       = (if truthy bio then Some bio else assoc "bio" trainer)
    /\ (truthy name = false -> truthy specialization = false ->
        truthy hourlyRate = false -> truthy bio = false ->
        (forall b, isVerified <> VBool b) ->
        trainer' = trainer /\ users w' = users w).
Proof.
  intros Hn Hs Hr Hb Hv F0 F1 Hfind.
  unfold Admin.patchTrainer, Admin.findOne, Admin.save, Admin.store_op.
  rewrite Hn, Hs, Hr, Hb, Hv. eff_unfold. cbn.
  rewrite F0. cbn. rewrite Hfind. cbn. rewrite F1. cbn.
  eexists _, _. split; [reflexivity|]. cbn. split; [reflexivity|].
  split; [|split; [|split; [|split]]].
  - rewrite assoc_verified_other by discriminate.
    rewrite !assoc_guarded_set_other by discriminate.
    destruct (truthy name); [apply assoc_set_same | reflexivity].
  - rewrite assoc_verified_other by discriminate.
    rewrite !assoc_guarded_set_other by discriminate.
    destruct (truthy specialization); [apply assoc_set_same|].
    by rewrite assoc_guarded_set_other by discriminate.
  - rewrite assoc_verified_other by discriminate.
    rewrite assoc_guarded_set_other by discriminate.
    destruct (truthy hourlyRate); [apply assoc_set_same|].
    by rewrite !assoc_guarded_set_other by discriminate.
  - rewrite assoc_verified_other by discriminate.
    destruct (truthy bio); [apply assoc_set_same|].
    by rewrite !assoc_guarded_set_other by discriminate.
  - intros -> -> -> -> Hnb.
    apply list_find_Some in Hfind as [Hi _].
    destruct isVerified as [| |b| | | |]; try (by destruct (Hnb b));
      (split; [reflexivity|]); by apply list_insert_id.
Qed.

End Facts.

(** *** The theorems at a concrete environment *)

(** The stored documents carry a password; the listing does not show it. *)
Example listing_hides_stored_passwords :
  Forall (fun d => has_key "password" d = true) (users Demo.world)
  /\ exists b w',
      Demo.run GetUsers (mkRequest "" VUndef) = (inr (Respond 200 b), w')
      /\ shows_password b = false.
Proof.
  split; [repeat constructor|].
  eexists _, _. split; vm_compute; reflexivity.
Qed.

Lemma unknown_role_rejected_before_store_witness :
  Demo.run PatchUserRole (mkRequest "u1" (VObj [("role", VStr "BOSS")]))
  = (inr (Respond 400 (VObj [("error", VStr "Invalid input")])), Demo.world).
Proof.
  destruct (unknown_role_rejected_before_store
              Demo.matches Demo.fault Demo.zod_message
              (mkRequest "u1" (VObj [("role", VStr "BOSS")])) Demo.world)
    as (m & rest & Hparse & Hrun).
  - intros r Hr. vm_compute. intros [= <-].
    vm_compute in Hr. repeat destruct Hr as [Hr|Hr]; discriminate || exact Hr.
  - injection Hparse as <- <-. exact Hrun.
Defined.

Lemma falsy_values_are_not_applied_witness :
  exists w',
    Demo.run PatchTrainer
      (mkRequest "t1" (VObj [("hourlyRate", VNum (0 # 1)); ("bio", VStr "")]))
    = (inr (Respond 200 (without_password Demo.trainer)), w')
    /\ users w' = users Demo.world.
Proof.
  destruct (falsy_values_are_not_applied
              Demo.matches Demo.fault
              (mkRequest "t1" (VObj [("hourlyRate", VNum (0 # 1)); ("bio", VStr "")]))
              Demo.world 1%nat Demo.trainer
              VUndef VUndef (VNum (0 # 1)) (VStr "") VUndef)
    as (trainer' & w' & Hrun & _ & _ & _ & _ & _ & Hsame);
    try reflexivity.
  destruct Hsame as [-> Husers]; try reflexivity; [discriminate|].
  exists w'. split; [exact Hrun | exact Husers].
Defined.

End AdminFacts.

(** ** The subscription gate: further properties *)

Module GateMore.
Import Eff EffFacts Js Gate GateRuns.

Section Facts.

Variable exn : Type.
Variable clock : nat -> Z.
Variable fault : nat -> option exn.
Variable getFullYear : Z -> Z.
Variable setFullYear : Z -> Z -> Z.

Abbreviation workoutGate :=
  (canGenerateWorkoutPlan exn clock fault getFullYear setFullYear).
Abbreviation mealGate :=
  (canGenerateMealPlan exn clock fault getFullYear setFullYear).
Abbreviation query_time := (Gate.query_time clock).
Abbreviation fresh_subscription :=
  (Gate.fresh_subscription clock getFullYear setFullYear).
Abbreviation workout_found :=
  (GateFacts.workout_found exn clock fault getFullYear setFullYear).
Abbreviation meal_found :=
  (GateFacts.meal_found exn clock fault getFullYear setFullYear).
Abbreviation workout_lazy :=
  (GateFacts.workout_lazy exn clock fault getFullYear setFullYear).
Abbreviation meal_lazy :=
  (GateFacts.meal_lazy exn clock fault getFullYear setFullYear).

Lemma workout_unauthenticated w :
  workoutGate (mkRequest None) w = (inr (Respond 401 unauthorized_body), w).
Proof. reflexivity. Qed.

Lemma meal_unauthenticated w :
  mealGate (mkRequest None) w = (inr (Respond 401 unauthorized_body), w).
Proof. reflexivity. Qed.

Lemma workout_find_fails w uid e :
  fault (nops w) = Some e ->
  workoutGate (mkRequest (Some uid)) w
  = (inr (Respond 500 server_error_body),
     mkWorld (subs w) (journal w ++ [OpFindOne uid (query_time w)])
             (S (nops w)) (S (nticks w))).
Proof.
  intros Hf. unfold canGenerateWorkoutPlan, findOne, store_op, now, Gate.query_time.
  eff_unfold. cbn. by rewrite Hf.
Qed.

Lemma meal_find_fails w uid e :
  fault (nops w) = Some e ->
  mealGate (mkRequest (Some uid)) w
  = (inr (Respond 500 server_error_body),
     mkWorld (subs w) (journal w ++ [OpFindOne uid (query_time w)])
             (S (nops w)) (S (nticks w))).
Proof.
  intros Hf. unfold canGenerateMealPlan, findOne, store_op, now, Gate.query_time.
  eff_unfold. cbn. by rewrite Hf.
Qed.

(** Split a run of a gate into the paths of the source: no user, lookup
    throws, record found, nothing found. *)
Ltac workout_paths req w :=
  destruct req as [[uid|]];
  [ destruct (fault (nops w)) as [e0|] eqn:F0;
    [ rewrite (workout_find_fails w uid e0 F0)
    | destruct (list_find (matches uid (query_time w)) (subs w))
        as [[i s]|] eqn:Hfind;
      [ rewrite (workout_found w uid i s F0 Hfind)
      | rewrite (workout_lazy w uid F0 Hfind) ] ]
  | rewrite workout_unauthenticated ].

Ltac meal_paths req w :=
  destruct req as [[uid|]];
  [ destruct (fault (nops w)) as [e0|] eqn:F0;
    [ rewrite (meal_find_fails w uid e0 F0)
    | destruct (list_find (matches uid (query_time w)) (subs w))
        as [[i s]|] eqn:Hfind;
      [ rewrite (meal_found w uid i s F0 Hfind)
      | rewrite (meal_lazy w uid F0 Hfind) ] ]
  | rewrite meal_unauthenticated ].

Ltac branches :=
  repeat match goal with
         | |- context [if ?c then _ else _] => destruct c eqn:?
         | |- context [match fault ?k with _ => _ end] => destruct (fault k) eqn:?
         end; cbn.

(** X1: a gate answers 401 exactly when the request carries no user
    identifier, and then it reads neither the clock nor the store. *)
Theorem unauthorized_iff_no_user req w :
  ((exists b, fst (workoutGate req w) = inr (Respond 401 b))
   <-> req_user_id req = None)
  /\ ((exists b, fst (mealGate req w) = inr (Respond 401 b))
      <-> req_user_id req = None)
  /\ (req_user_id req = None ->
      workoutGate req w = (inr (Respond 401 unauthorized_body), w)
      /\ mealGate req w = (inr (Respond 401 unauthorized_body), w)).
Proof.
  split; [|split].
  - workout_paths req w; cbn; branches;
      (split; [intros [b [=]] | intros [=]]); eauto.
  - meal_paths req w; cbn; branches;
      (split; [intros [b [=]] | intros [=]]); eauto.
  - destruct req as [[uid|]]; cbn; [discriminate|]. auto.
Qed.

(** X2: a gate answers 500 with the generic body exactly when one of the
    store operations it issued threw. *)
Theorem server_error_iff_store_threw req w :
  (fst (workoutGate req w) = inr (Respond 500 server_error_body)
   <-> exists k, (nops w <= k < nops (snd (workoutGate req w)))%nat
                 /\ fault k <> None)
  /\ (fst (mealGate req w) = inr (Respond 500 server_error_body)
      <-> exists k, (nops w <= k < nops (snd (mealGate req w)))%nat
                    /\ fault k <> None).
Proof.
  split.
  - workout_paths req w; cbn; branches;
      (split;
       [ intros H;
         first [ discriminate H
               | exists (nops w); split; [lia | congruence]
               | exists (S (nops w)); split; [lia | congruence]
               | exists (S (S (nops w))); split; [lia | congruence] ]
       | intros (k & Hk & Hfk);
         first [ reflexivity
               | exfalso;
                 assert (k = nops w \/ k = S (nops w) \/ k = S (S (nops w)))
                   as [Hk1|[Hk1|Hk1]] by lia;
                 subst k; first [congruence | lia] ] ]).
  - meal_paths req w; cbn; branches;
      (split;
       [ intros H;
         first [ discriminate H
               | exists (nops w); split; [lia | congruence]
               | exists (S (nops w)); split; [lia | congruence]
               | exists (S (S (nops w))); split; [lia | congruence] ]
       | intros (k & Hk & Hfk);
         first [ reflexivity
               | exfalso;
                 assert (k = nops w \/ k = S (nops w) \/ k = S (S (nops w)))
                   as [Hk1|[Hk1|Hk1]] by lia;
                 subst k; first [congruence | lia] ] ]).
Qed.

Lemma workout_step_refl s : workout_step s s.
Proof. unfold workout_step. tauto. Qed.

Lemma meal_step_refl s : meal_step s s.
Proof. unfold meal_step. tauto. Qed.

Lemma found_is_requester uid t (l : list Subscription) i s :
  list_find (matches uid t) l = Some (i, s) ->
  l !! i = Some s /\ user s = uid /\ active s = true /\ t <= endDate s.
Proof. intros (Hi & (Hu & Ha & Ht) & _)%list_find_Some. auto. Qed.

(** What one record of the collection becomes when the record at index [i] is
    replaced by a step of it. *)
Lemma insert_frame (step : Subscription -> Subscription -> Prop)
    (l : list Subscription) i s x (who : option string) :
  (forall y, step y y) ->
  l !! i = Some s -> step s x -> who = Some (user s) ->
  forall j y, l !! j = Some y ->
    exists y', <[i := x]> l !! j = Some y' /\ step y y'
               /\ (who <> Some (user y) -> y' = y).
Proof.
  intros Hrefl Hi Hstep Hreq j y Hj.
  destruct (decide (i = j)) as [<-|Hne].
  - rewrite list_lookup_insert_eq by (by eapply lookup_lt_Some).
    assert (y = s) as -> by congruence.
    exists x. split; [reflexivity|]. split; [exact Hstep|]. congruence.
  - rewrite list_lookup_insert_ne by exact Hne. eauto.
Qed.

Lemma app_frame (step : Subscription -> Subscription -> Prop)
    (l tail : list Subscription) (who : option string) :
  (forall y, step y y) ->
  forall j y, l !! j = Some y ->
    exists y', (l ++ tail) !! j = Some y' /\ step y y'
               /\ (who <> Some (user y) -> y' = y).
Proof.
  intros Hrefl j y Hj. exists y.
  rewrite lookup_app_l by (by eapply lookup_lt_Some). auto.
Qed.

Lemma same_frame (step : Subscription -> Subscription -> Prop)
    (l : list Subscription) (who : option string) :
  (forall y, step y y) ->
  forall j y, l !! j = Some y ->
    exists y', l !! j = Some y' /\ step y y'
               /\ (who <> Some (user y) -> y' = y).
Proof. intros Hrefl j y Hj. eauto. Qed.

(** X3: whatever the request and whatever the store and the clock do, the
    workout gate leaves every record in place with its user, plan, dates,
    [active] flag and meal counter, and with its workout counter the same or
    one higher; records of other users are untouched; at most one record is
    added, and it is a FREE, active record of the requesting user with
    counters 0 or 1.  The meal gate does the same with the counters
    exchanged. *)
Theorem gate_changes_one_counter req w :
  ((forall j s, subs w !! j = Some s ->
      exists s', subs (snd (workoutGate req w)) !! j = Some s'
                 /\ workout_step s s'
                 /\ (req_user_id req <> Some (user s) -> s' = s))
   /\ (List.length (subs w) <= List.length (subs (snd (workoutGate req w)))
       <= S (List.length (subs w)))%nat
   /\ (forall s, subs (snd (workoutGate req w)) !! List.length (subs w) = Some s ->
         provisioned_for req s))
  /\ ((forall j s, subs w !! j = Some s ->
         exists s', subs (snd (mealGate req w)) !! j = Some s'
                    /\ meal_step s s'
                    /\ (req_user_id req <> Some (user s) -> s' = s))
      /\ (List.length (subs w) <= List.length (subs (snd (mealGate req w)))
          <= S (List.length (subs w)))%nat
      /\ (forall s, subs (snd (mealGate req w)) !! List.length (subs w) = Some s ->
            provisioned_for req s)).
Proof.
  split.
  - workout_paths req w; cbn; branches;
      try apply found_is_requester in Hfind as (Hi & Hu & Ha & Ht);
      (split; [|split]);
      first
        [ apply same_frame, workout_step_refl
        | apply app_frame, workout_step_refl
        | eapply insert_frame;
          [ apply workout_step_refl | exact Hi
          | unfold workout_step; cbn; tauto | cbn; congruence ]
        | rewrite ?length_insert, ?length_app; cbn; lia
        | intros x Hx; rewrite ?list_lookup_insert_eq in Hx;
          first
            [ rewrite lookup_ge_None_2 in Hx by (rewrite ?length_insert; lia);
              discriminate Hx
            | rewrite lookup_app_r, Nat.sub_diag in Hx by lia;
              injection Hx as <-; unfold provisioned_for; cbn;
              repeat split; lia ] ].
  - meal_paths req w; cbn; branches;
      try apply found_is_requester in Hfind as (Hi & Hu & Ha & Ht);
      (split; [|split]);
      first
        [ apply same_frame, meal_step_refl
        | apply app_frame, meal_step_refl
        | eapply insert_frame;
          [ apply meal_step_refl | exact Hi
          | unfold meal_step; cbn; tauto | cbn; congruence ]
        | rewrite ?length_insert, ?length_app; cbn; lia
        | intros x Hx; rewrite ?list_lookup_insert_eq in Hx;
          first
            [ rewrite lookup_ge_None_2 in Hx by (rewrite ?length_insert; lia);
              discriminate Hx
            | rewrite lookup_app_r, Nat.sub_diag in Hx by lia;
              injection Hx as <-; unfold provisioned_for; cbn;
              repeat split; lia ] ].
Qed.

Lemma quota_test_false plan c :
  String.eqb plan "FREE" && (2 <=? c) = false -> plan = "FREE" -> c + 1 <= 2.
Proof.
  intros H ->. cbn in H. destruct (Z.leb_spec 2 c); [discriminate | lia].
Qed.

(** X4: if no FREE record is past the quota of two, for either counter, no
    request brings one past it, whatever the request, the store and the
    clock do. *)
Theorem quota_is_never_exceeded req w :
  within_quota (subs w) ->
  within_quota (subs (snd (workoutGate req w)))
  /\ within_quota (subs (snd (mealGate req w))).
Proof.
  intros Hq. unfold within_quota in *. split.
  - workout_paths req w; cbn; branches; try exact Hq;
      try apply found_is_requester in Hfind as (Hi & _);
      first
        [ apply Forall_insert; [exact Hq|]; cbn; intros Hplan;
          rewrite Forall_lookup in Hq; specialize (Hq _ _ Hi Hplan);
          split; [eapply quota_test_false; eassumption | tauto]
        | apply Forall_app; split; [exact Hq|];
          repeat constructor; cbn; lia ].
  - meal_paths req w; cbn; branches; try exact Hq;
      try apply found_is_requester in Hfind as (Hi & _);
      first
        [ apply Forall_insert; [exact Hq|]; cbn; intros Hplan;
          rewrite Forall_lookup in Hq; specialize (Hq _ _ Hi Hplan);
          split; [tauto | eapply quota_test_false; eassumption]
        | apply Forall_app; split; [exact Hq|];
          repeat constructor; cbn; lia ].
Qed.

(** X5: the meal gate meters [mealPlansGenerated] as the workout gate meters
    its counter: on a FREE record it allows and adds one below 2, and answers
    403 with [{success:false, message, subscriptionRequired:true}] and no
    write from 2 on; so a user without any subscription gets 1, 2, rejected
    on three requests made while the record created by the first is
    unexpired. *)
Theorem free_meal_quota_is_two :
  (forall w uid i s,
      fault (nops w) = None ->
      list_find (matches uid (query_time w)) (subs w) = Some (i, s) ->
      plan s = "FREE" ->
      (mealPlansGenerated s < 2 -> fault (S (nops w)) = None ->
       exists w',
         mealGate (mkRequest (Some uid)) w = (inr Next, w')
         /\ subs w' = <[i := set_mealPlansGenerated
                              (mealPlansGenerated s + 1) s]> (subs w))
      /\ (2 <= mealPlansGenerated s ->
          exists w',
            mealGate (mkRequest (Some uid)) w
            = (inr (Respond 403 meal_limit_body), w')
            /\ subs w' = subs w))
  /\ (forall w uid,
        Forall (fun s => user s <> uid) (subs w) ->
        store_ok exn fault w 6 ->
        let new := fresh_subscription uid w in
        let req := mkRequest (Some uid) in
        clock (nticks w + 3) <= endDate new ->
        clock (nticks w + 4) <= endDate new ->
        exists w1 w2 w3,
          mealGate req w = (inr Next, w1)
          /\ subs w1 = subs w ++ [set_mealPlansGenerated 1 new]
          /\ mealGate req w1 = (inr Next, w2)
          /\ subs w2 = subs w ++ [set_mealPlansGenerated 2 new]
          /\ mealGate req w2 = (inr (Respond 403 meal_limit_body), w3)
          /\ subs w3 = subs w2).
Proof.
  split.
  - intros w uid i s Hf Hfind Hplan.
    rewrite (meal_found _ _ _ _ Hf Hfind), Hplan. cbn. split.
    + intros Hlt Hs. rewrite Hs.
      destruct (Z.leb_spec 2 (mealPlansGenerated s)); [lia|]. eauto.
    + intros Hge.
      destruct (Z.leb_spec 2 (mealPlansGenerated s)); [|lia]. eauto.
  - intros w uid Hnone Hok new req H2 H3. subst req.
    assert (Hf : forall j, (j < 6)%nat -> fault (nops w + j) = None)
      by (intros j Hj; apply Hok; exact Hj).
    pose proof (Hf 0%nat ltac:(lia)) as F0. rewrite Nat.add_0_r in F0.
    pose proof (Hf 1%nat ltac:(lia)) as F1.
    pose proof (Hf 2%nat ltac:(lia)) as F2.
    pose proof (Hf 3%nat ltac:(lia)) as F3.
    pose proof (Hf 4%nat ltac:(lia)) as F4.
    pose proof (Hf 5%nat ltac:(lia)) as F5.
    replace (nops w + 1)%nat with (S (nops w)) in F1 by lia.
    replace (nops w + 2)%nat with (S (S (nops w))) in F2 by lia.
    replace (nops w + 3)%nat with (S (S (S (nops w)))) in F3 by lia.
    replace (nops w + 4)%nat with (S (S (S (S (nops w))))) in F4 by lia.
    replace (nops w + 5)%nat with (S (S (S (S (S (nops w)))))) in F5 by lia.
    replace (nticks w + 3)%nat with (S (S (S (nticks w)))) in H2 by lia.
    replace (nticks w + 4)%nat with (S (S (S (S (nticks w))))) in H3 by lia.
    rewrite (meal_lazy _ _ F0 (GateFacts.find_nobody _ _ _ Hnone)), F1, F2. cbn.
    eexists _, _, _. split; [reflexivity|]. cbn. split; [reflexivity|].
    fold new.
    rewrite (meal_found _ uid (List.length (subs w))
               (set_mealPlansGenerated 1 new));
      [ | exact F3
        | apply GateFacts.find_last; [exact Hnone | repeat split; exact H2] ].
    cbn. rewrite F4. cbn. split; [reflexivity|].
    rewrite GateFacts.insert_last. split; [reflexivity|].
    rewrite (meal_found _ uid (List.length (subs w))
               (set_mealPlansGenerated 2 new));
      [ | exact F5
        | apply GateFacts.find_last; [exact Hnone | repeat split; exact H3] ].
    cbn. split; reflexivity.
Qed.

Lemma lapsed_not_found uid t (l : list Subscription) :
  lapsed uid t l -> list_find (matches uid t) l = None.
Proof.
  intros Hl. apply list_find_None.
  induction Hl as [|s l Hs _ IH]; constructor; [|exact IH].
  intros (Hu & Ha & Ht). destruct (Hs Hu) as [H|H]; [congruence | lia].
Qed.

(** X6: when every record of the user is inactive or expired at the time of
    the request, however many plans those records count, each gate
    provisions a new FREE record and lets the request through with the
    counter of the new record at 1; the old records stay as they are. *)
Theorem lapsed_subscription_is_replaced w uid :
  lapsed uid (query_time w) (subs w) ->
  store_ok exn fault w 3 ->
  let new := fresh_subscription uid w in
  (exists w', workoutGate (mkRequest (Some uid)) w = (inr Next, w')
              /\ subs w' = subs w ++ [set_workoutPlansGenerated 1 new])
  /\ (exists w', mealGate (mkRequest (Some uid)) w = (inr Next, w')
              /\ subs w' = subs w ++ [set_mealPlansGenerated 1 new]).
Proof.
  intros Hl Hok new.
  pose proof (Hok 0%nat ltac:(lia)) as F0. rewrite Nat.add_0_r in F0.
  pose proof (Hok 1%nat ltac:(lia)) as F1.
  pose proof (Hok 2%nat ltac:(lia)) as F2.
  replace (nops w + 1)%nat with (S (nops w)) in F1 by lia.
  replace (nops w + 2)%nat with (S (S (nops w))) in F2 by lia.
  apply lapsed_not_found in Hl.
  rewrite (workout_lazy _ _ F0 Hl), (meal_lazy _ _ F0 Hl), F1, F2. cbn.
  split; eexists; split; reflexivity.
Qed.

Abbreviation gate := (GateRuns.gate exn clock fault getFullYear setFullYear).
Abbreviation serve := (GateRuns.serve exn clock fault getFullYear setFullYear).

Abbreviation looked_up := (GateRuns.looked_up clock).

Lemma premium_step k w uid i s :
  fault (nops w) = None ->
  list_find (matches uid (query_time w)) (subs w) = Some (i, s) ->
  plan s = "PREMIUM" ->
  gate k (mkRequest (Some uid)) w = (inr Next, looked_up uid w).
Proof.
  intros Hf Hfind Hplan. destruct k; cbn [GateRuns.gate].
  - by rewrite (workout_found _ _ _ _ Hf Hfind), Hplan.
  - by rewrite (meal_found _ _ _ _ Hf Hfind), Hplan.
Qed.


(** A run of requests each of which only looks the record up and gets the
    answer [answer k]. *)
Lemma steady_run (answer : Kind -> Outcome) kinds : forall w uid i s,
  (forall k w1,
      In k kinds -> subs w1 = subs w ->
      fault (nops w1) = None ->
      list_find (matches uid (query_time w1)) (subs w1) = Some (i, s) ->
      gate k (mkRequest (Some uid)) w1 = (inr (answer k), looked_up uid w1)) ->
  (forall n, (n < List.length kinds)%nat -> fault (nops w + n) = None) ->
  (forall n, (n < List.length kinds)%nat ->
     list_find (matches uid (clock (nticks w + n))) (subs w) = Some (i, s)) ->
  exists w',
    serve kinds (mkRequest (Some uid)) w
    = (map (fun k => inr (answer k)) kinds, w')
    /\ subs w' = subs w.
Proof.
  induction kinds as [|k rest IH]; intros w uid i s Hstep Hf Hfind.
  - exists w. split; reflexivity.
  - cbn [GateRuns.serve].
    pose proof (Hf 0%nat ltac:(cbn; lia)) as F0. rewrite Nat.add_0_r in F0.
    pose proof (Hfind 0%nat ltac:(cbn; lia)) as H0. rewrite Nat.add_0_r in H0.
    rewrite (Hstep k w (or_introl eq_refl) eq_refl F0 H0).
    destruct (IH (looked_up uid w) uid i s) as (w' & Hrun & Hsubs).
    + intros k' w1 Hin Hs. apply Hstep; [by right | exact Hs].
    + intros n Hn. cbn [GateRuns.looked_up nops].
      replace (S (nops w) + n)%nat with (nops w + S n)%nat by lia.
      apply Hf. cbn. lia.
    + intros n Hn. cbn [GateRuns.looked_up nticks subs].
      replace (S (nticks w) + n)%nat with (nticks w + S n)%nat by lia.
      apply Hfind. cbn. lia.
    + rewrite Hrun. exists w'. split; [reflexivity | exact Hsubs].
Qed.

(** X7: a user whose record is PREMIUM is let through on every one of any
    number of workout and meal requests, in any order, and the collection is
    never written, as long as the store answers and the lookup keeps
    returning that record. *)
Theorem premium_is_never_metered kinds w uid i s :
  (forall n, (n < List.length kinds)%nat -> fault (nops w + n) = None) ->
  (forall n, (n < List.length kinds)%nat ->
     list_find (matches uid (clock (nticks w + n))) (subs w) = Some (i, s)) ->
  plan s = "PREMIUM" ->
  exists w',
    serve kinds (mkRequest (Some uid)) w = (map (fun _ => inr Next) kinds, w')
    /\ subs w' = subs w.
Proof.
  intros Hf Hfind Hplan.
  apply (steady_run (fun _ => Next) kinds w uid i s); [|exact Hf|exact Hfind].
  intros k w1 _ Hs F0 H0. by eapply premium_step.
Qed.


End Facts.

(** *** The theorems at a concrete environment *)

Lemma quota_is_never_exceeded_witness :
  within_quota (subs (snd (Demo.workoutGate Demo.alice (Demo.holding (Demo.free 1)))))
  /\ within_quota (subs (snd (Demo.mealGate Demo.alice (Demo.holding (Demo.free 1))))).
Proof.
  apply (quota_is_never_exceeded unit Demo.clock Demo.fault
           Demo.getFullYear Demo.setFullYear Demo.alice (Demo.holding (Demo.free 1))).
  apply Forall_cons; [|apply Forall_nil]. intros _. cbn. lia.
Defined.

Lemma free_meal_quota_is_two_witness :
  (exists w', Demo.mealGate Demo.alice (Demo.holding (Demo.free 1)) = (inr Next, w')
              /\ (mealPlansGenerated <$> subs w') = [2])
  /\ (exists w', Demo.mealGate Demo.alice (Demo.holding (Demo.free 2))
                = (inr (Respond 403 meal_limit_body), w')
              /\ subs w' = [Demo.free 2])
  /\ (exists w1 w2 w3,
        Demo.mealGate Demo.alice Demo.empty = (inr Next, w1)
        /\ Demo.mealGate Demo.alice w1 = (inr Next, w2)
        /\ Demo.mealGate Demo.alice w2 = (inr (Respond 403 meal_limit_body), w3)
        /\ (mealPlansGenerated <$> subs w3) = [2]).
Proof.
  destruct (free_meal_quota_is_two unit Demo.clock Demo.fault
              Demo.getFullYear Demo.setFullYear) as (Rule & Scenario).
  split; [|split].
  - destruct (Rule (Demo.holding (Demo.free 1)) "alice" 0%nat (Demo.free 1))
      as [Hlt _]; [reflexivity | vm_compute; reflexivity | reflexivity |].
    destruct Hlt as (w' & E & S); [cbn; lia | reflexivity |].
    exists w'. split; [exact E|]. rewrite S. reflexivity.
  - destruct (Rule (Demo.holding (Demo.free 2)) "alice" 0%nat (Demo.free 2))
      as [_ Hge]; [reflexivity | vm_compute; reflexivity | reflexivity |].
    destruct Hge as (w' & E & S); [vm_compute; discriminate |].
    exists w'. split; [exact E | exact S].
  - destruct (Scenario Demo.empty "alice")
      as (w1 & w2 & w3 & E1 & S1 & E2 & S2 & E3 & S3).
    + constructor.
    + intros j _. reflexivity.
    + vm_compute. discriminate.
    + vm_compute. discriminate.
    + exists w1, w2, w3. rewrite S3, S2. repeat split; assumption.
Defined.

Lemma lapsed_subscription_is_replaced_witness :
  exists w',
    Demo.workoutGate Demo.alice
      (Demo.holding (mkSubscription "alice" "FREE" 0 1600000000000 true 2 2))
    = (inr Next, w')
    /\ (workoutPlansGenerated <$> subs w') = [2; 1].
Proof.
  destruct (lapsed_subscription_is_replaced unit Demo.clock Demo.fault
              Demo.getFullYear Demo.setFullYear
              (Demo.holding (mkSubscription "alice" "FREE" 0 1600000000000 true 2 2))
              "alice")
    as [(w' & E & S) _].
  - apply Forall_cons; [|apply Forall_nil].
    intros _. right. vm_compute. reflexivity.
  - intros j _. reflexivity.
  - exists w'. split; [exact E|]. rewrite S. reflexivity.
Defined.

Lemma premium_is_never_metered_witness :
  exists w',
    GateRuns.serve unit Demo.clock Demo.fault Demo.getFullYear Demo.setFullYear
      [Workout; Meal; Workout] Demo.alice (Demo.holding Demo.premium)
    = ([inr Next; inr Next; inr Next], w')
    /\ subs w' = [Demo.premium].
Proof.
  apply (premium_is_never_metered unit Demo.clock Demo.fault
           Demo.getFullYear Demo.setFullYear
           [Workout; Meal; Workout] (Demo.holding Demo.premium)
           "alice" 0%nat Demo.premium).
  - intros n _. reflexivity.
  - intros n Hn. cbn in Hn.
    destruct n as [|[|[|n]]]; [vm_compute; reflexivity.. | lia].
  - reflexivity.
Defined.


End GateMore.

(** ** Plan generation: further properties *)

Module PlannerMore.
Import Eff EffFacts Js JsFacts Planner PlanShape PlannerFacts.

Section Facts.

Variable workoutPrompt : workAttt -> exn + string.
Variable gemini : string -> exn + GeminiResponse.
Variable video : nat -> value -> exn + value.
Variable engine_message : type_error -> string.

Abbreviation raise_type_error := (Planner.raise_type_error engine_message).
Abbreviation getExerciseVideo := (Planner.getExerciseVideo video).
Abbreviation enrich_exercises := (Planner.enrich_exercises video engine_message).
Abbreviation enrich_section := (Planner.enrich_section video engine_message).
Abbreviation enrich_days := (Planner.enrich_days video engine_message).
Abbreviation invalid_data := (Planner.invalid_data engine_message).
Abbreviation generate :=
  (Planner.generate workoutPrompt gemini video engine_message).
Abbreviation workoutPlanGenerator :=
  (Planner.workoutPlanGenerator workoutPrompt gemini video engine_message).
Abbreviation tidy_generate :=
  (PlannerFacts.tidy_generate workoutPrompt gemini video engine_message).
Abbreviation raise_inr := (PlannerFacts.raise_inr engine_message).
Abbreviation lift_inr := (@PlannerFacts.lift_inr).
Abbreviation invalid_data_world := (PlannerFacts.invalid_data_world engine_message).

(** X9: the lookup that throws is the last one made: every lookup before it
    was answered and none follows it. *)
Theorem no_lookup_after_a_throw a w before name e after :
  snd (workoutPlanGenerator a w) = w ++ before ++ (name, inl e) :: after ->
  after = [] /\ Forall answered before.
Proof.
  unfold Planner.workoutPlanGenerator, try_catch.
  destruct (generate a w) as [[e0|o] w1] eqn:Egen; cbn [snd];
    destruct (tidy_generate _ _ _ _ Egen) as (new & -> & Hnew);
    intros Hw; apply app_inv_head in Hw; subst new.
  - destruct Hnew as [Hall|(done & n & Heq & Hall)].
    + apply Forall_app in Hall as [_ Hall]. inversion Hall as [|? ? [url Hu] _].
      discriminate Hu.
    + induction after as [|x after' _] using rev_ind.
      * apply (app_inj_tail before done) in Heq as [-> _]. auto.
      * exfalso.
        change (before ++ (name, inl e) :: after' ++ [x])
          with (before ++ ((name, inl e) :: after') ++ [x]) in Heq.
        rewrite app_assoc in Heq. apply app_inj_tail in Heq as [<- _].
        apply Forall_app in Hall as [_ Hall].
        inversion Hall as [|? ? [url Hu] _]. discriminate Hu.
  - apply Forall_app in Hnew as [_ Hall]. inversion Hall as [|? ? [url Hu] _].
    discriminate Hu.
Qed.

Lemma invalid_data_true_inv d w w' :
  invalid_data d w = (inr true, w') -> no_plan d.
Proof.
  unfold Planner.invalid_data, Planner.isWorkoutPlan, no_plan.
  destruct (truthy d) eqn:Ed; cbn; [|auto].
  destruct (has_in "workout_plan" d) as [te|[|]] eqn:Ein; cbn;
    [discriminate| |auto].
  eff_unfold. cbn.
  destruct (get_prop d "workout_plan") as [te|plan] eqn:Eget; cbn;
    [discriminate|].
  destruct (truthy plan) eqn:Ep; cbn; [discriminate|].
  intros _. right. right. eauto.
Qed.

(** Past validation, the [try] block returns a plan or raises. *)
Lemma validated_returns_plan a w prompt result o w' :
  workoutPrompt a = inr prompt ->
  gemini prompt = inr result ->
  success result = true ->
  invalid_data (data result) w = (inr false, w) ->
  generate a w = (inr o, w') ->
  exists m plan, o = Success m plan.
Proof.
  intros Hp Hg Hs Hinv. unfold Planner.generate.
  rewrite bind_run. unfold lift at 1. rewrite Hp.
  rewrite bind_run. unfold lift at 1. rewrite Hg, Hs. cbn [negb].
  rewrite bind_run, Hinv. intros Hrun.
  do 8 (apply bind_inr_inv in Hrun as (? & ? & _ & Hrun)).
  injection Hrun as <- _. eauto.
Qed.

Lemma no_plan_missing d : no_plan d -> missing_plan d.
Proof.
  unfold no_plan, missing_plan, prop_of.
  intros [Hd|[Hin|(Hin & plan & Hget & Hplan)]]; [by left| |]; right.
  - destruct d as [| | | | |elems props|props]; try discriminate Hin;
      (split; [exact I|]); revert Hin;
      unfold has_in, get_prop, has_key, assoc_or_undef;
      rewrite ?PlannerFacts.workout_plan_not_index;
      destruct (assoc "workout_plan" props); intros [=]; reflexivity.
  - rewrite Hget. split; [|exact Hplan].
    destruct d; try discriminate Hin; exact I.
Qed.

(** X10: for a response with [success] true, the validation failure
    [{success:false, message:"Invalid workout plan data received"}] is
    returned exactly when the payload is falsy, or is an object (or an
    array) whose [workout_plan] is absent or falsy.  A payload that is a
    truthy primitive is not among them: the [in] test throws on it and the
    [catch] clause answers with its own message and the text of that
    [TypeError]. *)
Theorem invalid_data_reported_iff_no_plan a w prompt result :
  workoutPrompt a = inr prompt ->
  gemini prompt = inr result ->
  success result = true ->
  ((exists err, fst (workoutPlanGenerator a w)
                = inr (Failure (VStr "Invalid workout plan data received") err))
   <-> missing_plan (data result))
  /\ (truthy (data result) = true ->
      ~ is_object (data result) ->
      ~ missing_plan (data result)
      /\ workoutPlanGenerator a w
         = (inr (Failure (VStr "Failed to generate workout plan")
                         (VStr (engine_message (BadInOperand (data result))))),
            w)).
Proof.
  intros Hp Hg Hs. split; [split|].
  - intros [err Hrun]. apply no_plan_missing.
    unfold Planner.workoutPlanGenerator, try_catch in Hrun.
    destruct (invalid_data (data result) w) as [[e|[|]] w1] eqn:Einv;
      pose proof (invalid_data_world _ _ _ _ Einv) as ->.
    + exfalso. revert Hrun. unfold Planner.generate.
      rewrite bind_run. unfold lift at 1. rewrite Hp.
      rewrite bind_run. unfold lift at 1. rewrite Hg, Hs. cbn [negb].
      rewrite bind_run, Einv. cbn. discriminate.
    + by eapply invalid_data_true_inv.
    + exfalso.
      destruct (generate a w) as [[e|o] w1] eqn:Egen; cbn in Hrun.
      * discriminate Hrun.
      * destruct (validated_returns_plan _ _ _ _ _ _ Hp Hg Hs Einv Egen)
          as (m & plan & ->).
        discriminate Hrun.
  - intros Hbad%PlannerFacts.missing_plan_cases.
    exists (VStr "Missing workout plan data").
    unfold Planner.workoutPlanGenerator, try_catch, Planner.generate.
    rewrite bind_run. unfold lift at 1. rewrite Hp.
    rewrite bind_run. unfold lift at 1. rewrite Hg, Hs. cbn [negb].
    by rewrite bind_run,
      (PlannerFacts.invalid_data_true engine_message _ _ Hbad).
  - intros Ht Hobj. split.
    + intros [Hf|[Ho _]]; [congruence | contradiction].
    + by eapply PlannerFacts.primitive_payload_is_caught.
Qed.

Abbreviation enrich_section_ok :=
  (PlannerFacts.enrich_section_ok video engine_message).
Abbreviation enrich_days_frame :=
  (PlannerFacts.enrich_days_frame video engine_message).
Abbreviation video_inr := (PlannerFacts.video_inr video).

(** *** Which plans generation accepts *)

Lemma update_prop_object v k x : is_object v -> is_object (update_prop v k x).
Proof.
  destruct v as [| | | | |elems props|props]; try (cbn; tauto). intros _.
  unfold update_prop. destruct (parse_index k) as [i|]; [|exact I].
  by destruct (i <? List.length elems)%nat.
Qed.

Lemma enrich_exercises_objects items : forall w items' w',
  enrich_exercises items w = (inr items', w') ->
  Forall is_object items /\ Forall is_object items'.
Proof.
  induction items as [|e rest IH]; intros w items' w' Hrun.
  - injection Hrun as <- <-. auto.
  - cbn [Planner.enrich_exercises] in Hrun.
    apply bind_inr_inv in Hrun as (name & w1 & _ & Hrun).
    apply bind_inr_inv in Hrun as (url & w2 & _ & Hrun).
    apply bind_inr_inv in Hrun as (e' & w3 & Hset & Hrun).
    apply raise_inr in Hset as [Hset ->].
    apply set_prop_inr in Hset as [Hobj ->].
    apply bind_inr_inv in Hrun as (rest' & w4 & Hrest & Hrun).
    injection Hrun as <- <-.
    apply IH in Hrest as [H1 H2].
    split; constructor; auto using update_prop_object.
Qed.

Lemma enrich_section_usable section w section' w' :
  enrich_section section w = (inr section', w') -> usable_section section.
Proof.
  unfold Planner.enrich_section. intros Hrun.
  apply bind_inr_inv in Hrun as (exs & w1 & Hexs & Hrun).
  apply raise_inr in Hexs as [Hexs ->].
  apply bind_inr_inv in Hrun as (items & w2 & Hit & Hrun).
  apply raise_inr in Hit as [Hit ->].
  apply bind_inr_inv in Hrun as (items' & w3 & Hitems & Hrun).
  apply enrich_exercises_objects in Hitems as [Hobj _].
  exists exs, items. auto.
Qed.

Lemma usable_is_object section : usable_section section -> is_object section.
Proof.
  intros (exs & items & Hexs & Hit & _).
  eapply PlannerFacts.has_exercises_object; eassumption.
Qed.

Lemma enrich_days_usable days : forall workoutPlan w workoutPlan' w' daily,
  get_prop workoutPlan "daily_workouts" = inr daily ->
  enrich_days days workoutPlan w = (inr workoutPlan', w') ->
  forall day, In day days ->
    exists workout, get_prop daily day = inr workout /\ usable_section workout.
Proof.
  induction days as [|day rest IH];
    intros wp w wp' w' daily Hdaily Hrun d Hd; [destruct Hd|].
  cbn [Planner.enrich_days] in Hrun.
  apply bind_inr_inv in Hrun as (daily0 & w1 & Hd0 & Hrun).
  apply raise_inr in Hd0 as [Hd0 ->].
  assert (daily0 = daily) as -> by congruence.
  apply bind_inr_inv in Hrun as (workout & w2 & Hw & Hrun).
  apply raise_inr in Hw as [Hw ->].
  apply bind_inr_inv in Hrun as (workout' & w3 & Hsec & Hrun).
  pose proof (enrich_section_usable _ _ _ _ Hsec) as Huse.
  destruct (String.string_dec d day) as [->|Hne]; [eauto|].
  destruct Hd as [->|Hd]; [contradiction|].
  pose proof (usable_is_object _ Huse) as Hobj.
  pose proof (get_prop_object _ _ _ Hw Hobj) as Hobj_daily.
  pose proof (get_prop_object _ _ _ Hdaily Hobj_daily) as Hobj_wp.
  destruct (IH _ _ _ _ (update_prop daily day workout')
              (get_update_same _ _ _ Hobj_wp) Hrun d Hd)
    as (x & Hx & Hux).
  exists x. split; [|exact Hux].
  rewrite get_update_other in Hx by congruence. exact Hx.
Qed.

(** X11: generation returns [success:true] only for a payload whose
    [workout_plan] is well shaped: [daily_workouts] has keys, and every day,
    [warm_up] and [cool_down] hold a list of exercises that are objects. *)
Theorem success_only_on_well_shaped a w m plan' :
  fst (workoutPlanGenerator a w) = inr (Success m plan') ->
  exists prompt result plan,
    workoutPrompt a = inr prompt
    /\ gemini prompt = inr result
    /\ success result = true
    /\ get_prop (data result) "workout_plan" = inr plan
    /\ well_shaped plan.
Proof.
  unfold Planner.workoutPlanGenerator, try_catch.
  destruct (generate a w) as [[e|o] w'] eqn:Hrun; cbn; [discriminate|].
  intros [= ->]. unfold Planner.generate in Hrun.
  apply bind_inr_inv in Hrun as (prompt & w1 & Hp & Hrun).
  apply lift_inr in Hp as [Hp ->].
  apply bind_inr_inv in Hrun as (result & w1 & Hg & Hrun).
  apply lift_inr in Hg as [Hg ->].
  destruct (success result) eqn:Hs; cbn [negb] in Hrun; [|discriminate].
  apply bind_inr_inv in Hrun as (invalid & w1 & Hinv & Hrun).
  apply invalid_data_world in Hinv as ->.
  destruct invalid; [discriminate|].
  apply bind_inr_inv in Hrun as (wp & w1 & Hwp & Hrun).
  apply raise_inr in Hwp as [Hwp ->].
  apply bind_inr_inv in Hrun as (daily & w1 & Hdaily & Hrun).
  apply raise_inr in Hdaily as [Hdaily ->].
  apply bind_inr_inv in Hrun as (days & w1 & Hdays & Hrun).
  apply raise_inr in Hdays as [Hdays ->].
  apply bind_inr_inv in Hrun as (wp1 & w1 & Hloop & Hrun).
  pose proof (enrich_days_frame _ _ _ _ _ Hloop) as Hframe.
  pose proof (enrich_days_usable _ _ _ _ _ _ Hdaily Hloop) as Hdaysok.
  apply bind_inr_inv in Hrun as (wu & w2 & Hwu & Hrun).
  apply raise_inr in Hwu as [Hwu ->].
  apply bind_inr_inv in Hrun as (wu' & w2 & Hwarm & Hrun).
  pose proof (enrich_section_usable _ _ _ _ Hwarm) as Hwarmok.
  apply bind_inr_inv in Hrun as (cd & w3 & Hcd & Hrun).
  apply raise_inr in Hcd as [Hcd ->].
  apply bind_inr_inv in Hrun as (cd' & w3 & Hcool & Hrun).
  pose proof (enrich_section_usable _ _ _ _ Hcool) as Hcoolok.
  rewrite get_update_other in Hcd by discriminate.
  rewrite Hframe in Hwu, Hcd by discriminate.
  exists prompt, result, wp. repeat (split; [assumption|]).
  split; [|split]; eauto.
Qed.

(** *** The lookups of a successful generation, one by one *)

Abbreviation names := (map (prop_of "name")).
Abbreviation answers := (map (fun e => @inr exn value (prop_of "gif_url" e))).

Lemma prop_of_get v k x : get_prop v k = inr x -> prop_of k v = x.
Proof. unfold prop_of. by intros ->. Qed.

Lemma enrich_exercises_trace items : forall w items' w',
  enrich_exercises items w = (inr items', w') ->
  exists new,
    w' = w ++ new
    /\ map fst new = names items
    /\ map snd new = answers items'
    /\ Forall2 same_but_gif_url items items'.
Proof.
  induction items as [|e rest IH]; intros w items' w' Hrun.
  - injection Hrun as <- <-. exists []. rewrite app_nil_r.
    repeat split; constructor.
  - cbn [Planner.enrich_exercises] in Hrun.
    apply bind_inr_inv in Hrun as (name & w1 & Hname & Hrun).
    apply raise_inr in Hname as [Hname ->].
    apply bind_inr_inv in Hrun as (url & w2 & Hurl & Hrun).
    apply video_inr in Hurl as ->.
    apply bind_inr_inv in Hrun as (e' & w3 & Hset & Hrun).
    apply raise_inr in Hset as [Hset ->].
    apply set_prop_inr in Hset as [Hobj ->].
    apply bind_inr_inv in Hrun as (rest' & w4 & Hrest & Hrun).
    injection Hrun as <- <-.
    apply IH in Hrest as (new & -> & Hn & Ha & Hsame).
    exists ((name, inr url) :: new). split; [by rewrite <- app_assoc|].
    cbn [map fst snd]. rewrite Hn, Ha.
    rewrite (prop_of_get _ _ _ Hname),
            (prop_of_get _ _ _ (get_update_same e "gif_url" url Hobj)).
    repeat split. constructor; [|exact Hsame].
    intros k Hk. apply get_update_other. congruence.
Qed.

Lemma enrich_section_trace section w section' w' :
  enrich_section section w = (inr section', w') ->
  exists new,
    w' = w ++ new
    /\ map fst new = names (section_items section)
    /\ map snd new = answers (section_items section')
    /\ same_section section section'.
Proof.
  unfold Planner.enrich_section. intros Hrun.
  apply bind_inr_inv in Hrun as (exs & w1 & Hexs & Hrun).
  apply raise_inr in Hexs as [Hexs ->].
  apply bind_inr_inv in Hrun as (items & w2 & Hit & Hrun).
  apply raise_inr in Hit as [Hit ->].
  apply bind_inr_inv in Hrun as (items' & w3 & Hitems & Hrun).
  injection Hrun as <- <-.
  pose proof (PlannerFacts.has_exercises_object _ _ _ Hexs Hit) as Hobj.
  pose proof (PlannerFacts.iterate_with_items video engine_message
                _ _ _ _ _ Hit Hitems) as Hit'.
  apply enrich_exercises_trace in Hitems as (new & -> & Hn & Ha & Hsame).
  assert (section_items section = items) as Es
    by (unfold section_items; by rewrite Hexs, Hit).
  assert (section_items
            (update_prop section "exercises" (with_items exs items')) = items')
    as Es'
    by (unfold section_items; by rewrite get_update_same, Hit').
  exists new. unfold same_section. rewrite Es, Es'.
  split; [reflexivity|]. split; [exact Hn|]. split; [exact Ha|].
  split; [|exact Hsame].
  intros k Hk. apply get_update_other. congruence.
Qed.

Lemma enrich_days_trace days : forall workoutPlan w workoutPlan' w' daily,
  List.NoDup days ->
  get_prop workoutPlan "daily_workouts" = inr daily ->
  enrich_days days workoutPlan w = (inr workoutPlan', w') ->
  exists new daily',
    w' = w ++ new
    /\ get_prop workoutPlan' "daily_workouts" = inr daily'
    /\ map fst new
       = names (concat (map (fun d => section_items (prop_of d daily)) days))
    /\ map snd new
       = answers (concat (map (fun d => section_items (prop_of d daily')) days))
    /\ Forall2 same_section
         (map (fun d => prop_of d daily) days)
         (map (fun d => prop_of d daily') days)
    /\ (forall d, ~ In d days -> get_prop daily' d = get_prop daily d).
Proof.
  induction days as [|day rest IH];
    intros wp w wp' w' daily Hnd Hdaily Hrun.
  - injection Hrun as <- <-. exists [], daily. rewrite app_nil_r.
    repeat split; try assumption. constructor.
  - apply List.NoDup_cons_iff in Hnd as [Hnotin Hnd].
    cbn [Planner.enrich_days] in Hrun.
    apply bind_inr_inv in Hrun as (daily0 & w1 & Hd0 & Hrun).
    apply raise_inr in Hd0 as [Hd0 ->].
    assert (daily0 = daily) as -> by congruence.
    apply bind_inr_inv in Hrun as (workout & w2 & Hw & Hrun).
    apply raise_inr in Hw as [Hw ->].
    apply bind_inr_inv in Hrun as (workout' & w3 & Hsec & Hrun).
    pose proof (usable_is_object _ (enrich_section_usable _ _ _ _ Hsec)) as Hobj.
    pose proof (get_prop_object _ _ _ Hw Hobj) as Hobj_daily.
    pose proof (get_prop_object _ _ _ Hdaily Hobj_daily) as Hobj_wp.
    apply enrich_section_trace in Hsec as (new1 & -> & Hn1 & Ha1 & Hsame1).
    set (daily1 := update_prop daily day workout') in *.
    eapply IH in Hrun
      as (new2 & daily' & -> & Hdaily' & Hn2 & Ha2 & Hsame2 & Hrest);
      [ | exact Hnd | by apply get_update_same ].
    assert (forall d, In d rest -> prop_of d daily1 = prop_of d daily) as Hother.
    { intros d Hd. unfold prop_of, daily1.
      rewrite get_update_other; [reflexivity|]. intros ->. contradiction. }
    assert (prop_of day daily' = workout') as Hday'.
    { apply prop_of_get. rewrite (Hrest _ Hnotin).
      by apply get_update_same. }
    exists (new1 ++ new2), daily'.
    split; [by rewrite app_assoc|]. split; [exact Hdaily'|].
    cbn [map concat]. rewrite !map_app, Hday', (prop_of_get _ _ _ Hw).
    split; [|split; [|split]].
    + f_equal; [exact Hn1|].
      etransitivity; [exact Hn2|]. f_equal. f_equal. apply map_ext_in.
      intros d Hd. by rewrite Hother.
    + f_equal; [exact Ha1 | exact Ha2].
    + constructor; [exact Hsame1|].
      rewrite <- (map_ext_in _ _ rest
                    (fun d Hd => Hother d Hd)). exact Hsame2.
    + intros d Hd. rewrite Hrest by (intros Hin; apply Hd; by right).
      apply get_update_other. intros ->. apply Hd. by left.
Qed.

Lemma exercises_of_sections (f : string -> value) days a b :
  concat (map section_items (map f days ++ [a; b]))
  = concat (map (fun d => section_items (f d)) days)
    ++ section_items a ++ section_items b.
Proof.
  rewrite map_app, concat_app, map_map. cbn. by rewrite app_nil_r.
Qed.

(** Everything a successful generation did, section by section. *)
Lemma generation_trace a w m plan' w' prompt result plan :
  generate a w = (inr (Success m plan'), w') ->
  workoutPrompt a = inr prompt ->
  gemini prompt = inr result ->
  get_prop (data result) "workout_plan" = inr plan ->
  List.NoDup (day_keys plan) ->
  exists new,
    w' = w ++ new
    /\ map fst new = names (plan_exercises plan)
    /\ map snd new = answers (plan_exercises plan')
    /\ Forall2 same_section (plan_sections plan) (plan_sections plan')
    /\ day_keys plan' = day_keys plan
    /\ (forall k, k <> "daily_workouts" -> k <> "warm_up" -> k <> "cool_down" ->
          get_prop plan' k = get_prop plan k).
Proof.
  intros Hrun Hp Hg Hget Hnd. unfold Planner.generate in Hrun.
  apply bind_inr_inv in Hrun as (prompt0 & w1 & Hp0 & Hrun).
  apply lift_inr in Hp0 as [Hp0 ->].
  assert (prompt0 = prompt) as -> by congruence.
  apply bind_inr_inv in Hrun as (result0 & w1 & Hg0 & Hrun).
  apply lift_inr in Hg0 as [Hg0 ->].
  assert (result0 = result) as -> by congruence.
  destruct (success result) eqn:Hs; cbn [negb] in Hrun; [|discriminate].
  apply bind_inr_inv in Hrun as (invalid & w1 & Hinv & Hrun).
  apply invalid_data_world in Hinv as ->.
  destruct invalid; [discriminate|].
  apply bind_inr_inv in Hrun as (wp & w1 & Hwp & Hrun).
  apply raise_inr in Hwp as [Hwp ->].
  assert (wp = plan) as -> by congruence.
  apply bind_inr_inv in Hrun as (daily & w1 & Hdaily & Hrun).
  apply raise_inr in Hdaily as [Hdaily ->].
  apply bind_inr_inv in Hrun as (days & w1 & Hdays & Hrun).
  apply raise_inr in Hdays as [Hdays ->].
  assert (day_keys plan = days) as Ekeys
    by (unfold day_keys; by rewrite (prop_of_get _ _ _ Hdaily), Hdays).
  rewrite Ekeys in Hnd.
  apply bind_inr_inv in Hrun as (wp1 & w1 & Hloop & Hrun).
  pose proof (enrich_days_frame _ _ _ _ _ Hloop) as Hframe.
  destruct (PlannerFacts.enrich_days_ok video engine_message
              _ _ _ _ _ _ _ Hdaily Hdays (incl_refl _) Hloop)
    as (new0 & daily0 & _ & Hdaily0 & Hkeys0 & _).
  destruct (enrich_days_trace _ _ _ _ _ _ Hnd Hdaily Hloop)
    as (new1 & daily' & -> & Hdaily' & Hn1 & Ha1 & Hsame1 & _).
  assert (daily0 = daily') as -> by congruence.
  apply bind_inr_inv in Hrun as (wu & w2 & Hwu & Hrun).
  apply raise_inr in Hwu as [Hwu ->].
  apply bind_inr_inv in Hrun as (wu' & w2 & Hwarm & Hrun).
  pose proof (usable_is_object _ (enrich_section_usable _ _ _ _ Hwarm)) as Hobj_wu.
  pose proof (get_prop_object _ _ _ Hwu Hobj_wu) as Hobj1.
  apply enrich_section_trace in Hwarm as (new2 & -> & Hn2 & Ha2 & Hsame2).
  apply bind_inr_inv in Hrun as (cd & w3 & Hcd & Hrun).
  apply raise_inr in Hcd as [Hcd ->].
  apply bind_inr_inv in Hrun as (cd' & w3 & Hcool & Hrun).
  pose proof (usable_is_object _ (enrich_section_usable _ _ _ _ Hcool)) as Hobj_cd.
  pose proof (get_prop_object _ _ _ Hcd Hobj_cd) as Hobj2.
  apply enrich_section_trace in Hcool as (new3 & -> & Hn3 & Ha3 & Hsame3).
  injection Hrun as <- <- <-.
  set (plan' := update_prop (update_prop wp1 "warm_up" wu') "cool_down" cd').
  assert (get_prop plan' "daily_workouts" = inr daily') as Edaily'
    by (unfold plan'; by rewrite !get_update_other by discriminate).
  assert (get_prop plan' "warm_up" = inr wu') as Ewu'
    by (unfold plan'; rewrite get_update_other by discriminate;
        by apply get_update_same).
  assert (get_prop plan' "cool_down" = inr cd') as Ecd'
    by (unfold plan'; by apply get_update_same).
  rewrite get_update_other in Hcd by discriminate.
  rewrite Hframe in Hwu, Hcd by discriminate.
  assert (day_keys plan' = days) as Ekeys'
    by (unfold day_keys; by rewrite (prop_of_get _ _ _ Edaily'), Hkeys0).
  assert (plan_sections plan
          = map (fun d => prop_of d daily) days ++ [wu; cd]) as Esec.
  { unfold plan_sections.
    by rewrite Ekeys, (prop_of_get _ _ _ Hdaily), (prop_of_get _ _ _ Hwu),
               (prop_of_get _ _ _ Hcd). }
  assert (plan_sections plan'
          = map (fun d => prop_of d daily') days ++ [wu'; cd']) as Esec'.
  { unfold plan_sections.
    by rewrite Ekeys', (prop_of_get _ _ _ Edaily'), (prop_of_get _ _ _ Ewu'),
               (prop_of_get _ _ _ Ecd'). }
  exists (new1 ++ new2 ++ new3). split; [by rewrite <- !app_assoc|].
  unfold plan_exercises. rewrite Esec, Esec', !exercises_of_sections, !map_app.
  split; [|split; [|split; [|split]]].
  - f_equal; [exact Hn1|]. f_equal; [exact Hn2 | exact Hn3].
  - f_equal; [exact Ha1|]. f_equal; [exact Ha2 | exact Ha3].
  - apply Forall2_app; [exact Hsame1|].
    apply Forall2_cons; [exact Hsame2|].
    apply Forall2_cons; [exact Hsame3|]. apply Forall2_nil.
  - congruence.
  - intros k K1 K2 K3. unfold plan'.
    rewrite !get_update_other by congruence. by apply Hframe.
Qed.

(** X12: in a successful generation over a plan whose days have distinct
    keys, there is exactly one lookup per exercise and they are made in the
    order of the plan (the days in key order, then [warm_up], then
    [cool_down]): the i-th lookup is made with the name of the i-th exercise,
    and the i-th exercise of the returned plan carries what it answered. *)
Theorem one_lookup_per_exercise_in_order a w m plan' w' prompt result plan :
  workoutPlanGenerator a w = (inr (Success m plan'), w') ->
  workoutPrompt a = inr prompt ->
  gemini prompt = inr result ->
  get_prop (data result) "workout_plan" = inr plan ->
  List.NoDup (day_keys plan) ->
  exists new,
    w' = w ++ new
    /\ map fst new = map (prop_of "name") (plan_exercises plan)
    /\ map snd new = map (fun e => inr (prop_of "gif_url" e)) (plan_exercises plan')
    /\ List.length new = List.length (plan_exercises plan).
Proof.
  intros Hrun Hp Hg Hget Hnd.
  unfold Planner.workoutPlanGenerator, try_catch in Hrun.
  destruct (generate a w) as [[e|o] w1] eqn:Hgen; [discriminate|].
  injection Hrun as -> ->.
  destruct (generation_trace _ _ _ _ _ _ _ _ Hgen Hp Hg Hget Hnd)
    as (new & -> & Hn & Ha & _).
  exists new. repeat split; try assumption.
  pose proof (f_equal (@List.length _) Hn) as Hlen.
  rewrite !List.length_map in Hlen. exact Hlen.
Qed.

(** X13: a successful generation over a plan whose days have distinct keys
    returns the plan it was given with nothing changed but the [gif_url] of
    its exercises: the same days, the same sections with the same other
    fields, as many exercises in each with the same other fields, and the
    same fields beside the three sections. *)
Theorem only_gif_url_changes a w m plan' w' prompt result plan :
  workoutPlanGenerator a w = (inr (Success m plan'), w') ->
  workoutPrompt a = inr prompt ->
  gemini prompt = inr result ->
  get_prop (data result) "workout_plan" = inr plan ->
  List.NoDup (day_keys plan) ->
  day_keys plan' = day_keys plan
  /\ Forall2 same_section (plan_sections plan) (plan_sections plan')
  /\ (forall k, k <> "daily_workouts" -> k <> "warm_up" -> k <> "cool_down" ->
        get_prop plan' k = get_prop plan k).
Proof.
  intros Hrun Hp Hg Hget Hnd.
  unfold Planner.workoutPlanGenerator, try_catch in Hrun.
  destruct (generate a w) as [[e|o] w1] eqn:Hgen; [discriminate|].
  injection Hrun as -> ->.
  destruct (generation_trace _ _ _ _ _ _ _ _ Hgen Hp Hg Hget Hnd)
    as (new & _ & _ & _ & Hsame & Hkeys & Hother).
  auto.
Qed.

(** *** What a successful generation did to the plan of the AI client *)

Lemma recorded_nil w : recorded video w [].
Proof. intros i name answer Hi. by destruct i. Qed.

Lemma recorded_app w new1 new2 :
  recorded video w new1 -> recorded video (w ++ new1) new2 ->
  recorded video w (new1 ++ new2).
Proof.
  intros H1 H2 i name answer Hi.
  apply lookup_app_Some in Hi as [Hi|[Hle Hi]]; [by apply H1|].
  apply H2 in Hi. rewrite List.length_app in Hi. rewrite Hi. f_equal.
  change (length new1) with (List.length new1) in *. lia.
Qed.

Lemma honest_ret {A} (a : A) : honest video (mret a : Eff.M World exn A).
Proof.
  intros w r w' [= <- <-]. exists []. rewrite app_nil_r.
  split; [reflexivity | apply recorded_nil].
Qed.

Lemma honest_lift {A} (x : exn + A) : honest video (lift x : Eff.M World exn A).
Proof.
  intros w r w' [= <- <-]. exists []. rewrite app_nil_r.
  split; [reflexivity | apply recorded_nil].
Qed.

Lemma honest_raise {A} (x : type_error + A) : honest video (raise_type_error x).
Proof.
  intros w r w'. destruct x; cbn; intros [= <- <-]; exists [];
    rewrite app_nil_r; (split; [reflexivity | apply recorded_nil]).
Qed.

Lemma honest_bind {A B} (m : Eff.M World exn A) (k : A -> Eff.M World exn B) :
  honest video m -> (forall a, honest video (k a)) -> honest video (m ≫= k).
Proof.
  intros Hm Hk w r w'. rewrite bind_run.
  destruct (m w) as [[e|a] w1] eqn:Em.
  - intros [= <- <-]. exact (Hm _ _ _ Em).
  - intros Ek. destruct (Hm _ _ _ Em) as (new1 & -> & H1).
    destruct (Hk a _ _ _ Ek) as (new2 & -> & H2).
    exists (new1 ++ new2). split; [by rewrite app_assoc|].
    by apply recorded_app.
Qed.

Lemma honest_video name : honest video (getExerciseVideo name).
Proof.
  intros w r w'. unfold Planner.getExerciseVideo. intros [= <- <-].
  exists [(name, video (List.length w) name)]. split; [reflexivity|].
  intros [|i] n answer; [|by destruct i].
  intros [= <- <-]. by rewrite Nat.add_0_r.
Qed.

Lemma honest_enrich_exercises items : honest video (enrich_exercises items).
Proof.
  induction items as [|e rest IH]; cbn [Planner.enrich_exercises].
  - apply honest_ret.
  - apply honest_bind; [apply honest_raise|]. intros name.
    apply honest_bind; [apply honest_video|]. intros url.
    apply honest_bind; [apply honest_raise|]. intros e'.
    apply honest_bind; [exact IH|]. intros rest'. apply honest_ret.
Qed.

Lemma honest_enrich_section section : honest video (enrich_section section).
Proof.
  unfold Planner.enrich_section.
  apply honest_bind; [apply honest_raise|]. intros exs.
  apply honest_bind; [apply honest_raise|]. intros items.
  apply honest_bind; [apply honest_enrich_exercises|]. intros items'.
  apply honest_ret.
Qed.

Lemma honest_enrich_days days :
  forall workoutPlan, honest video (enrich_days days workoutPlan).
Proof.
  induction days as [|day rest IH]; intros wp; cbn [Planner.enrich_days].
  - apply honest_ret.
  - apply honest_bind; [apply honest_raise|]. intros daily.
    apply honest_bind; [apply honest_raise|]. intros workout.
    apply honest_bind; [apply honest_enrich_section|]. intros workout'.
    apply IH.
Qed.

Lemma honest_invalid_data d : honest video (invalid_data d).
Proof.
  unfold Planner.invalid_data.
  destruct (negb (truthy d)); [apply honest_ret|].
  apply honest_bind; [apply honest_raise|]. intros guard.
  destruct (negb (truthy guard)); [apply honest_ret|].
  apply honest_bind; [apply honest_raise|]. intros plan. apply honest_ret.
Qed.

Lemma honest_generate a : honest video (generate a).
Proof.
  unfold Planner.generate.
  apply honest_bind; [apply honest_lift|]. intros prompt.
  apply honest_bind; [apply honest_lift|]. intros result.
  destruct (negb (success result)); [apply honest_ret|].
  apply honest_bind; [apply honest_invalid_data|].
  intros [|]; [apply honest_ret|].
  apply honest_bind; [apply honest_raise|]. intros wp.
  apply honest_bind; [apply honest_raise|]. intros daily.
  apply honest_bind; [apply honest_raise|]. intros days.
  apply honest_bind; [apply honest_enrich_days|]. intros wp1.
  apply honest_bind; [apply honest_raise|]. intros warm_up.
  apply honest_bind; [apply honest_enrich_section|]. intros warm_up'.
  apply honest_bind; [apply honest_raise|]. intros cool_down.
  apply honest_bind; [apply honest_enrich_section|]. intros cool_down'.
  apply honest_ret.
Qed.

Lemma same_but_gif_url_refl e : same_but_gif_url e e.
Proof. by intros k _. Qed.

Lemma same_section_refl s : same_section s s.
Proof.
  split; [by intros k _|].
  induction (section_items s) as [|e l IH]; constructor;
    [apply same_but_gif_url_refl | exact IH].
Qed.

Lemma same_items_trans l1 : forall l2 l3,
  Forall2 same_but_gif_url l1 l2 -> Forall2 same_but_gif_url l2 l3 ->
  Forall2 same_but_gif_url l1 l3.
Proof.
  induction l1 as [|e1 l1 IH]; intros l2 l3 H12 H23.
  - inversion H12; subst. inversion H23; subst. constructor.
  - inversion H12 as [|? e2 ? l2' He12 Hl12]; subst.
    inversion H23 as [|? e3 ? l3' He23 Hl23]; subst.
    constructor; [|by eapply IH].
    intros k Hk. by rewrite (He23 k Hk), (He12 k Hk).
Qed.

Lemma same_section_trans s1 s2 s3 :
  same_section s1 s2 -> same_section s2 s3 -> same_section s1 s3.
Proof.
  intros [H12 I12] [H23 I23]. split.
  - intros k Hk. by rewrite (H23 k Hk), (H12 k Hk).
  - by eapply same_items_trans.
Qed.

Lemma same_items_names l l' :
  Forall2 same_but_gif_url l l' -> names l = names l'.
Proof.
  induction 1 as [|e e' l l' He _ IH]; [reflexivity|].
  cbn [map]. rewrite IH. f_equal. unfold prop_of.
  by rewrite (He "name") by discriminate.
Qed.

Lemma same_section_names s s' :
  same_section s s' -> names (section_items s) = names (section_items s').
Proof. intros [_ H]. by apply same_items_names. Qed.

Lemma names_of_days (f g : string -> value) days :
  (forall d, same_section (f d) (g d)) ->
  names (concat (map (fun d => section_items (f d)) days))
  = names (concat (map (fun d => section_items (g d)) days)).
Proof.
  intros H. induction days as [|day days IH]; [reflexivity|].
  cbn [map concat]. rewrite !map_app, IH. f_equal.
  apply same_section_names, H.
Qed.

Lemma sections_of_days (f g : string -> value) days :
  (forall d, same_section (f d) (g d)) ->
  Forall2 same_section (map f days) (map g days).
Proof.
  intros H. induction days as [|day days IH]; constructor; [apply H | exact IH].
Qed.

(** The loop over the days, whatever the keys are: one lookup per exercise
    visited, made with its name, and every day is the section it was but for
    the [gif_url] of its exercises. *)
Lemma enrich_days_shape days : forall workoutPlan w workoutPlan' w' daily,
  get_prop workoutPlan "daily_workouts" = inr daily ->
  enrich_days days workoutPlan w = (inr workoutPlan', w') ->
  exists new daily',
    w' = w ++ new
    /\ get_prop workoutPlan' "daily_workouts" = inr daily'
    /\ map fst new
       = names (concat (map (fun d => section_items (prop_of d daily)) days))
    /\ (forall d, same_section (prop_of d daily) (prop_of d daily')).
Proof.
  induction days as [|day rest IH]; intros wp w wp' w' daily Hdaily Hrun.
  - injection Hrun as <- <-. exists [], daily. rewrite app_nil_r.
    split; [reflexivity|]. split; [assumption|]. split; [reflexivity|].
    intros d. apply same_section_refl.
  - cbn [Planner.enrich_days] in Hrun.
    apply bind_inr_inv in Hrun as (daily0 & w1 & Hd0 & Hrun).
    apply raise_inr in Hd0 as [Hd0 ->].
    assert (daily0 = daily) as -> by congruence.
    apply bind_inr_inv in Hrun as (workout & w2 & Hw & Hrun).
    apply raise_inr in Hw as [Hw ->].
    apply bind_inr_inv in Hrun as (workout' & w3 & Hsec & Hrun).
    pose proof (usable_is_object _ (enrich_section_usable _ _ _ _ Hsec)) as Hobj.
    pose proof (get_prop_object _ _ _ Hw Hobj) as Hobj_daily.
    pose proof (get_prop_object _ _ _ Hdaily Hobj_daily) as Hobj_wp.
    apply enrich_section_trace in Hsec as (new1 & -> & Hn1 & _ & Hsame1).
    set (daily1 := update_prop daily day workout') in *.
    eapply IH in Hrun as (new2 & daily' & -> & Hdaily' & Hn2 & Hsame2);
      [ | by apply get_update_same ].
    assert (forall d, same_section (prop_of d daily) (prop_of d daily1)) as Hstep.
    { intros d. destruct (String.eqb d day) eqn:E.
      - apply String.eqb_eq in E. subst d.
        rewrite (prop_of_get _ _ _ Hw).
        unfold daily1.
        by rewrite (prop_of_get _ _ _ (get_update_same daily day workout' Hobj_daily)).
      - apply String.eqb_neq in E.
        assert (prop_of d daily1 = prop_of d daily) as ->
          by (unfold prop_of, daily1; rewrite get_update_other; congruence).
        apply same_section_refl. }
    exists (new1 ++ new2), daily'.
    split; [by rewrite app_assoc|]. split; [exact Hdaily'|].
    split.
    + cbn [map concat]. rewrite !map_app, (prop_of_get _ _ _ Hw).
      f_equal; [exact Hn1|].
      etransitivity; [exact Hn2|]. symmetry. by apply names_of_days.
    + intros d. eapply same_section_trans; [apply Hstep | apply Hsame2].
Qed.

(** The plan that a successful generation processed. *)
Lemma success_inputs a w m plan' w' :
  generate a w = (inr (Success m plan'), w') ->
  exists prompt result plan,
    workoutPrompt a = inr prompt
    /\ gemini prompt = inr result
    /\ get_prop (data result) "workout_plan" = inr plan.
Proof.
  unfold Planner.generate. intros Hrun.
  apply bind_inr_inv in Hrun as (prompt & w1 & Hp & Hrun).
  apply lift_inr in Hp as [Hp ->].
  apply bind_inr_inv in Hrun as (result & w1 & Hg & Hrun).
  apply lift_inr in Hg as [Hg ->].
  destruct (negb (success result)); [discriminate|].
  apply bind_inr_inv in Hrun as (invalid & w1 & Hinv & Hrun).
  destruct invalid; [discriminate|].
  apply bind_inr_inv in Hrun as (wp & w2 & Hwp & Hrun).
  apply raise_inr in Hwp as [Hwp ->].
  eauto 6.
Qed.

(** Everything a successful generation did, whatever the keys of the days. *)
Lemma generation_shape a w m plan' w' prompt result plan :
  generate a w = (inr (Success m plan'), w') ->
  workoutPrompt a = inr prompt ->
  gemini prompt = inr result ->
  get_prop (data result) "workout_plan" = inr plan ->
  exists new, w' = w ++ new /\ overwritten plan plan' new.
Proof.
  intros Hrun Hp Hg Hget. unfold Planner.generate in Hrun.
  apply bind_inr_inv in Hrun as (prompt0 & w1 & Hp0 & Hrun).
  apply lift_inr in Hp0 as [Hp0 ->].
  assert (prompt0 = prompt) as -> by congruence.
  apply bind_inr_inv in Hrun as (result0 & w1 & Hg0 & Hrun).
  apply lift_inr in Hg0 as [Hg0 ->].
  assert (result0 = result) as -> by congruence.
  destruct (success result) eqn:Hs; cbn [negb] in Hrun; [|discriminate].
  apply bind_inr_inv in Hrun as (invalid & w1 & Hinv & Hrun).
  apply invalid_data_world in Hinv as ->.
  destruct invalid; [discriminate|].
  apply bind_inr_inv in Hrun as (wp & w1 & Hwp & Hrun).
  apply raise_inr in Hwp as [Hwp ->].
  assert (wp = plan) as -> by congruence.
  apply bind_inr_inv in Hrun as (daily & w1 & Hdaily & Hrun).
  apply raise_inr in Hdaily as [Hdaily ->].
  apply bind_inr_inv in Hrun as (days & w1 & Hdays & Hrun).
  apply raise_inr in Hdays as [Hdays ->].
  assert (day_keys plan = days) as Ekeys
    by (unfold day_keys; by rewrite (prop_of_get _ _ _ Hdaily), Hdays).
  apply bind_inr_inv in Hrun as (wp1 & w1 & Hloop & Hrun).
  pose proof (enrich_days_frame _ _ _ _ _ Hloop) as Hframe.
  destruct (PlannerFacts.enrich_days_ok video engine_message
              _ _ _ _ _ _ _ Hdaily Hdays (incl_refl _) Hloop)
    as (new0 & daily0 & _ & Hdaily0 & Hkeys0 & _).
  destruct (enrich_days_shape _ _ _ _ _ _ Hdaily Hloop)
    as (new1 & daily' & -> & Hdaily' & Hn1 & Hsame1).
  assert (daily0 = daily') as -> by congruence.
  apply bind_inr_inv in Hrun as (wu & w2 & Hwu & Hrun).
  apply raise_inr in Hwu as [Hwu ->].
  apply bind_inr_inv in Hrun as (wu' & w2 & Hwarm & Hrun).
  pose proof (usable_is_object _ (enrich_section_usable _ _ _ _ Hwarm)) as Hobj_wu.
  pose proof (get_prop_object _ _ _ Hwu Hobj_wu) as Hobj1.
  apply enrich_section_trace in Hwarm as (new2 & -> & Hn2 & _ & Hsame2).
  apply bind_inr_inv in Hrun as (cd & w3 & Hcd & Hrun).
  apply raise_inr in Hcd as [Hcd ->].
  apply bind_inr_inv in Hrun as (cd' & w3 & Hcool & Hrun).
  pose proof (usable_is_object _ (enrich_section_usable _ _ _ _ Hcool)) as Hobj_cd.
  pose proof (get_prop_object _ _ _ Hcd Hobj_cd) as Hobj2.
  apply enrich_section_trace in Hcool as (new3 & -> & Hn3 & _ & Hsame3).
  injection Hrun as <- <- <-.
  set (plan' := update_prop (update_prop wp1 "warm_up" wu') "cool_down" cd').
  assert (get_prop plan' "daily_workouts" = inr daily') as Edaily'
    by (unfold plan'; by rewrite !get_update_other by discriminate).
  assert (get_prop plan' "warm_up" = inr wu') as Ewu'
    by (unfold plan'; rewrite get_update_other by discriminate;
        by apply get_update_same).
  assert (get_prop plan' "cool_down" = inr cd') as Ecd'
    by (unfold plan'; by apply get_update_same).
  rewrite get_update_other in Hcd by discriminate.
  rewrite Hframe in Hwu, Hcd by discriminate.
  assert (day_keys plan' = days) as Ekeys'
    by (unfold day_keys; by rewrite (prop_of_get _ _ _ Edaily'), Hkeys0).
  assert (plan_sections plan
          = map (fun d => prop_of d daily) days ++ [wu; cd]) as Esec.
  { unfold plan_sections.
    by rewrite Ekeys, (prop_of_get _ _ _ Hdaily), (prop_of_get _ _ _ Hwu),
               (prop_of_get _ _ _ Hcd). }
  assert (plan_sections plan'
          = map (fun d => prop_of d daily') days ++ [wu'; cd']) as Esec'.
  { unfold plan_sections.
    by rewrite Ekeys', (prop_of_get _ _ _ Edaily'), (prop_of_get _ _ _ Ewu'),
               (prop_of_get _ _ _ Ecd'). }
  exists (new1 ++ new2 ++ new3). split; [by rewrite <- !app_assoc|].
  unfold overwritten, plan_exercises.
  rewrite Esec, Esec', !exercises_of_sections, !map_app.
  split; [congruence|]. split.
  - apply Forall2_app; [by apply sections_of_days|].
    apply Forall2_cons; [exact Hsame2|].
    apply Forall2_cons; [exact Hsame3|]. apply Forall2_nil.
  - f_equal; [exact Hn1|]. f_equal; [exact Hn2 | exact Hn3].
Qed.

(** C3: when generation returns [success:true], the returned plan is the
    plan of the AI client with nothing changed but the [gif_url] of its
    exercises: the same days and sections, as many exercises in each, all
    their other fields as they were; one lookup was made per exercise
    visited, in the order of the plan, with the [name] of that exercise;
    every lookup was answered, and what the run recorded for a lookup is
    what the video client returned; every exercise of every day of
    [daily_workouts], of [warm_up] and of [cool_down] carries as [gif_url]
    the answer of a lookup made for its [name], and, the keys of the days
    being distinct as in any object, the i-th exercise carries the answer of
    the i-th lookup.  And when some lookup throws, generation returns
    [success:false] with the message "Failed to generate workout plan" and
    that lookup's error. *)
Theorem success_enriches_every_exercise a w r w' :
  workoutPlanGenerator a w = (r, w') ->
  exists new,
    w' = w ++ new
    /\ recorded video w new
    /\ (forall m plan',
          r = inr (Success m plan') ->
          Forall answered new
          /\ plan_enriched new plan'
          /\ exists prompt result plan,
               workoutPrompt a = inr prompt
               /\ gemini prompt = inr result
               /\ get_prop (data result) "workout_plan" = inr plan
               /\ overwritten plan plan' new
               /\ (List.NoDup (day_keys plan) -> carries_answers plan' new))
    /\ (forall name e,
          In (name, inl e) new ->
          r = inr (Failure (VStr "Failed to generate workout plan")
                           (error_text e))).
Proof.
  intros Hrun.
  destruct (PlannerFacts.enriched_or_caught
              workoutPrompt gemini video engine_message _ _ _ _ Hrun)
    as (new & -> & Hok & Hthrown).
  exists new. split; [reflexivity|].
  unfold Planner.workoutPlanGenerator, try_catch in Hrun.
  destruct (generate a w) as [[e0|o] w1] eqn:Egen; injection Hrun as <- Hw.
  - destruct (honest_generate _ _ _ _ Egen) as (new' & -> & Hrec).
    apply app_inv_head in Hw. subst new'.
    split; [exact Hrec|]. split; [intros m plan' [=] | exact Hthrown].
  - destruct (honest_generate _ _ _ _ Egen) as (new' & -> & Hrec).
    apply app_inv_head in Hw. subst new'.
    split; [exact Hrec|]. split; [|exact Hthrown].
    intros m plan' [= ->].
    destruct (Hok m plan' eq_refl) as [Henr Hans].
    split; [exact Hans|]. split; [exact Henr|].
    destruct (success_inputs _ _ _ _ _ Egen)
      as (prompt & result & plan & Hp & Hg & Hget).
    exists prompt, result, plan. repeat (split; [assumption|]).
    destruct (generation_shape _ _ _ _ _ _ _ _ Egen Hp Hg Hget)
      as (new1 & Hw1 & Hshape).
    apply app_inv_head in Hw1. subst new1.
    split; [exact Hshape|]. intros Hnd.
    destruct (generation_trace _ _ _ _ _ _ _ _ Egen Hp Hg Hget Hnd)
      as (new2 & Hw2 & _ & Ha & _).
    apply app_inv_head in Hw2. subst new2. exact Ha.
Qed.

(** *** Well-shaped plans are accepted *)

Lemma get_prop_of_object v k : is_object v -> exists x, get_prop v k = inr x.
Proof. destruct v; cbn; try tauto; eauto. Qed.

Lemma truthy_object v : is_object v -> truthy v = true.
Proof. destruct v; cbn; tauto. Qed.

Lemma has_key_of_assoc k ps x :
  assoc_or_undef k ps = x -> is_object x -> has_key k ps = true.
Proof.
  unfold assoc_or_undef, has_key. destruct (assoc k ps); [reflexivity|].
  intros <- [].
Qed.

Lemma has_in_of_plan d plan :
  get_prop d "workout_plan" = inr plan -> is_object plan ->
  has_in "workout_plan" d = inr true.
Proof.
  intros Hget Hobj. pose proof (get_prop_object _ _ _ Hget Hobj) as Hd.
  destruct d as [| | | | |elems props|props]; try (by destruct Hd).
  - unfold get_prop, has_in in *.
    change (parse_index "workout_plan") with (@None nat) in *.
    injection Hget as Hget. by rewrite (has_key_of_assoc _ _ _ Hget Hobj).
  - unfold get_prop, has_in in *.
    injection Hget as Hget. by rewrite (has_key_of_assoc _ _ _ Hget Hobj).
Qed.

Section Answering.

(** The video client answers every lookup. *)
Hypothesis answering : forall k name, exists url, video k name = inr url.

Lemma enrich_exercises_runs items : forall w,
  Forall is_object items ->
  exists items' w', enrich_exercises items w = (inr items', w').
Proof.
  induction items as [|e rest IH]; intros w Hobj.
  - eexists _, _. reflexivity.
  - apply Forall_cons_iff in Hobj as [He Hrest].
    cbn [Planner.enrich_exercises].
    destruct (get_prop_of_object e "name" He) as [name Hname].
    rewrite bind_run, Hname, PlannerFacts.raise_ok.
    destruct (answering (List.length w) name) as [url Hurl].
    rewrite bind_run. unfold Planner.getExerciseVideo at 1. rewrite Hurl.
    assert (set_prop e "gif_url" url = inr (update_prop e "gif_url" url)) as Hset
      by (destruct e; cbn in He; try tauto; reflexivity).
    rewrite bind_run, Hset, PlannerFacts.raise_ok.
    destruct (IH (w ++ [(name, inr url)]) Hrest) as (rest' & w' & Hrun).
    rewrite bind_run, Hrun. eexists _, _. reflexivity.
Qed.

Lemma enrich_section_runs section w :
  usable_section section ->
  exists section' w',
    enrich_section section w = (inr section', w') /\ usable_section section'.
Proof.
  intros (exs & items & Hexs & Hit & Hobj).
  destruct (enrich_exercises_runs items w Hobj) as (items' & w' & Hrun).
  pose proof (PlannerFacts.has_exercises_object _ _ _ Hexs Hit) as Hsec.
  exists (update_prop section "exercises" (with_items exs items')), w'.
  split.
  - unfold Planner.enrich_section.
    rewrite bind_run, Hexs, PlannerFacts.raise_ok.
    rewrite bind_run, Hit, PlannerFacts.raise_ok.
    by rewrite bind_run, Hrun.
  - exists (with_items exs items'), items'.
    split; [by apply get_update_same|].
    split; [eapply PlannerFacts.iterate_with_items; eassumption|].
    by apply enrich_exercises_objects in Hrun as [_ H].
Qed.

Lemma enrich_days_runs days : forall workoutPlan w daily,
  get_prop workoutPlan "daily_workouts" = inr daily ->
  (forall day, In day days ->
     exists workout, get_prop daily day = inr workout /\ usable_section workout) ->
  exists workoutPlan' w', enrich_days days workoutPlan w = (inr workoutPlan', w').
Proof.
  induction days as [|day rest IH]; intros wp w daily Hdaily Hdays.
  - eexists _, _. reflexivity.
  - destruct (Hdays day (or_introl eq_refl)) as (workout & Hw & Huse).
    destruct (enrich_section_runs workout w Huse) as (workout' & w1 & Hrun & Huse').
    pose proof (get_prop_object _ _ _ Hw (usable_is_object _ Huse)) as Hobj_daily.
    pose proof (get_prop_object _ _ _ Hdaily Hobj_daily) as Hobj_wp.
    cbn [Planner.enrich_days].
    rewrite bind_run, Hdaily, PlannerFacts.raise_ok.
    rewrite bind_run, Hw, PlannerFacts.raise_ok.
    rewrite bind_run, Hrun.
    apply (IH _ _ (update_prop daily day workout'));
      [by apply get_update_same|].
    intros d Hd. destruct (String.string_dec d day) as [->|Hne].
    + exists workout'. split; [by apply get_update_same | exact Huse'].
    + destruct (Hdays d (or_intror Hd)) as (x & Hx & Hux).
      exists x. split; [|exact Hux].
      rewrite get_update_other by congruence. exact Hx.
Qed.

(** X14: when the AI client returns a well-shaped plan and the video client
    answers every lookup, generation returns [success:true] with the message
    "Workout plan generated successfully". *)
Theorem well_shaped_plan_is_accepted a w prompt result plan :
  workoutPrompt a = inr prompt ->
  gemini prompt = inr result ->
  success result = true ->
  get_prop (data result) "workout_plan" = inr plan ->
  well_shaped plan ->
  exists plan' w',
    workoutPlanGenerator a w
    = (inr (Success "Workout plan generated successfully" plan'), w').
Proof.
  intros Hp Hg Hs Hget ((daily & days & Hdaily & Hkeys & Hdays)
                        & (wu & Hwu & Huse_wu) & (cd & Hcd & Huse_cd)).
  pose proof (get_prop_object _ _ _ Hwu (usable_is_object _ Huse_wu)) as Hobj.
  unfold Planner.workoutPlanGenerator, try_catch, Planner.generate.
  rewrite bind_run. unfold lift at 1. rewrite Hp.
  rewrite bind_run. unfold lift at 1. rewrite Hg, Hs. cbn [negb].
  rewrite bind_run,
    (PlannerFacts.invalid_data_false engine_message _ w _
       (has_in_of_plan _ _ Hget Hobj) Hget (truthy_object _ Hobj)).
  rewrite bind_run, Hget, PlannerFacts.raise_ok.
  rewrite bind_run, Hdaily, PlannerFacts.raise_ok.
  rewrite bind_run, Hkeys, PlannerFacts.raise_ok.
  destruct (enrich_days_runs days plan w daily Hdaily Hdays)
    as (plan1 & w1 & Hloop).
  pose proof (enrich_days_frame _ _ _ _ _ Hloop) as Hframe.
  rewrite bind_run, Hloop.
  rewrite <- (Hframe "warm_up") in Hwu by discriminate.
  rewrite bind_run, Hwu, PlannerFacts.raise_ok.
  destruct (enrich_section_runs wu w1 Huse_wu) as (wu' & w2 & Hwarm & _).
  rewrite bind_run, Hwarm.
  rewrite <- (Hframe "cool_down") in Hcd by discriminate.
  rewrite <- (get_update_other plan1 "warm_up" "cool_down" wu') in Hcd
    by discriminate.
  rewrite bind_run, Hcd, PlannerFacts.raise_ok.
  destruct (enrich_section_runs cd w2 Huse_cd) as (cd' & w3 & Hcool & _).
  rewrite bind_run, Hcool.
  eexists _, _. reflexivity.
Qed.

End Answering.

End Facts.

(** *** The theorems at a concrete environment *)

Lemma no_lookup_after_a_throw_witness :
  snd (run_with flaky_video Demo.full_plan)
  = [(VStr "squat", inr (VStr "https://videos.example/clip"));
     (VStr "lunge", inl (ErrorObj "rate limited"))].
Proof.
  destruct (no_lookup_after_a_throw
              Demo.workoutPrompt (Demo.answering Demo.full_plan) flaky_video
              Demo.engine_message Demo.args []
              [(VStr "squat", inr (VStr "https://videos.example/clip"))]
              (VStr "lunge") (ErrorObj "rate limited")
              (List.tl (List.tl (snd (run_with flaky_video Demo.full_plan)))))
    as [Hafter _].
  - vm_compute. reflexivity.
  - vm_compute. reflexivity.
Defined.

Lemma invalid_data_reported_iff_no_plan_witness :
  (exists err,
      fst (workoutPlanGenerator Demo.workoutPrompt
             (fun _ => inr (mkGeminiResponse true (VObj []) VUndef VUndef))
             Demo.video Demo.engine_message Demo.args [])
      = inr (Failure (VStr "Invalid workout plan data received") err))
  /\ workoutPlanGenerator Demo.workoutPrompt
       (fun _ => inr (mkGeminiResponse true (VStr "abc") VUndef VUndef))
       Demo.video Demo.engine_message Demo.args []
     = (inr (Failure (VStr "Failed to generate workout plan")
                     (VStr "Cannot use 'in' operator")), []).
Proof.
  split.
  - apply (invalid_data_reported_iff_no_plan
             Demo.workoutPrompt
             (fun _ => inr (mkGeminiResponse true (VObj []) VUndef VUndef))
             Demo.video Demo.engine_message Demo.args []
             "Plan for beginner"
             (mkGeminiResponse true (VObj []) VUndef VUndef));
      [reflexivity | reflexivity | reflexivity |].
    right. split; [exact I | reflexivity].
  - apply (invalid_data_reported_iff_no_plan
             Demo.workoutPrompt
             (fun _ => inr (mkGeminiResponse true (VStr "abc") VUndef VUndef))
             Demo.video Demo.engine_message Demo.args []
             "Plan for beginner"
             (mkGeminiResponse true (VStr "abc") VUndef VUndef));
      [reflexivity | reflexivity | reflexivity | reflexivity |].
    intros [].
Defined.

Lemma success_enriches_every_exercise_witness :
  exists m plan' new,
    Demo.run (Demo.answering Demo.full_plan) = (inr (Success m plan'), new)
    /\ recorded Demo.video [] new
    /\ overwritten Demo.full_plan plan' new
    /\ carries_answers plan' new
    /\ map (prop_of "name") (plan_exercises Demo.full_plan)
       = [VStr "squat"; VStr "lunge"; VStr "row"; VStr "jog"; VStr "stretch"]
    /\ map (prop_of "gif_url") (plan_exercises plan')
       = [VStr "https://videos.example/squat";
          VStr "https://videos.example/lunge";
          VStr "https://videos.example/row";
          VStr "https://videos.example/jog";
          VStr "https://videos.example/stretch"].
Proof.
  assert (exists m plan' w',
             Demo.run (Demo.answering Demo.full_plan)
             = (inr (Success m plan'), w'))
    as (m & plan' & w' & Hrun) by (vm_compute; eauto).
  destruct (success_enriches_every_exercise
              Demo.workoutPrompt (Demo.answering Demo.full_plan)
              Demo.video Demo.engine_message Demo.args []
              (inr (Success m plan')) w' Hrun)
    as (new & Hw & Hrec & Hok & _).
  cbn [app] in Hw. subst w'.
  destruct (Hok m plan' eq_refl)
    as (_ & _ & prompt & result & plan & _ & Hg & Hget & Hshape & Hans).
  injection Hg as <-. injection Hget as <-.
  exists m, plan', new. split; [exact Hrun|]. split; [exact Hrec|].
  split; [exact Hshape|]. split.
  - apply Hans. vm_compute. repeat constructor; cbn; intuition discriminate.
  - vm_compute in Hrun. injection Hrun as <- <- <-.
    split; vm_compute; reflexivity.
Defined.

Lemma success_only_on_well_shaped_witness :
  exists plan,
    get_prop (data full_response) "workout_plan" = inr plan /\ well_shaped plan.
Proof.
  assert (exists m plan',
             fst (run_with Demo.video Demo.full_plan) = inr (Success m plan'))
    as (m & plan' & Hrun) by (vm_compute; eauto).
  destruct (success_only_on_well_shaped
              Demo.workoutPrompt (Demo.answering Demo.full_plan) Demo.video
              Demo.engine_message Demo.args [] m plan' Hrun)
    as (prompt & result & plan & Hp & Hg & _ & Hget & Hshape).
  injection Hg as <-. eauto.
Defined.

Lemma one_lookup_per_exercise_in_order_witness :
  exists new,
    snd (run_with Demo.video Demo.full_plan) = new
    /\ map fst new
       = [VStr "squat"; VStr "lunge"; VStr "row"; VStr "jog"; VStr "stretch"]
    /\ List.length new = 5%nat.
Proof.
  assert (exists m plan' w',
             run_with Demo.video Demo.full_plan = (inr (Success m plan'), w'))
    as (m & plan' & w' & Hrun) by (vm_compute; eauto).
  destruct (one_lookup_per_exercise_in_order
              Demo.workoutPrompt (Demo.answering Demo.full_plan) Demo.video
              Demo.engine_message Demo.args [] m plan' w'
              "Plan for beginner" full_response Demo.full_plan Hrun)
    as (new & Hw & Hn & _ & Hlen);
    [reflexivity | reflexivity | reflexivity | |].
  - vm_compute. repeat constructor; cbn; intuition discriminate.
  - exists new. cbn [app] in Hw. subst w'.
    rewrite Hrun. cbn [snd].
    split; [reflexivity|]. split; [rewrite Hn; reflexivity | rewrite Hlen; reflexivity].
Defined.

Lemma only_gif_url_changes_witness :
  exists m plan',
    fst (run_with Demo.video Demo.full_plan) = inr (Success m plan')
    /\ day_keys plan' = ["Monday"; "Friday"]
    /\ Forall2 same_section (plan_sections Demo.full_plan) (plan_sections plan').
Proof.
  assert (exists m plan' w',
             run_with Demo.video Demo.full_plan = (inr (Success m plan'), w'))
    as (m & plan' & w' & Hrun) by (vm_compute; eauto).
  destruct (only_gif_url_changes
              Demo.workoutPrompt (Demo.answering Demo.full_plan) Demo.video
              Demo.engine_message Demo.args [] m plan' w'
              "Plan for beginner" full_response Demo.full_plan Hrun)
    as (Hkeys & Hsame & _);
    [reflexivity | reflexivity | reflexivity | |].
  - vm_compute. repeat constructor; cbn; intuition discriminate.
  - exists m, plan'. rewrite Hrun.
    split; [reflexivity|]. split; [rewrite Hkeys; reflexivity | exact Hsame].
Defined.

Lemma well_shaped_plan_is_accepted_witness :
  exists plan' w',
    run_with always_video Demo.full_plan
    = (inr (Success "Workout plan generated successfully" plan'), w').
Proof.
  apply (well_shaped_plan_is_accepted
           Demo.workoutPrompt (Demo.answering Demo.full_plan) always_video
           Demo.engine_message
           (fun k name => ex_intro _ (VStr "https://videos.example/clip") eq_refl)
           Demo.args [] "Plan for beginner" full_response Demo.full_plan);
    try reflexivity.
  unfold well_shaped, usable_section.
  split; [|split].
  - exists (VObj [("Monday", Demo.section ["squat"; "lunge"]);
                  ("Friday", Demo.section ["row"])]), ["Monday"; "Friday"].
    split; [reflexivity|]. split; [reflexivity|].
    intros day [<-|[<-|[]]]; eexists; (split; [reflexivity|]);
      eexists _, _; (split; [reflexivity|]); (split; [reflexivity|]);
      repeat constructor.
  - eexists. split; [reflexivity|].
    eexists _, _. split; [reflexivity|]. split; [reflexivity|]. repeat constructor.
  - eexists. split; [reflexivity|].
    eexists _, _. split; [reflexivity|]. split; [reflexivity|]. repeat constructor.
Defined.

End PlannerMore.

(** ** More on the admin routes *)

Module AdminMore.
Import Eff EffFacts Js JsFacts Admin AdminShape AdminFacts.

Lemma insert_keeps_field k i (d d' : Doc) (l : list Doc) :
  l !! i = Some d -> assoc k d' = assoc k d ->
  map (assoc k) (<[i := d']> l) = map (assoc k) l.
Proof.
  intros Hi Hk.
  change (map (assoc k) (<[i := d']> l)) with (assoc k <$> <[i := d']> l).
  rewrite list_fmap_insert, Hk.
  apply list_insert_id. rewrite list_lookup_fmap.
  exact (f_equal (fmap (assoc k)) Hi).
Qed.

Lemma remove_first_delete (p : Doc -> bool) (l : list Doc) i d :
  l !! i = Some d ->
  (forall j x, l !! j = Some x -> p x = true <-> j = i) ->
  remove_first p l = delete i l.
Proof.
  revert i. induction l as [|x l IH]; intros i Hi Hp; [done|].
  cbn [remove_first]. destruct (p x) eqn:Ex.
  - assert (0%nat = i) as <- by (by apply (Hp 0%nat x)). reflexivity.
  - destruct i as [|i].
    + cbn in Hi. injection Hi as ->.
      assert (p d = true) by (by apply (Hp 0%nat d)). congruence.
    + cbn. f_equal. apply IH; [exact Hi|].
      intros j y Hj. specialize (Hp (S j) y Hj). split.
      * intros Hy. apply Hp in Hy. congruence.
      * intros ->. by apply Hp.
Qed.

Section Facts.

Variable matches : value -> Doc -> bool.
Variable name_le : value -> value -> bool.
Variable fault : nat -> bool.
Variable bcrypt_hash : value -> option string.
Variable new_id : nat -> value.
Variable zod_message : list string -> value -> string.

Abbreviation handle :=
  (Admin.handle matches name_le fault bcrypt_hash new_id zod_message).
Abbreviation getTrainers := (Admin.getTrainers matches name_le fault).
Abbreviation getUsers := (Admin.getUsers matches name_le fault).
Abbreviation patchUserRole := (Admin.patchUserRole matches fault zod_message).
Abbreviation patchTrainer := (Admin.patchTrainer matches fault).
Abbreviation patchTrainerInfo :=
  (Admin.patchTrainerInfo matches fault zod_message).
Abbreviation deleteTrainer := (Admin.deleteTrainer matches fault).
Abbreviation postTrainers :=
  (Admin.postTrainers matches fault bcrypt_hash new_id).
Abbreviation updateUserRoleSchema_parse :=
  (Admin.updateUserRoleSchema_parse zod_message).
Abbreviation updateTrainerInfoSchema_parse :=
  (Admin.updateTrainerInfoSchema_parse zod_message).


Ltac store_paths :=
  repeat match goal with
         | |- context [fault ?k] => destruct (fault k) eqn:?; cbn
         | |- context [list_find ?P ?l] =>
             destruct (list_find P l) as [[? ?]|] eqn:?; cbn
         | |- context [bcrypt_hash ?v] => destruct (bcrypt_hash v) eqn:?; cbn
         end.

Ltac body_paths :=
  repeat match goal with
         | |- context [get_prop ?b ?k] => destruct (get_prop b k) as [?|?] eqn:?; cbn
         end.

Ltac answered := eexists _, _, _; split; [reflexivity|].

Ltac failed := apply touched_failed; [cbn; tauto | reflexivity].

Lemma found_at (P : Doc -> Prop) `{!forall d, Decision (P d)} (l : list Doc) i d :
  list_find P l = Some (i, d) -> l !! i = Some d.
Proof. intros Hf. by apply list_find_Some in Hf as [? _]. Qed.

Ltac updated :=
  match goal with
  | H : list_find _ _ = Some (?i, ?d) |- _ =>
      eapply (touched_updated _ _ i d);
      [ reflexivity | reflexivity | exact (found_at _ _ _ _ H) | | reflexivity ]
  end.

Lemma getTrainers_touched req w :
  exists s b w',
    getTrainers req w = (inr (Respond s b), w') /\ touched GetTrainers w s w'.
Proof.
  unfold Admin.getTrainers, Admin.find_select_sort, Admin.store_op, server_error.
  eff_unfold. store_paths; answered; [failed|].
  by apply touched_read.
Qed.

Lemma getUsers_touched req w :
  exists s b w',
    getUsers req w = (inr (Respond s b), w') /\ touched GetUsers w s w'.
Proof.
  unfold Admin.getUsers, Admin.find_select_sort, Admin.store_op, server_error.
  eff_unfold. store_paths; answered; [failed|].
  by apply touched_read.
Qed.

Lemma patchTrainer_touched req w :
  exists s b w',
    patchTrainer req w = (inr (Respond s b), w') /\ touched PatchTrainer w s w'.
Proof.
  unfold Admin.patchTrainer, Admin.findOne, Admin.save, Admin.store_op,
    Admin.raise_type_error, not_found, server_error.
  eff_unfold.
  body_paths; store_paths; answered; try failed.
  all: updated; intros k Hk;
    assert (k <> "name" /\ k <> "specialization" /\ k <> "hourlyRate"
            /\ k <> "bio" /\ k <> "isVerified") as (? & ? & ? & ? & ?)
      by (repeat split; intros ->; apply Hk; cbn; tauto);
    rewrite assoc_verified_other by assumption;
    rewrite !assoc_guarded_set_other by assumption; reflexivity.
Qed.

Lemma postTrainers_touched req w :
  exists s b w',
    postTrainers req w = (inr (Respond s b), w') /\ touched PostTrainers w s w'.
Proof.
  unfold Admin.postTrainers, Admin.findOne, Admin.insert, Admin.hash,
    Admin.store_op, Admin.raise_type_error, server_error.
  eff_unfold.
  body_paths; store_paths; answered; try failed.
  by eapply touched_created.
Qed.

Lemma deleteTrainer_touched req w :
  exists s b w',
    deleteTrainer req w = (inr (Respond s b), w') /\ touched DeleteTrainer w s w'.
Proof.
  unfold Admin.deleteTrainer, Admin.findOne, Admin.deleteOne, Admin.store_op,
    not_found, server_error.
  eff_unfold.
  store_paths; answered; try failed.
  by eapply touched_deleted.
Qed.

Lemma patchUserRole_touched req w :
  exists s b w',
    patchUserRole req w = (inr (Respond s b), w') /\ touched PatchUserRole w s w'.
Proof.
  unfold Admin.patchUserRole, Admin.findOne, Admin.save, Admin.store_op,
    not_found.
  eff_unfold.
  destruct (updateUserRoleSchema_parse (body req)) as [e|role] eqn:Hparse.
  { apply role_parse_error in Hparse as [m ->]. cbn. answered. failed. }
  store_paths; answered; try failed.
  updated. intros k Hk.
  apply assoc_set_other. intros <-. apply Hk. cbn. tauto.
Qed.

Lemma patchTrainerInfo_touched req w :
  exists s b w',
    patchTrainerInfo req w = (inr (Respond s b), w')
    /\ touched PatchTrainerInfo w s w'.
Proof.
  unfold Admin.patchTrainerInfo, Admin.findOne, Admin.save, Admin.store_op,
    not_found.
  eff_unfold.
  destruct (updateTrainerInfoSchema_parse (body req))
    as [e|[[specialization hourlyRate] bio]] eqn:Hparse.
  { apply info_parse_error in Hparse.
    destruct e as [[|m ms]|]; [by destruct Hparse | |]; cbn; answered; failed. }
  store_paths; answered; try failed.
  updated. intros k Hk.
  assert (k <> "specialization" /\ k <> "hourlyRate" /\ k <> "bio")
    as (? & ? & ?) by (repeat split; intros ->; apply Hk; cbn; tauto).
  rewrite !assoc_set_other by congruence. reflexivity.
Qed.

(** Every handler answers, and what it did to the collection is one of the
    cases of [touched]. *)
Lemma handle_touched route req w :
  exists s b w',
    handle route req w = (inr (Respond s b), w') /\ touched route w s w'.
Proof.
  destruct route; cbn [Admin.handle].
  - apply getTrainers_touched.
  - apply postTrainers_touched.
  - apply patchTrainer_touched.
  - apply deleteTrainer_touched.
  - apply getUsers_touched.
  - apply patchUserRole_touched.
  - apply patchTrainerInfo_touched.
Qed.

(** X15: every admin handler answers with one of 200, 201, 400, 404, 500;
    whenever the answer is not 200 or 201 the user collection is exactly what
    it was, and the two listing routes never change it whatever they
    answer. *)
Theorem failed_requests_change_nothing route req w :
  exists s b w',
    handle route req w = (inr (Respond s b), w')
    /\ In s [200; 201; 400; 404; 500]
    /\ (s <> 200 -> s <> 201 -> users w' = users w)
    /\ (reads_only route = true -> users w' = users w)
    /\ (s = 201 -> route = PostTrainers).
Proof.
  destruct (handle_touched route req w) as (s & b & w' & Hrun & Ht).
  exists s, b, w'. split; [exact Hrun|].
  destruct Ht as [s w' Hs Hu|w' Hr Hu|i d d' w' Hk Hr Hi Hd Hu|d w' -> Hu|p w' -> Hu].
  - repeat split; auto.
    + cbn in *. tauto.
    + intros ->. cbn in Hs. intuition discriminate.
  - repeat split; auto; [cbn; tauto | discriminate].
  - repeat split; try done; [cbn; tauto | congruence].
  - repeat split; try done. cbn; tauto.
  - repeat split; try done. cbn; tauto.
Qed.

(** X16: on the five routes that neither create nor delete, a field that the
    route does not assign keeps its value in every stored document, whatever
    the request and whatever the answer: no request to them can change a
    password or an e-mail address, and a role changes only through the role
    route. *)
Theorem patch_routes_write_only_their_fields route req w k :
  keeps_documents route = true ->
  ~ In k (writable route) ->
  map (assoc k) (users (snd (handle route req w))) = map (assoc k) (users w).
Proof.
  intros Hkeep Hk.
  destruct (handle_touched route req w) as (s & b & w' & -> & Ht). cbn [snd].
  destruct Ht as [s w' Hs Hu|w' Hr Hu|i d d' w' _ Hr Hi Hd Hu|d w' -> Hu|p w' -> Hu];
    try discriminate; try (by rewrite Hu).
  rewrite Hu. by apply (insert_keeps_field k i d d'), Hd.
Qed.

Lemma assoc_del_other k k' (ps : list (string * value)) :
  k <> k' -> assoc k (assoc_del k' ps) = assoc k ps.
Proof.
  intros Hne. induction ps as [|[k0 v0] ps IH]; cbn; [reflexivity|].
  destruct (String.eqb k' k0) eqn:E; cbn.
  - apply String.eqb_eq in E. subst k0.
    assert (String.eqb k k' = false) as -> by (by apply String.eqb_neq).
    exact IH.
  - by rewrite IH.
Qed.

Lemma role_accepted props r :
  assoc_or_undef "role" props = VStr r -> In r roles ->
  updateUserRoleSchema_parse (VObj props) = inr r.
Proof.
  intros Hr Hin. unfold Admin.updateUserRoleSchema_parse. rewrite Hr.
  assert (existsb (String.eqb r) roles = true) as ->; [|reflexivity].
  apply existsb_exists. exists r. split; [exact Hin | apply String.eqb_refl].
Qed.

(** X17: [PATCH /users/:userId/role] with one of the three roles, on a user
    that is found, with a store that does not throw: the user is read, then
    saved with the new role and nothing else changed, and the answer shows the
    new role. *)
Theorem role_route_stores_the_role req w props r i user :
  body req = VObj props ->
  assoc_or_undef "role" props = VStr r ->
  In r roles ->
  fault (nops w) = false ->
  fault (S (nops w)) = false ->
  list_find (fun d => matches (by_id (VStr (param req))) d = true) (users w)
  = Some (i, user) ->
  exists user' w',
    patchUserRole req w = (inr (Respond 200 (without_password user')), w')
    /\ users w' = <[i := user']> (users w)
    /\ assoc "role" user' = Some (VStr r)
    /\ (forall k, k <> "role" -> assoc k user' = assoc k user)
    /\ get_prop (without_password user') "role" = inr (VStr r)
    /\ journal w'
       = journal w ++ [OpFindOne (by_id (VStr (param req))); OpSave i user'].
Proof.
  intros Hb Hr Hin F0 F1 Hfind.
  unfold Admin.patchUserRole, Admin.findOne, Admin.save, Admin.store_op.
  rewrite Hb, (role_accepted props r Hr Hin). eff_unfold. cbn.
  rewrite F0. cbn. unfold by_id in Hfind. rewrite Hfind. cbn. rewrite F1. cbn.
  eexists _, _. split; [reflexivity|]. cbn.
  split; [reflexivity|]. split; [apply assoc_set_same|].
  split; [intros k Hk; apply assoc_set_other; congruence|].
  split.
  - unfold assoc_or_undef. rewrite assoc_del_other by discriminate.
    by rewrite assoc_set_same.
  - by rewrite <- app_assoc.
Qed.

Lemma string_issues_nil field message v :
  Admin.string_issues zod_message field message v = []
  <-> nonempty_string v = true.
Proof.
  destruct v as [| | | |s| |]; cbn; try (split; discriminate).
  destruct (String.eqb s ""); cbn; split; (discriminate || reflexivity).
Qed.

Lemma rate_issues_nil v :
  Admin.rate_issues zod_message v = [] <-> nonnegative_number v = true.
Proof.
  destruct v as [| | |q| | |]; cbn; try (split; discriminate).
  destruct (Qle_bool 0 q); cbn; split; (discriminate || reflexivity).
Qed.

Lemma info_parse_valid b :
  valid_info b = true
  <-> exists r, updateTrainerInfoSchema_parse b = inr r.
Proof.
  unfold Admin.updateTrainerInfoSchema_parse, valid_info.
  destruct b as [| | | | | |props];
    try (split; [discriminate | intros [r [=]]]).
  rewrite !andb_true_iff.
  rewrite <- (string_issues_nil "specialization" "Specialization is required").
  rewrite <- (string_issues_nil "bio" "Bio is required"), <- rate_issues_nil.
  destruct (Admin.string_issues _ "specialization" _ _) as [|m1 l1]; cbn.
  - destruct (Admin.rate_issues _ _) as [|m2 l2]; cbn.
    + destruct (Admin.string_issues _ _ _ _) as [|m3 l3]; cbn.
      * split; [eauto | by intros _].
      * split; [intros [_ [=]] | intros [r [=]]].
    + split; [intros [[_ [=]] _] | intros [r [=]]].
  - split; [intros [[[=] _] _] | intros [r [=]]].
Qed.

(** X18: [PATCH /trainers/:trainerId/info] answers 400 exactly when the body
    is not an object whose [specialization] and [bio] are non-empty strings
    and whose [hourlyRate] is a number that is at least 0; and a 400 comes
    before any store operation: the world is what it was. *)
Theorem info_route_rejects_exactly_invalid_bodies req w :
  exists s b w',
    patchTrainerInfo req w = (inr (Respond s b), w')
    /\ (s = 400 <-> valid_info (body req) = false)
    /\ (s = 400 -> w' = w).
Proof.
  unfold Admin.patchTrainerInfo, Admin.findOne, Admin.save, Admin.store_op,
    not_found.
  eff_unfold.
  pose proof (info_parse_valid (body req)) as Hv.
  destruct (updateTrainerInfoSchema_parse (body req))
    as [e|[[specialization hourlyRate] bio]] eqn:Hparse.
  - assert (valid_info (body req) = false) as Hno.
    { destruct (valid_info (body req)); [|reflexivity].
      destruct Hv as [[r [=]] _]. reflexivity. }
    pose proof (info_parse_error _ _ _ Hparse) as Hwf.
    destruct e as [[|m ms]|]; [by destruct Hwf| |]; cbn.
    + eexists _, _, _. split; [reflexivity|]. split; [tauto | reflexivity].
    + exfalso. clear Hv Hno Hwf. revert Hparse.
      unfold Admin.updateTrainerInfoSchema_parse.
      destruct (body req); try discriminate.
      destruct (_ ++ _); discriminate.
  - assert (valid_info (body req) = true) as Hyes by (apply Hv; eauto).
    store_paths; eexists _, _, _; (split; [reflexivity|]);
      (split; [split; [discriminate | congruence] | discriminate]).
Qed.

(** X19: a negative hourly rate is refused by the info route whatever the
    biography is, with the message of the rate check, and before the store is
    touched, provided the specialization is a non-empty string. *)
Theorem negative_rate_is_refused req w props s q :
  body req = VObj props ->
  assoc_or_undef "specialization" props = VStr s ->
  s <> "" ->
  assoc_or_undef "hourlyRate" props = VNum q ->
  (q < 0)%Q ->
  patchTrainerInfo req w
  = (inr (Respond 400 (error_body "Hourly rate must be positive")), w).
Proof.
  intros Hb Hs Hne Hq Hneg.
  unfold Admin.patchTrainerInfo, Admin.updateTrainerInfoSchema_parse.
  rewrite Hb, Hs, Hq. cbn.
  apply String.eqb_neq in Hne. rewrite Hne. cbn.
  assert (Qle_bool 0 q = false) as ->; [|reflexivity].
  destruct (Qle_bool 0 q) eqn:E; [|reflexivity].
  apply Qle_bool_iff in E. exfalso. apply (Qlt_not_le _ _ Hneg E).
Qed.

(** X20: [DELETE /trainers/:trainerId] on a trainer that is found, when the
    store does not throw and the identifier of that trainer matches its
    document only: the answer is 200, the collection is the old one without
    that one document, every other document is kept in place and order, and
    the store saw the lookup and then the deletion by identifier. *)
Theorem delete_removes_exactly_the_found_trainer req w i trainer :
  fault (nops w) = false ->
  fault (S (nops w)) = false ->
  list_find (fun d => matches (trainer_filter (param req)) d = true) (users w)
  = Some (i, trainer) ->
  (forall j d, users w !! j = Some d ->
               matches (by_id (assoc_or_undef "_id" trainer)) d = true <-> j = i) ->
  exists w',
    deleteTrainer req w
    = (inr (Respond 200 (VObj [("message", VStr "Trainer deleted successfully")])),
       w')
    /\ users w' = delete i (users w)
    /\ journal w'
       = journal w ++ [OpFindOne (trainer_filter (param req));
                       OpDeleteOne (by_id (assoc_or_undef "_id" trainer))].
Proof.
  intros F0 F1 Hfind Hid.
  unfold Admin.deleteTrainer, Admin.findOne, Admin.deleteOne, Admin.store_op.
  eff_unfold. rewrite F0. cbn. rewrite Hfind. cbn. rewrite F1. cbn.
  eexists. split; [reflexivity|]. cbn. split.
  - apply (remove_first_delete _ _ i trainer);
      [exact (found_at _ _ _ _ Hfind) | exact Hid].
  - by rewrite <- app_assoc.
Qed.

(** X21: [POST /trainers] with an e-mail address that a stored user already
    has is answered 400 "Email already exists"; the collection is unchanged
    and the only store operation is the lookup by e-mail. *)
Theorem duplicate_email_is_rejected req w props d :
  body req = VObj props ->
  fault (nops w) = false ->
  In d (users w) ->
  matches (VObj [("email", assoc_or_undef "email" props)]) d = true ->
  exists w',
    postTrainers req w = (inr (Respond 400 (error_body "Email already exists")), w')
    /\ users w' = users w
    /\ journal w'
       = journal w ++ [OpFindOne (VObj [("email", assoc_or_undef "email" props)])].
Proof.
  intros Hb F0 Hin Hm.
  assert (is_Some (list_find
            (fun x => matches (VObj [("email", assoc_or_undef "email" props)]) x
                      = true) (users w))) as [[j x] Hfind].
  { eapply list_find_elem_of; [|exact Hm]. by apply list_elem_of_In. }
  unfold Admin.postTrainers, Admin.findOne, Admin.store_op,
    Admin.raise_type_error.
  rewrite Hb. eff_unfold. cbn. rewrite F0. cbn. rewrite Hfind. cbn.
  eexists. split; [reflexivity|]. by cbn.
Qed.

(** X22: whenever [POST /trainers] answers 201, no stored user had the
    e-mail address, and the document it appended has the role TRAINER and is
    verified whatever the body said about [role] and [isVerified], holds the
    hash of the supplied password and not the password, and takes name and
    e-mail address from the body. *)
Theorem created_trainer_is_verified_and_hashed req w b w' :
  postTrainers req w = (inr (Respond 201 b), w') ->
  exists d email password h,
    users w' = users w ++ [d]
    /\ get_prop (body req) "email" = inr email
    /\ list_find (fun x => matches (VObj [("email", email)]) x = true) (users w)
       = None
    /\ get_prop (body req) "password" = inr password
    /\ bcrypt_hash password = Some h
    /\ assoc "password" d = Some (VStr h)
    /\ assoc "role" d = Some (VStr "TRAINER")
    /\ assoc "isVerified" d = Some (VBool true)
    /\ assoc "email" d = Some email
    /\ b = without_password d.
Proof.
  unfold Admin.postTrainers, Admin.findOne, Admin.insert, Admin.hash,
    Admin.store_op, Admin.raise_type_error, server_error.
  eff_unfold.
  body_paths; store_paths; intros [= <- <-]; cbn.
  eexists _, _, _, _. repeat split; try reflexivity; eassumption.
Qed.

Lemma insert_by_name_perm d l :
  Admin.insert_by_name name_le d l ≡ₚ d :: l.
Proof.
  induction l as [|x l IH]; cbn; [reflexivity|].
  destruct (name_le _ _); [reflexivity|].
  rewrite IH. apply Permutation_swap.
Qed.

Lemma sort_by_name_perm l : Admin.sort_by_name name_le l ≡ₚ l.
Proof.
  induction l as [|d l IH]; cbn; [reflexivity|].
  by rewrite insert_by_name_perm, IH.
Qed.

(** X23: when the store does not throw, [GET /trainers] answers 200 with the
    documents that match the role filter, each exactly once and each without
    its password, and the collection is unchanged; so does [GET /users] for
    the empty filter. *)
Theorem listings_hold_each_match_once req w :
  fault (nops w) = false ->
  (exists l w',
      getTrainers req w = (inr (Respond 200 (VArr (map VObj l) [])), w')
      /\ l ≡ₚ map (assoc_del "password")
               (List.filter (matches (VObj [("role", VStr "TRAINER")])) (users w))
      /\ users w' = users w)
  /\ (exists l w',
        getUsers req w = (inr (Respond 200 (VArr (map VObj l) [])), w')
        /\ l ≡ₚ map (assoc_del "password")
                 (List.filter (matches (VObj [])) (users w))
        /\ users w' = users w).
Proof.
  intros F0.
  unfold Admin.getTrainers, Admin.getUsers, Admin.find_select_sort,
    Admin.store_op.
  eff_unfold. rewrite F0. cbn.
  split; eexists _, _; (split; [reflexivity|]);
    (split; [apply sort_by_name_perm | reflexivity]).
Qed.

End Facts.

(** *** The theorems at a concrete environment *)

Lemma patch_routes_write_only_their_fields_witness :
  map (assoc "password")
      (users (snd (Demo.run PatchTrainer
                     (mkRequest "t1" (VObj [("name", VStr "Tia");
                                            ("password", VStr "plain");
                                            ("role", VStr "ADMIN")])))))
  = [Some (VStr "$2a$10$hidden"); Some (VStr "$2a$10$secret")].
Proof.
  apply (patch_routes_write_only_their_fields
           Demo.matches Demo.name_le Demo.fault Demo.bcrypt_hash Demo.new_id
           Demo.zod_message PatchTrainer
           (mkRequest "t1" (VObj [("name", VStr "Tia");
                                  ("password", VStr "plain");
                                  ("role", VStr "ADMIN")]))
           Demo.world "password").
  - reflexivity.
  - cbn. intuition discriminate.
Defined.

Lemma role_route_stores_the_role_witness :
  exists user' w',
    Demo.run PatchUserRole (mkRequest "u1" (VObj [("role", VStr "TRAINER")]))
    = (inr (Respond 200 (without_password user')), w')
    /\ assoc "role" user' = Some (VStr "TRAINER")
    /\ assoc "password" user' = assoc "password" Demo.member.
Proof.
  destruct (role_route_stores_the_role
              Demo.matches Demo.fault Demo.zod_message
              (mkRequest "u1" (VObj [("role", VStr "TRAINER")])) Demo.world
              [("role", VStr "TRAINER")] "TRAINER" 0%nat Demo.member)
    as (user' & w' & Hrun & _ & Hrole & Hframe & _);
    try reflexivity.
  - cbn. tauto.
  - exists user', w'. split; [exact Hrun|]. split; [exact Hrole|].
    apply Hframe. discriminate.
Defined.

Lemma negative_rate_is_refused_witness :
  Demo.run PatchTrainerInfo
    (mkRequest "t1" (VObj [("specialization", VStr "yoga");
                           ("hourlyRate", VNum (-5 # 1)); ("bio", VStr "")]))
  = (inr (Respond 400 (error_body "Hourly rate must be positive")), Demo.world).
Proof.
  apply (negative_rate_is_refused
           Demo.matches Demo.fault Demo.zod_message
           (mkRequest "t1" (VObj [("specialization", VStr "yoga");
                                  ("hourlyRate", VNum (-5 # 1)); ("bio", VStr "")]))
           Demo.world
           [("specialization", VStr "yoga"); ("hourlyRate", VNum (-5 # 1));
            ("bio", VStr "")]
           "yoga" (-5 # 1)%Q);
    try reflexivity.
  discriminate.
Defined.

Lemma delete_removes_exactly_the_found_trainer_witness :
  exists w',
    Demo.run DeleteTrainer (mkRequest "t1" VUndef)
    = (inr (Respond 200 (VObj [("message", VStr "Trainer deleted successfully")])),
       w')
    /\ users w' = [Demo.member].
Proof.
  destruct (delete_removes_exactly_the_found_trainer
              Demo.matches Demo.fault (mkRequest "t1" VUndef) Demo.world
              1%nat Demo.trainer)
    as (w' & Hrun & Husers & _);
    try reflexivity.
  - intros [|[|j]] d; cbn; intros [= <-]; split; try reflexivity; discriminate.
  - exists w'. split; [exact Hrun | exact Husers].
Defined.

Lemma duplicate_email_is_rejected_witness :
  exists w',
    Demo.run PostTrainers
      (mkRequest "" (VObj [("name", VStr "Tess");
                           ("email", VStr "tara@fit.example");
                           ("password", VStr "pw")]))
    = (inr (Respond 400 (error_body "Email already exists")), w')
    /\ users w' = users Demo.world.
Proof.
  destruct (duplicate_email_is_rejected
              Demo.matches Demo.fault Demo.bcrypt_hash Demo.new_id
              (mkRequest "" (VObj [("name", VStr "Tess");
                                   ("email", VStr "tara@fit.example");
                                   ("password", VStr "pw")]))
              Demo.world
              [("name", VStr "Tess"); ("email", VStr "tara@fit.example");
               ("password", VStr "pw")]
              Demo.trainer)
    as (w' & Hrun & Husers & _);
    try reflexivity.
  - cbn. tauto.
  - exists w'. split; [exact Hrun | exact Husers].
Defined.

Lemma created_trainer_is_verified_and_hashed_witness :
  exists d,
    users (snd (Demo.run PostTrainers
                  (mkRequest "" (VObj [("name", VStr "Tess");
                                       ("email", VStr "tess@fit.example");
                                       ("password", VStr "pw");
                                       ("role", VStr "ADMIN");
                                       ("isVerified", VBool false)]))))
    = users Demo.world ++ [d]
    /\ assoc "password" d = Some (VStr "$2a$10$pw")
    /\ assoc "role" d = Some (VStr "TRAINER")
    /\ assoc "isVerified" d = Some (VBool true).
Proof.
  set (req := mkRequest "" (VObj [("name", VStr "Tess");
                                  ("email", VStr "tess@fit.example");
                                  ("password", VStr "pw");
                                  ("role", VStr "ADMIN");
                                  ("isVerified", VBool false)])).
  assert (exists b w', Demo.run PostTrainers req = (inr (Respond 201 b), w'))
    as (b & w' & Hrun) by (vm_compute; eauto).
  destruct (created_trainer_is_verified_and_hashed
              Demo.matches Demo.fault Demo.bcrypt_hash Demo.new_id
              req Demo.world b w' Hrun)
    as (d & email & password & h & Hu & _ & _ & Hp & Hh & Hpw & Hr & Hv & _).
  exists d. rewrite Hrun. cbn [snd].
  injection Hp as <-. injection Hh as <-. auto.
Defined.

Lemma listings_hold_each_match_once_witness :
  exists l w',
    Demo.run GetTrainers (mkRequest "" VUndef)
    = (inr (Respond 200 (VArr (map VObj l) [])), w')
    /\ l ≡ₚ [assoc_del "password" Demo.trainer].
Proof.
  destruct (listings_hold_each_match_once
              Demo.matches Demo.name_le Demo.fault (mkRequest "" VUndef)
              Demo.world)
    as [(l & w' & Hrun & Hl & _) _]; [reflexivity|].
  exists l, w'. split; [exact Hrun | exact Hl].
Defined.

End AdminMore.

(** ** The authentication middleware *)

Module AuthFacts.
Import Eff EffFacts Js JsFacts Admin AdminShape Auth.

Lemma split_on_whole c s : no_char c s = true -> split_on c s = [s].
Proof.
  unfold no_char. induction s as [|a s IH]; cbn -[Ascii.eqb]; [reflexivity|].
  intros [Ha Hs]%andb_true_iff. apply negb_true_iff in Ha. rewrite Ha.
  by rewrite (IH Hs).
Qed.

Lemma append_cons a s t : (String a s ++ t = String a (s ++ t))%string.
Proof. reflexivity. Qed.

Lemma append_empty t : ("" ++ t = t)%string.
Proof. reflexivity. Qed.

Lemma append_nil_r s : (s ++ "")%string = s.
Proof. induction s as [|a s IH]; [reflexivity|]. by rewrite append_cons, IH. Qed.

Lemma split_on_app c a b :
  no_char c a = true ->
  split_on c (a ++ String c b)%string = a :: split_on c b.
Proof.
  unfold no_char.
  induction a as [|x a IH]; rewrite ?append_cons, ?append_empty; cbn -[Ascii.eqb].
  - intros _. by rewrite Ascii.eqb_refl.
  - intros [Hx Ha]%andb_true_iff. apply negb_true_iff in Hx. rewrite Hx.
    by rewrite (IH Ha).
Qed.

(** The first piece holds no separator; the rest is the split of what
    follows the first separator. *)
Lemma split_on_inv c s p ps :
  split_on c s = p :: ps ->
  no_char c p = true
  /\ ((ps = [] /\ s = p)
      \/ exists s', s = (p ++ String c s')%string /\ split_on c s' = ps).
Proof.
  revert p ps. induction s as [|a s IH]; intros p ps; cbn -[Ascii.eqb].
  - intros [= <- <-]. split; [reflexivity | by left].
  - destruct (Ascii.eqb a c) eqn:E.
    + apply Ascii.eqb_eq in E. subst a. intros [= <- <-].
      split; [reflexivity|]. right. by exists s.
    + destruct (split_on c s) as [|q qs] eqn:Hs.
      * intros [= <- <-]. split.
        { unfold no_char. cbn -[Ascii.eqb]. by rewrite E. }
        left. destruct s; cbn -[Ascii.eqb] in Hs; [discriminate|].
        destruct (Ascii.eqb _ _); [discriminate|].
        by destruct (split_on c s).
      * intros [= <- <-]. destruct (IH q qs eq_refl) as [Hq Hrest]. split.
        { unfold no_char in *. cbn -[Ascii.eqb]. by rewrite E, Hq. }
        destruct Hrest as [[-> ->]|(s' & -> & Hs')]; [by left|].
        right. by exists s'.
Qed.

Lemma prefix_before_separator c p a b :
  no_char c p = true -> String.prefix p (a ++ String c b)%string = true ->
  String.prefix p a = true.
Proof.
  unfold no_char. revert a. induction p as [|x p IH]; intros a; cbn -[Ascii.eqb];
    [intros; by destruct a|].
  intros [Hx Hp]%andb_true_iff. apply negb_true_iff, Ascii.eqb_neq in Hx.
  destruct a as [|y a]; rewrite ?append_cons, ?append_empty; cbn.
  - destruct (ascii_dec x c); [contradiction | done].
  - destruct (ascii_dec x y); [by apply IH | done].
Qed.

Lemma prefix_app p a b :
  String.prefix p a = true -> String.prefix p (a ++ b)%string = true.
Proof.
  revert a. induction p as [|x p IH]; intros a;
    [intros; by destruct (a ++ b)%string|].
  destruct a as [|y a]; rewrite ?append_cons, ?append_empty; cbn;
    [discriminate|].
  destruct (ascii_dec x y); [apply IH | done].
Qed.

(** X24: the token that [protect] verifies is the second of the pieces of
    the header between single spaces: a header yields the token [tok] exactly
    when it is a first piece that starts with [Bearer] and holds no space, one
    space, [tok], and then nothing or a space and anything. *)
Theorem bearer_token_is_second_piece header tok :
  bearer_token header = Some tok
  <-> exists scheme rest,
        header = Some (scheme ++ " " ++ tok ++ rest)%string
        /\ String.prefix "Bearer" scheme = true
        /\ no_char " " scheme = true
        /\ no_char " " tok = true
        /\ (rest = "" \/ exists r, rest = String " " r).
Proof.
  unfold bearer_token. split.
  - destruct header as [h|]; [|discriminate].
    destruct (truthy (VStr h) && String.prefix "Bearer" h) eqn:E; [|discriminate].
    apply andb_true_iff in E as [_ Hpre].
    destruct (split_on " " h) as [|p ps] eqn:Hsplit; [discriminate|].
    destruct ps as [|t ps]; [discriminate|]. intros [= ->].
    apply split_on_inv in Hsplit as [Hp [[[=] _]|(s' & -> & Hs')]].
    apply split_on_inv in Hs' as [Ht Hrest].
    destruct Hrest as [[-> ->]|(s'' & -> & _)].
    + exists p, "". rewrite append_nil_r.
      repeat split; auto.
      by apply (prefix_before_separator " " _ _ tok).
    + exists p, (String " " s''). repeat split; eauto.
      by apply (prefix_before_separator " " _ _ (tok ++ String " " s'')%string).
  - intros (scheme & rest & -> & Hpre & Hs & Ht & Hrest).
    assert (String.prefix "Bearer" (scheme ++ " " ++ tok ++ rest)%string = true)
      as Hp
      by (by apply prefix_app).
    assert (truthy (VStr (scheme ++ " " ++ tok ++ rest)%string) = true) as Htr.
    { cbn. destruct scheme; [discriminate | reflexivity]. }
    rewrite Htr, Hp. cbn [andb].
    change (scheme ++ " " ++ tok ++ rest)%string
      with (scheme ++ String " " (tok ++ rest))%string.
    rewrite split_on_app by exact Hs.
    destruct Hrest as [->|[r ->]].
    + rewrite append_nil_r, split_on_whole by exact Ht. reflexivity.
    + by rewrite split_on_app.
Qed.

Section Facts.

Variable matches : value -> Admin.Doc -> bool.
Variable fault : nat -> bool.
Variable jwt_verify : string -> option value.

Abbreviation protect := (Auth.protect matches fault jwt_verify).
Abbreviation admin := (Auth.admin matches fault).

Ltac paths :=
  repeat match goal with
         | |- context [bearer_token ?h] =>
             destruct (bearer_token h) as [?|] eqn:?; cbn
         | |- context [String.eqb ?t ""] => destruct (String.eqb t "") eqn:?; cbn
         | |- context [jwt_verify ?t] =>
             destruct (jwt_verify t) as [?|] eqn:?; cbn
         | |- context [get_prop ?b ?k] =>
             destruct (get_prop b k) as [?|?] eqn:?; cbn
         | |- context [fault ?k] => destruct (fault k) eqn:?; cbn
         | |- context [list_find ?P ?l] =>
             destruct (list_find P l) as [[? ?]|] eqn:?; cbn
         | |- context [strict_equal_string ?v ?s] =>
             destruct (strict_equal_string v s) eqn:?; cbn
         end.

Lemma strict_equal_string_true v s :
  strict_equal_string v s = true <-> v = VStr s.
Proof.
  destruct v; cbn; try (split; discriminate).
  rewrite String.eqb_eq. split; congruence.
Qed.

Lemma truthy_not_undef id :
  truthy id = true -> match id with VUndef => VNull | _ => id end = id.
Proof. by destruct id. Qed.

(** What stands behind a call of [next] by [protect]. *)
Lemma protect_next_inv req w req' w' :
  protect req w = (inr (Next req'), w') ->
  users w' = users w
  /\ exists i user, req_user req' = Some user /\ users w !! i = Some user.
Proof.
  unfold Auth.protect, Auth.verify, Auth.findById, Admin.findOne,
    Admin.store_op, Admin.raise_type_error.
  eff_unfold.
  paths; intros [= <- <-]; cbn.
  split; [reflexivity|].
  match goal with
  | H : list_find _ _ = Some _ |- _ =>
      apply list_find_Some in H as (Hi & _)
  end.
  eauto.
Qed.

(** X25: [protect] always answers, never writes, and every refusal is a 401;
    it calls [next] only when the header yields a non-empty token, the token
    verifies, and the store holds a user that matches the identifier of the
    payload; that stored user is what it attaches to the request. *)
Theorem protect_admits_only_a_verified_stored_user req w :
  exists o w',
    protect req w = (inr o, w')
    /\ users w' = users w
    /\ match o with
       | Respond s _ => s = 401
       | Next req' =>
           authorization req' = authorization req
           /\ exists token decoded id i user,
               bearer_token (authorization req) = Some token
               /\ token <> ""
               /\ jwt_verify token = Some decoded
               /\ get_prop decoded "id" = inr id
               /\ req_user req' = Some user
               /\ users w !! i = Some user
               /\ matches (by_id (match id with VUndef => VNull | _ => id end))
                          user = true
       end.
Proof.
  unfold Auth.protect, Auth.verify, Auth.findById, Admin.findOne,
    Admin.store_op, Admin.raise_type_error.
  eff_unfold.
  paths; eexists _, _; (split; [reflexivity|]); (split; [reflexivity|]);
    try reflexivity.
  split; [reflexivity|].
  match goal with
  | H : list_find _ _ = Some _ |- _ =>
      apply list_find_Some in H as (Hi & Hm & _)
  end.
  eexists _, _, _, _, _. repeat split; try eassumption.
  by apply String.eqb_neq.
Qed.

(** X26: [admin] always answers, never writes, and refuses with 401 or 403
    only; it calls [next], with the request as it came, exactly when the
    request carries a user with a truthy [_id], the store answers, and the
    first stored user matching that identifier has the role ADMIN: the role
    on the request itself plays no part. *)
Theorem admin_lets_through_iff_stored_role_is_admin req w :
  (exists o w',
      admin req w = (inr o, w')
      /\ users w' = users w
      /\ match o with
         | Next req' => req' = req
         | Respond s _ => s = 401 \/ s = 403
         end)
  /\ ((exists req', fst (admin req w) = inr (Next req'))
      <-> exists me i user,
            req_user req = Some me
            /\ truthy (assoc_or_undef "_id" me) = true
            /\ fault (nops w) = false
            /\ list_find (fun d => matches (by_id (assoc_or_undef "_id" me)) d
                                   = true) (users w)
               = Some (i, user)
            /\ assoc_or_undef "role" user = VStr "ADMIN").
Proof.
  unfold Auth.admin, Auth.findById, Admin.findOne, Admin.store_op, by_id.
  eff_unfold.
  destruct (req_user req) as [me|]; cbn.
  2: { split; [eexists _, _; repeat split; auto|].
       split; [intros [? [=]] | intros (? & ? & ? & [=] & _)]. }
  destruct (truthy (assoc_or_undef "_id" me)) eqn:Hid; cbn.
  2: { split; [eexists _, _; repeat split; auto|].
       split; [intros [? [=]] | intros (? & ? & ? & [= <-] & ? & _); congruence]. }
  rewrite (truthy_not_undef _ Hid).
  destruct (fault (nops w)) eqn:F0; cbn.
  { split; [eexists _, _; repeat split; auto|].
    split; [intros [? [=]] | intros (? & ? & ? & _ & _ & [=] & _)]. }
  destruct (list_find _ (users w)) as [[i user]|] eqn:Hfind; cbn.
  2: { split; [eexists _, _; repeat split; auto|].
       split; [intros [? [=]] | intros (? & ? & ? & [= <-] & _ & _ & Hf & _)].
       rewrite Hfind in Hf. discriminate. }
  destruct (strict_equal_string _ _) eqn:Hrole; cbn.
  - apply strict_equal_string_true in Hrole.
    split; [eexists _, _; repeat split; auto|].
    split; [intros _ | eauto]. by exists me, i, user.
  - split; [eexists _, _; repeat split; auto|].
    split; [intros [? [=]] | intros (? & ? & ? & [= <-] & _ & _ & Hf & Hr)].
    rewrite Hfind in Hf. injection Hf as <- <-.
    apply strict_equal_string_true in Hr. congruence.
Qed.

(** X27: [admin] run on what [protect] let through, over a store that
    answers and in which the identifier of the attached user matches that user
    only: the request goes on exactly when that user is an ADMIN, and is
    answered 403 otherwise. *)
Theorem admin_after_protect req w req' w' user :
  protect req w = (inr (Next req'), w') ->
  req_user req' = Some user ->
  fault (nops w') = false ->
  truthy (assoc_or_undef "_id" user) = true ->
  (forall d, In d (users w) ->
             matches (by_id (assoc_or_undef "_id" user)) d = true <-> d = user) ->
  fst (admin req' w')
  = inr (if strict_equal_string (assoc_or_undef "role" user) "ADMIN"
         then Next req'
         else Respond 403 (message "Not authorized as admin")).
Proof.
  intros Hrun Huser F Hid Honly.
  destruct (protect_next_inv req w req' w' Hrun) as (Husers & i & u & Hu & Hi).
  rewrite Huser in Hu. injection Hu as <-.
  assert (In user (users w)) as Hin.
  { apply list_elem_of_In. by eapply list_elem_of_lookup_2. }
  assert (exists j, list_find
                      (fun d => matches (by_id (assoc_or_undef "_id" user)) d = true)
                      (users w') = Some (j, user)) as [j Hfind].
  { rewrite Husers.
    destruct (list_find_elem_of
                (fun d => matches (by_id (assoc_or_undef "_id" user)) d = true)
                (users w) user) as [[j x] Hj].
    - by apply list_elem_of_In.
    - by apply Honly.
    - exists j. rewrite Hj. f_equal. f_equal.
      apply list_find_Some in Hj as (Hjx & Hm & _).
      apply Honly; [|exact Hm].
      apply list_elem_of_In. by eapply list_elem_of_lookup_2. }
  unfold Auth.admin, Auth.findById, Admin.findOne, Admin.store_op.
  eff_unfold. rewrite Huser. cbn. rewrite Hid. cbn.
  rewrite (truthy_not_undef _ Hid), F. cbn.
  unfold by_id in Hfind. rewrite Hfind. cbn.
  by destruct (strict_equal_string _ _).
Qed.

End Facts.

(** *** The theorems at a concrete environment *)

Example second_piece_is_the_token :
  bearer_token (Some "Bearer abc def") = Some "abc"
  /\ bearer_token (Some "BearerX abc") = Some "abc"
  /\ bearer_token (Some "Bearer  abc") = Some ""
  /\ bearer_token (Some "Bearer") = None
  /\ bearer_token (Some "bearer abc") = None.
Proof. repeat split. Qed.

Lemma admin_after_protect_witness :
  exists req' w',
    Demo.protect (mkRequest (Some "Bearer for-a1") None) Demo.world
    = (inr (Next req'), w')
    /\ req_user req' = Some Demo.boss
    /\ fst (Demo.admin req' w') = inr (Next req').
Proof.
  assert (exists w',
             Demo.protect (mkRequest (Some "Bearer for-a1") None) Demo.world
             = (inr (Next (mkRequest (Some "Bearer for-a1") (Some Demo.boss))), w')
             /\ Admin.Demo.fault (nops w') = false)
    as (w' & Hrun & Hfault) by (vm_compute; eauto).
  exists (mkRequest (Some "Bearer for-a1") (Some Demo.boss)), w'.
  split; [exact Hrun|]. split; [reflexivity|].
  apply (admin_after_protect
           Admin.Demo.matches Admin.Demo.fault Demo.jwt_verify
           (mkRequest (Some "Bearer for-a1") None) Demo.world
           (mkRequest (Some "Bearer for-a1") (Some Demo.boss)) w' Demo.boss
           Hrun eq_refl Hfault eq_refl).
  intros d [<-|[<-|[<-|[]]]]; vm_compute; split; congruence.
Defined.

End AuthFacts.
